(** * MCP server core: TTL context store and versioned file store

    A shallow embedding of [app/core/context_manager.py],
    [app/core/file_manager.py] and the models of
    [app/models/pydantic_models.py] they construct, followed by the
    properties of the two engines.

    Conventions of the embedding.
    - A coroutine is a state transformer returning an [outcome]: it
      returns a value, raises a Python exception, or never completes
      ([Blocked]: it waits for an [asyncio.Lock] that is never released).
      Coroutines run one at a time.
    - [time.time()] is an argument [now] of every operation; instants are
      integers (seconds), the float arithmetic is not modelled.
    - Python dictionaries used as maps are [gmap]s; the local cache, whose
      eviction depends on insertion order, is an association list.
    - The optional Redis tier is not configured ([redis_url=None], the
      default of the constructor). *)

From Stdlib Require Import ZArith Lia Ascii.
From stdpp Require Import gmap strings list fin_maps pretty.

Local Open Scope Z_scope.
Set Warnings "-register-all".

(** ** Python results and effects *)

Module Py.

(** The exception classes the two modules raise or catch. *)
Inductive exn :=
| ValidationError (fields : list string)   (* pydantic; a ValueError subclass *)
| ValueError (msg : string)
| TypeError (msg : string)
| AttributeError (attr : string)
| KeyError (key : string)
| FileNotFoundError (msg : string)
| IOError (msg : string)
| PyException (msg : string).

(** [str(e)] *)
Definition str_exn (e : exn) : string :=
  match e with
  | ValidationError fields => "validation error: " +:+ String.concat ", " fields
  | ValueError m | TypeError m | FileNotFoundError m | IOError m | PyException m => m
  | AttributeError a => "object has no attribute '" +:+ a +:+ "'"
  | KeyError k => "'" +:+ k +:+ "'"
  end.

(** [isinstance(e, ValueError)] *)
Definition is_ValueError (e : exn) : bool :=
  match e with ValidationError _ | ValueError _ => true | _ => false end.

Inductive outcome (A : Type) :=
| Returned (a : A)
| Raised (e : exn)
| Blocked.
Arguments Returned {A} a.
Arguments Raised {A} e.
Arguments Blocked {A}.

(** Coroutines over a state [St]. *)
Definition M (St A : Type) : Type := St -> outcome A * St.

Definition ret {St A} (a : A) : M St A := fun s => (Returned a, s).
Definition raise {St A} (e : exn) : M St A := fun s => (Raised e, s).
Definition bind {St A B} (m : M St A) (k : A -> M St B) : M St B :=
  fun s =>
    match m s with
    | (Returned a, s') => k a s'
    | (Raised e, s') => (Raised e, s')
    | (Blocked, s') => (Blocked, s')
    end.
Definition gets {St A} (f : St -> A) : M St A := fun s => (Returned (f s), s).
Definition modify {St} (f : St -> St) : M St unit := fun s => (Returned tt, f s).

(** [try: m  except Exception as e: h e] *)
Definition try_except {St A} (m : M St A) (h : exn -> M St A) : M St A :=
  fun s =>
    match m s with
    | (Raised e, s') => h e s'
    | r => r
    end.

(** the result of a [try] body, for an [except Exception] clause that
    goes on with the state the body left *)
Definition attempt {St A} (m : M St A) : M St (exn + A) :=
  fun s =>
    match m s with
    | (Returned a, s') => (Returned (inr a), s')
    | (Raised e, s') => (Returned (inl e), s')
    | (Blocked, s') => (Blocked, s')
    end.

(** [async with lock: body] for an [asyncio.Lock] stored in the state:
    the lock is not reentrant, so a body that is entered while the lock
    is held never starts; the lock is released when the body returns or
    raises. *)
Definition async_with {St A} (locked : St -> bool) (set_locked : bool -> St -> St)
    (body : M St A) : M St A :=
  fun s =>
    if locked s then (Blocked, s)
    else match body (set_locked true s) with
         | (Blocked, s') => (Blocked, s')
         | (r, s') => (r, set_locked false s')
         end.

(** JSON-like Python values ([Any]). *)
Inductive pyval :=
| PNone
| PBool (b : bool)
| PInt (n : Z)
| PStr (s : string)
| PList (l : list pyval)
| PDict (d : list (string * pyval)).

Definition is_None (v : pyval) : bool :=
  match v with PNone => true | _ => false end.

Definition pydict : Type := list (string * pyval).

End Py.

Declare Scope py_scope.
Notation "'let*' x ':=' c1 'in' c2" := (Py.bind c1 (fun x => c2))
  (at level 10, x name, c1 at level 100, c2 at level 200) : py_scope.
Notation "c1 ;; c2" := (Py.bind c1 (fun _ => c2))
  (at level 100, c2 at level 200, right associativity) : py_scope.
Local Open Scope py_scope.

(** ** Python string and path functions (on ASCII) *)

Module PyStr.

Definition lower_char (c : ascii) : ascii :=
  let n := N_of_ascii c in
  if ((65 <=? n) && (n <=? 90))%N then ascii_of_N (n + 32) else c.

(** [s.lower()] *)
Fixpoint lower (s : string) : string :=
  match s with
  | EmptyString => EmptyString
  | String c s' => String (lower_char c) (lower s')
  end.

(** [s.startswith(p)] and [s.endswith(p)] *)
Definition startswith (s p : string) : bool := String.prefix p s.
Definition endswith (s p : string) : bool :=
  String.prefix (String.rev p) (String.rev s).

(** [s.replace('\\', '/')] *)
Fixpoint backslash_to_slash (s : string) : string :=
  match s with
  | EmptyString => EmptyString
  | String c s' =>
      String (if Ascii.eqb c "\" then "/"%char else c) (backslash_to_slash s')
  end.

(** the part of [s] after the last [c]: [s.rsplit(c, 1)[1]] when [c]
    occurs in [s] *)
Fixpoint after_last (c : ascii) (s : string) : option string :=
  match s with
  | EmptyString => None
  | String a s' =>
      match after_last c s' with
      | Some t => Some t
      | None => if Ascii.eqb a c then Some s' else None
      end
  end.

(** [PurePath.name], [PurePath.suffix] *)
Definition path_name (p : string) : string :=
  default p (after_last "/" p).
Definition path_suffix (p : string) : string :=
  let name := path_name p in
  match after_last "." name with
  | Some ext =>
      if bool_decide (ext = EmptyString)
         || bool_decide (String.length name = S (String.length ext))
      then EmptyString
      else String "." ext
  | None => EmptyString
  end.

(** [s.strip()] *)
Fixpoint lstrip (s : string) : string :=
  match s with
  | String c s' => if Ascii.is_space c then lstrip s' else s
  | EmptyString => EmptyString
  end.
Definition strip (s : string) : string :=
  String.rev (lstrip (String.rev (lstrip s))).

(** the digits of an integer literal; single underscores may separate
    digits *)
Fixpoint digits (acc : Z) (after_digit : bool) (s : string) : option Z :=
  match s with
  | EmptyString => if after_digit then Some acc else None
  | String c s' =>
      match Ascii.is_nat c with
      | Some d => digits (10 * acc + Z.of_nat d) true s'
      | None =>
          if Ascii.eqb c "_" && after_digit then digits acc false s' else None
      end
  end.

(** [int(s)]; [None] is the [ValueError] *)
Definition int (s : string) : option Z :=
  match strip s with
  | String "-" s' => Z.opp <$> digits 0 false s'
  | String "+" s' => digits 0 false s'
  | s' => digits 0 false s'
  end.

End PyStr.

(** ** Insertion-ordered dictionaries (the local cache) *)

Module OrderedDict.
Section Dict.
Context {V : Type}.

Fixpoint get (k : string) (d : list (string * V)) : option V :=
  match d with
  | [] => None
  | (k', v) :: d' => if String.eqb k k' then Some v else get k d'
  end.

(** [d[k] = v]: an existing key keeps its position *)
Fixpoint set (k : string) (v : V) (d : list (string * V)) : list (string * V) :=
  match d with
  | [] => [(k, v)]
  | (k', v') :: d' =>
      if String.eqb k k' then (k, v) :: d' else (k', v') :: set k v d'
  end.

(** [del d[k]] for a key that may be absent *)
Fixpoint del (k : string) (d : list (string * V)) : list (string * V) :=
  match d with
  | [] => []
  | (k', v') :: d' =>
      if String.eqb k k' then d' else (k', v') :: del k d'
  end.

Definition keys (d : list (string * V)) : list string := d.*1.
End Dict.
End OrderedDict.

(** [sorted(xs, key=rank)]: Python's sort is stable *)
Fixpoint insert_by {A} (rank : A -> Z) (x : A) (l : list A) : list A :=
  match l with
  | [] => [x]
  | y :: l' => if rank x <=? rank y then x :: y :: l' else y :: insert_by rank x l'
  end.

Definition sorted_by {A} (rank : A -> Z) (l : list A) : list A :=
  foldr (insert_by rank) [] l.

(** ** The context manager ([app/core/context_manager.py]) *)

Module Context.
Import Py.

(** [metadata or {}] and the [metadata] entry of an event payload *)
Definition or_empty (m : option pydict) : pydict :=
  match m with
  | Some ((_ :: _) as d) => d
  | _ => []
  end.
Definition opt_dict (m : option pydict) : pyval :=
  match m with Some d => PDict d | None => PNone end.

(** *** Models *)

(** [ContextItem]: [key] and [value] are required, [ttl] is
    [Optional[int]] with [ge=1], [metadata] a dictionary. *)
Record ContextItem := {
  ci_key : string;
  ci_value : pyval;
  ci_ttl : option Z;
  ci_metadata : pydict
}.

Definition new_ContextItem (key : string) (value : pyval) (ttl : option Z)
    (metadata : pydict) : exn + ContextItem :=
  match ttl with
  | Some n =>
      if 1 <=? n
      then inr {| ci_key := key; ci_value := value; ci_ttl := ttl; ci_metadata := metadata |}
      else inl (ValidationError ["ttl"])
  | None =>
      inr {| ci_key := key; ci_value := value; ci_ttl := None; ci_metadata := metadata |}
  end.

Inductive EventType := CONTEXT_CHANGE | FILE_CHANGE | SYSTEM_ALERT | API_CALL.

(** [Event]; the defaulted [timestamp] and [severity] and the random
    [correlation_id] are left out. *)
Record Event := {
  event_type : EventType;
  source : string;
  data : pydict
}.

(** An item of [_context_store]: the dictionary with the keys
    ["value"], ["metadata"], ["created_at"], ["updated_at"]. *)
Record Entry := {
  value : pyval;
  metadata : pydict;
  created_at : Z;
  updated_at : Z
}.

(** *** State of a [ContextManager] *)

Record ContextManager := mkCM {
  cache_ttl : Z;
  max_cache_size : Z;
  enable_persistence : bool;
  _context_store : gmap string Entry;
  _ttl_store : gmap string Z;
  _cache : list (string * (pyval * Z));
  _lock : bool;                          (* [asyncio.Lock.locked()] *)
  _cache_lock : bool;
  notified : list (string * Event);      (* calls of [_notify_subscribers], oldest first *)
  storage : gmap string (list Byte.byte) (* the files under [storage_path] *)
}.

Definition with_context_store (f : gmap string Entry -> gmap string Entry)
    (s : ContextManager) : ContextManager :=
  mkCM (cache_ttl s) (max_cache_size s) (enable_persistence s)
       (f (_context_store s)) (_ttl_store s) (_cache s) (_lock s) (_cache_lock s)
       (notified s) (storage s).
Definition with_ttl_store (f : gmap string Z -> gmap string Z)
    (s : ContextManager) : ContextManager :=
  mkCM (cache_ttl s) (max_cache_size s) (enable_persistence s)
       (_context_store s) (f (_ttl_store s)) (_cache s) (_lock s) (_cache_lock s)
       (notified s) (storage s).
Definition with_cache (f : list (string * (pyval * Z)) -> list (string * (pyval * Z)))
    (s : ContextManager) : ContextManager :=
  mkCM (cache_ttl s) (max_cache_size s) (enable_persistence s)
       (_context_store s) (_ttl_store s) (f (_cache s)) (_lock s) (_cache_lock s)
       (notified s) (storage s).
Definition set_lock (b : bool) (s : ContextManager) : ContextManager :=
  mkCM (cache_ttl s) (max_cache_size s) (enable_persistence s)
       (_context_store s) (_ttl_store s) (_cache s) b (_cache_lock s)
       (notified s) (storage s).
Definition set_cache_lock (b : bool) (s : ContextManager) : ContextManager :=
  mkCM (cache_ttl s) (max_cache_size s) (enable_persistence s)
       (_context_store s) (_ttl_store s) (_cache s) (_lock s) b
       (notified s) (storage s).
Definition with_notified (f : list (string * Event) -> list (string * Event))
    (s : ContextManager) : ContextManager :=
  mkCM (cache_ttl s) (max_cache_size s) (enable_persistence s)
       (_context_store s) (_ttl_store s) (_cache s) (_lock s) (_cache_lock s)
       (f (notified s)) (storage s).
Definition with_storage (f : gmap string (list Byte.byte) -> gmap string (list Byte.byte))
    (s : ContextManager) : ContextManager :=
  mkCM (cache_ttl s) (max_cache_size s) (enable_persistence s)
       (_context_store s) (_ttl_store s) (_cache s) (_lock s) (_cache_lock s)
       (notified s) (f (storage s)).

(** [ContextManager.__init__]: empty stores over the given configuration
    and the files already under [storage_path]. *)
Definition new_ContextManager (cache_ttl max_cache_size : Z) (enable_persistence : bool)
    (files : gmap string (list Byte.byte)) : ContextManager :=
  mkCM cache_ttl max_cache_size enable_persistence ∅ ∅ [] false false [] files.

Abbreviation CM := (M ContextManager).

Definition with_self_lock {A} (body : CM A) : CM A :=
  async_with _lock set_lock body.
Definition with_self_cache_lock {A} (body : CM A) : CM A :=
  async_with _cache_lock set_cache_lock body.

(** *** Cache *)

(** [_get_from_cache] *)
Definition _get_from_cache (now : Z) (key : string) : CM pyval :=
  let* r := with_self_cache_lock (
         let* c := gets _cache in
         match OrderedDict.get key c with
         | Some (v, expiry) =>
             if now <? expiry then ret (Some v)
             else modify (with_cache (OrderedDict.del key)) ;; ret None
         | None => ret None
         end) in
  match r with
  | Some v => ret v
  | None => ret PNone
  end.

(** the eviction of [_update_cache]: the [items_to_remove] keys of
    smallest cache expiry *)
Definition oldest_keys (max_size : Z) (c : list (string * (pyval * Z))) : list string :=
  let items_to_remove := Z.max 1 (max_size / 10) in
  take (Z.to_nat items_to_remove)
       (sorted_by (fun k => match OrderedDict.get k c with
                            | Some (_, e) => e
                            | None => 0
                            end)
                  (OrderedDict.keys c)).

(** [_update_cache] *)
Definition _update_cache (now : Z) (key : string) (v : pyval) : CM unit :=
  let* ttl := gets cache_ttl in
  let expiry := now + ttl in
  with_self_cache_lock (
    let* c := gets _cache in
    let* max_size := gets max_cache_size in
    (if max_size <=? Z.of_nat (length c)
     then modify (with_cache (fun c =>
            foldl (fun c k => OrderedDict.del k c) c (oldest_keys max_size c)))
     else ret tt) ;;
    modify (with_cache (OrderedDict.set key (v, expiry)))).

(** [_delete_from_cache] *)
Definition _delete_from_cache (key : string) : CM unit :=
  with_self_cache_lock (modify (with_cache (OrderedDict.del key))).

(** [_notify_subscribers]: the event is put on the queue of every
    matching subscription; the model records the call. *)
Definition _notify_subscribers (key : string) (e : Event) : CM unit :=
  modify (with_notified (fun l => l ++ [(key, e)])).

(** *** Store operations *)

Definition set_event (key : string) (v : pyval) (metadata : option pydict) : Event :=
  {| event_type := CONTEXT_CHANGE; source := "context_manager";
     data := [("operation", PStr "set"); ("key", PStr key);
              ("value", v); ("metadata", opt_dict metadata)] |}.

Definition delete_event (key : string) (old_value : pyval) : Event :=
  {| event_type := CONTEXT_CHANGE; source := "context_manager";
     data := [("operation", PStr "delete"); ("key", PStr key);
              ("old_value", old_value)] |}.

(** [set_context] *)
Definition set_context (now : Z) (key : string) (v : pyval) (ttl : option Z)
    (metadata : option pydict) (notify : bool) : CM bool :=
  try_except
    (match new_ContextItem key v ttl (or_empty metadata) with
     | inl e => raise e
     | inr context_item =>
         with_self_lock (
           modify (with_context_store
                     <[key := {| value := ci_value context_item;
                                 metadata := ci_metadata context_item;
                                 created_at := now; updated_at := now |}]>) ;;
           (match ttl with
            | Some n =>
                if 0 <? n then modify (with_ttl_store <[key := now + n]>)
                else modify (with_ttl_store (delete key))
            | None => modify (with_ttl_store (delete key))
            end) ;;
           _update_cache now key (ci_value context_item) ;;
           (if notify then _notify_subscribers key (set_event key v metadata)
            else ret tt) ;;
           ret true)
     end)
    (fun _ => ret false).

(** [_delete_context] *)
Definition _delete_context (key : string) (notify : bool) : CM bool :=
  with_self_lock (
    let* store := gets _context_store in
    match store !! key with
    | None => ret false
    | Some item =>
        let old_value := value item in
        modify (with_context_store (delete key)) ;;
        modify (with_ttl_store (delete key)) ;;
        _delete_from_cache key ;;
        (if notify then _notify_subscribers key (delete_event key old_value)
         else ret tt) ;;
        ret true
    end).

(** [delete_context] *)
Definition delete_context (key : string) : CM bool :=
  _delete_context key true.

(** The first definition of [get_context] in the class body,
    [get_context(self, key, use_cache=True)].  The class body defines
    [get_context] a second time (below), so this function is not the
    one bound to the attribute. *)
Definition get_context_keyed (now : Z) (key : string) (use_cache : bool) : CM pyval :=
  let* cached_value := (if use_cache then _get_from_cache now key else ret PNone) in
  if use_cache && negb (is_None cached_value) then ret cached_value
  else
    with_self_lock (
      let* store := gets _context_store in
      let* ttls := gets _ttl_store in
      match store !! key with
      | None => ret PNone
      | Some item =>
          if match ttls !! key with Some e => e <? now | None => false end
          then _delete_context key false ;; ret PNone
          else _update_cache now key (value item) ;; ret (value item)
      end).

(** The second definition, [get_context(self)], which is the method of
    the class: it takes no argument besides [self], and reads
    [self._subscribers], an attribute that is never assigned. *)
Definition get_context (args : list pyval) : CM pyval :=
  match args with
  | [] => raise (AttributeError "_subscribers")
  | _ :: _ => raise (TypeError "get_context() takes 1 positional argument")
  end.

(** [list_keys] *)
Definition list_keys (now : Z) (prefix : string) : CM (list string) :=
  with_self_lock (
    let* store := gets _context_store in
    let* ttls := gets _ttl_store in
    ret (List.filter
           (fun key =>
              String.prefix prefix key
              && match ttls !! key with Some e => now <=? e | None => true end)
           (map_to_list store).*1)).

(** *** Bulk operations *)

(** An element of [operations]: a dictionary read through
    [op.get("operation")], [op["key"]], [op["value"]], [op.get("ttl")]
    and [op.get("metadata")]; [None] is a missing key. *)
Record Operation := {
  op_operation : option string;
  op_key : option string;
  op_value : option pyval;
  op_ttl : option Z;
  op_metadata : option pydict
}.

Record ErrorInfo := {
  err_operation : Operation;
  err_error : string
}.

Record BulkResults := {
  succeeded : Z;
  failed : Z;
  errors : list ErrorInfo
}.

(** [op[name]] *)
Definition subscript {A} (name : string) (field : option A) : CM A :=
  match field with
  | Some a => ret a
  | None => raise (KeyError name)
  end.

Definition show_op_type (t : option string) : string :=
  match t with Some t => t | None => "None" end.

(** The body of the [try] of [bulk_operation] up to the assignment of
    [success]. *)
Definition bulk_dispatch (now : Z) (op : Operation) : CM bool :=
  let op_type := op_operation op in
  if bool_decide (op_type = Some "set") then
    let* key := subscript "key" (op_key op) in
    let* v := subscript "value" (op_value op) in
    set_context now key v (op_ttl op) (op_metadata op) false
  else if bool_decide (op_type = Some "delete") then
    let* key := subscript "key" (op_key op) in
    _delete_context key false
  else
    raise (ValueError ("Unsupported operation: " +:+ show_op_type op_type)).

Definition count_succeeded (r : BulkResults) : BulkResults :=
  {| succeeded := succeeded r + 1; failed := failed r; errors := errors r |}.
Definition count_failed (r : BulkResults) : BulkResults :=
  {| succeeded := succeeded r; failed := failed r + 1; errors := errors r |}.
Definition record_error (op : Operation) (e : exn) (r : BulkResults) : BulkResults :=
  {| succeeded := succeeded r; failed := failed r + 1;
     errors := errors r ++ [{| err_operation := op; err_error := str_exn e |}] |}.

(** The [for op in operations] loop.  An exception raised by the
    dispatch reaches the [except] clause with [results] as it was; the
    exception raised for [fail_fast] reaches it after [failed] was
    incremented.  [break] ends the loop. *)
Fixpoint bulk_loop (now : Z) (operations : list Operation) (fail_fast : bool)
    (results : BulkResults) : CM BulkResults :=
  match operations with
  | [] => ret results
  | op :: rest =>
      let except (e : exn) (results : BulkResults) : CM BulkResults :=
        let results := record_error op e results in
        if fail_fast then ret results
        else bulk_loop now rest fail_fast results in
      let* success := attempt (bulk_dispatch now op) in
      match success with
      | inr true => bulk_loop now rest fail_fast (count_succeeded results)
      | inr false =>
          let results := count_failed results in
          if fail_fast
          then except (PyException "Operation failed and fail_fast is True") results
          else bulk_loop now rest fail_fast results
      | inl e => except e results
      end
  end.

Definition bulk_event (r : BulkResults) : Event :=
  {| event_type := CONTEXT_CHANGE; source := "context_manager";
     data := [("operation", PStr "bulk_update");
              ("succeeded", PInt (succeeded r)); ("failed", PInt (failed r))] |}.

(** [bulk_operation] *)
Definition bulk_operation (now : Z) (operations : list Operation) (fail_fast : bool)
    : CM BulkResults :=
  let* results :=
    bulk_loop now operations fail_fast {| succeeded := 0; failed := 0; errors := [] |} in
  (if 0 <? succeeded results then _notify_subscribers "" (bulk_event results)
   else ret tt) ;;
  ret results.

(** *** Persistence *)

(** The dictionary [_persist_data] serializes. *)
Record Snapshot := {
  snap_context_store : gmap string Entry;
  snap_ttl_store : gmap string Z;
  snap_timestamp : Z
}.

(** The dictionary [orjson.loads] gives back, read with
    [data.get("context_store", {})] and [data.get("ttl_store", {})];
    [None] is a missing key. *)
Record SnapshotDoc := {
  doc_context_store : option (gmap string Entry);
  doc_ttl_store : option (gmap string Z)
}.

Definition doc_of (snap : Snapshot) : SnapshotDoc :=
  {| doc_context_store := Some (snap_context_store snap);
     doc_ttl_store := Some (snap_ttl_store snap) |}.

(** [aiofiles.os.replace(src, dst)] *)
Definition os_replace (src dst : string) : CM unit :=
  let* files := gets storage in
  match files !! src with
  | None => raise (FileNotFoundError src)
  | Some content => modify (with_storage (fun fs => delete src (<[dst := content]> fs)))
  end.

Section Persistence.
(** [orjson.dumps] and [orjson.loads], which raise on what they cannot
    encode or decode. *)
Variable orjson_dumps : Snapshot -> exn + list Byte.byte.
Variable orjson_loads : list Byte.byte -> exn + SnapshotDoc.

(** [_persist_data] *)
Definition _persist_data (now : Z) : CM unit :=
  let* enabled := gets enable_persistence in
  if negb enabled then ret tt
  else
    try_except
      (let* snapshot :=
         with_self_lock (
           let* store := gets _context_store in
           let* ttls := gets _ttl_store in
           ret {| snap_context_store := store; snap_ttl_store := ttls;
                  snap_timestamp := now |}) in
       match orjson_dumps snapshot with
       | inl e => raise e
       | inr json_data =>
           modify (with_storage <["context.tmp" := json_data]>) ;;
           os_replace "context.tmp" "context.json"
       end)
      (fun _ => ret tt).

(** [_load_persisted_data] *)
Definition _load_persisted_data : CM unit :=
  let* enabled := gets enable_persistence in
  if negb enabled then ret tt
  else
    try_except
      (let* files := gets storage in
       match files !! "context.json" with
       | None => ret tt
       | Some raw_data =>
           match orjson_loads raw_data with
           | inl e => raise e
           | inr data =>
               with_self_lock (
                 modify (with_context_store
                           (fun _ => default ∅ (doc_context_store data))) ;;
                 modify (with_ttl_store (fun _ => default ∅ (doc_ttl_store data))))
           end
       end)
      (fun _ => ret tt).

(** A process restart: a new manager over the same configuration and
    files, which [initialize] fills from the persisted snapshot. *)
Definition restart (s : ContextManager) : ContextManager :=
  snd (_load_persisted_data
         (new_ContextManager (cache_ttl s) (max_cache_size s) (enable_persistence s)
                             (storage s))).
End Persistence.

(** *** Vocabulary of the properties *)

(** No coroutine holds a lock: the state between two operations. *)
Definition unlocked (s : ContextManager) : Prop :=
  _lock s = false /\ _cache_lock s = false.

(** the item [set_context] stores *)
Definition stored (v : pyval) (md : option pydict) (now : Z) : Entry :=
  {| value := v; metadata := or_empty md; created_at := now; updated_at := now |}.

(** the TTL index after a [set_context] that passed validation *)
Definition index_after_set (now : Z) (key : string) (ttl : option Z)
    (ttls : gmap string Z) : gmap string Z :=
  match ttl with
  | Some n => if 0 <? n then <[key := now + n]> ttls else delete key ttls
  | None => delete key ttls
  end.

(** A call of [set_context] or of [delete_context]; each call is one
    step of the store. *)
Inductive Call :=
| CallSet (now : Z) (key : string) (v : pyval) (ttl : option Z)
    (metadata : option pydict) (notify : bool)
| CallDelete (key : string).

Inductive step : ContextManager -> Call -> ContextManager -> Prop :=
| step_set now key v ttl md notify s r s' :
    set_context now key v ttl md notify s = (r, s') ->
    step s (CallSet now key v ttl md notify) s'
| step_delete key s r s' :
    delete_context key s = (r, s') ->
    step s (CallDelete key) s'.

Inductive steps : ContextManager -> list Call -> ContextManager -> Prop :=
| steps_done s : steps s [] s
| steps_more s c s' calls s'' :
    step s c s' -> steps s' calls s'' -> steps s (c :: calls) s''.

(** The expiry instants a sequence of calls gives to the keys, following
    the wording of the operations and not their code: a [set] with a
    time to live of one second or more gives the key the instant
    [now + ttl], a [set] without a time to live leaves the key without
    one, a [set] with another time to live is rejected, and a [delete]
    takes the key away. *)
Definition give (g : gmap string Z) (c : Call) : gmap string Z :=
  match c with
  | CallSet now key _ (Some n) _ _ => if 1 <=? n then <[key := now + n]> g else g
  | CallSet now key _ None _ _ => delete key g
  | CallDelete key => delete key g
  end.

Definition given_expiries (calls : list Call) : gmap string Z :=
  foldl give ∅ calls.

(** The operations of a bulk call attempted one after the other: the
    result of each ([inl]: it raised) and the state they leave. *)
Fixpoint attempt_each (now : Z) (operations : list Operation) (s : ContextManager)
    : list (exn + bool) * ContextManager :=
  match operations with
  | [] => ([], s)
  | op :: rest =>
      match attempt (bulk_dispatch now op) s with
      | (Returned r, s') =>
          let '(rs, s'') := attempt_each now rest s' in (r :: rs, s'')
      | (_, s') => ([], s')
      end
  end.

Definition succeeds (r : exn + bool) : bool :=
  match r with inr true => true | _ => false end.

(** the results of [bulk_operation] without [fail_fast], from the result
    of each operation *)
Definition tally (results : BulkResults) (op : Operation) (r : exn + bool) : BulkResults :=
  match r with
  | inr true => count_succeeded results
  | inr false => count_failed results
  | inl e => record_error op e results
  end.

(** the snapshot [_persist_data] takes of a state *)
Definition snapshot_of (now : Z) (s : ContextManager) : Snapshot :=
  {| snap_context_store := _context_store s; snap_ttl_store := _ttl_store s;
     snap_timestamp := now |}.

(** *** States and calls of the examples *)

Definition fresh : ContextManager := new_ContextManager 300 10000 true ∅.

Definition set_op (key : string) (v : pyval) : Operation :=
  {| op_operation := Some "set"; op_key := Some key; op_value := Some v;
     op_ttl := None; op_metadata := None |}.
Definition delete_op (key : string) : Operation :=
  {| op_operation := Some "delete"; op_key := Some key; op_value := None;
     op_ttl := None; op_metadata := None |}.

(** a store in which ["k"], set at instant 0 to live one second, has not
    been swept *)
Definition one_second : ContextManager :=
  snd (set_context 0 "k" (PStr "v") (Some 1) None true fresh).

(** *** Sweep, item details, listings and subscribers *)

(** the [for key in expired_keys] of [_cleanup_expired_loop] *)
Fixpoint delete_expired (expired_keys : list string) : CM unit :=
  match expired_keys with
  | [] => ret tt
  | key :: rest => _delete_context key true ;; delete_expired rest
  end.

(** One turn of the [while] of [_cleanup_expired_loop], up to the sleep:
    the expired keys are read off the TTL index without the lock, then
    deleted one by one; an exception is logged. *)
Definition _cleanup_expired_turn (now : Z) : CM unit :=
  try_except
    (let* ttls := gets _ttl_store in
     let expired_keys :=
       (List.filter (fun '(_, expiry) => expiry <=? now) (map_to_list ttls)).*1 in
     delete_expired expired_keys)
    (fun _ => ret tt).

(** [_get_item_data_from_store] *)
Definition _get_item_data_from_store (key : string) : CM (option Entry) :=
  with_self_lock (let* store := gets _context_store in ret (store !! key)).

(** [get_context_item_details]: the remaining time to live is
    [int(ttl_value - time.time())] when [ttl_value] is truthy *)
Definition get_context_item_details (now : Z) (key : string) : CM (option ContextItem) :=
  let* item_data := _get_item_data_from_store key in
  match item_data with
  | None => ret None
  | Some item_data =>
      let* ttl_value := with_self_lock (let* ttls := gets _ttl_store in ret (ttls !! key)) in
      let ttl :=
        match ttl_value with
        | Some expiry => if bool_decide (expiry = 0) then None else Some (expiry - now)
        | None => None
        end in
      match new_ContextItem key (value item_data) ttl (metadata item_data) with
      | inl e => raise e
      | inr item => ret (Some item)
      end
  end.

(** the [for key in paginated_keys] of [list_all_context_items_full] *)
Fixpoint full_items (now : Z) (keys : list string) : CM (list ContextItem) :=
  match keys with
  | [] => ret []
  | key :: rest =>
      let* item := get_context_item_details now key in
      let* items := full_items now rest in
      ret (match item with Some item => item :: items | None => items end)
  end.

(** [list_all_context_items_full] *)
Definition list_all_context_items_full (now : Z) (prefix : string) (skip limit : nat)
    : CM (list ContextItem) :=
  let* all_keys := list_keys now prefix in
  full_items now (take limit (drop skip all_keys)).

(** [count_all_context_items] *)
Definition count_all_context_items (now : Z) (prefix : string) : CM Z :=
  let* all_keys := list_keys now prefix in
  ret (Z.of_nat (length all_keys)).

(** the test of [_notify_subscribers] for the queues registered under
    [prefix]: [key.startswith(prefix) or not prefix] *)
Definition reaches (key prefix : string) : bool :=
  PyStr.startswith key prefix || bool_decide (prefix = "").

Definition event_type_value (t : EventType) : string :=
  match t with
  | CONTEXT_CHANGE => "context_change"
  | FILE_CHANGE => "file_change"
  | SYSTEM_ALERT => "system_alert"
  | API_CALL => "api_call"
  end.

(** [subscribe_to_changes]: the events the generator yields to a
    subscriber whose queue is registered under [key_prefix] while the
    given calls of [_notify_subscribers] are made *)
Definition subscribe_to_changes (key_prefix : string) (event_types : option (list string))
    (calls : list (string * Event)) : list Event :=
  List.filter
    (fun e =>
       match event_types with
       | Some (_ :: _ as wanted) => bool_decide (event_type_value (event_type e) ∈ wanted)
       | _ => true
       end)
    (List.filter (fun '(key, _) => reaches key key_prefix) calls).*2.

(** the message of the error entry of an operation that did not succeed,
    with [fail_fast] *)
Definition failure_message (r : exn + bool) : string :=
  match r with
  | inl e => str_exn e
  | inr _ => "Operation failed and fail_fast is True"
  end.

(** the local cache [_update_cache] leaves *)
Definition cache_after_update (ttl max_size now : Z) (key : string) (v : pyval)
    (c : list (string * (pyval * Z))) : list (string * (pyval * Z)) :=
  OrderedDict.set key (v, now + ttl)
    (if max_size <=? Z.of_nat (length c)
     then foldl (fun c k => OrderedDict.del k c) c (oldest_keys max_size c)
     else c).

(** the local cache is a dictionary within its bound *)
Definition cache_ok (s : ContextManager) : Prop :=
  NoDup (OrderedDict.keys (_cache s))
  /\ Z.of_nat (length (_cache s)) <= max_cache_size s.

(** every key of the TTL index is a key of the value map *)
Definition index_within_store (s : ContextManager) : Prop :=
  forall k, is_Some (_ttl_store s !! k) -> is_Some (_context_store s !! k).

End Context.

(** ** The file manager ([app/core/file_manager.py]) *)

Module Files.
Import Py.

(** *** The [FileMetadata] model *)

(** What the attribute [updated_at] holds: a [datetime], offset-naive
    ([datetime.utcnow()], a string without an offset) or offset-aware (a
    string with an offset, a number validated as Unix time), or the
    float of [time.time()] that is given to the constructor or assigned
    to the attribute.  The instants of one kind are ordered; [<] between
    two kinds raises [TypeError].  [created_at] and [deleted_at], which
    the code never compares, are kept as instants. *)
Inductive timestamp :=
| Naive (t : Z)
| Aware (t : Z)
| Float (t : Z).

Definition instant (d : timestamp) : Z :=
  match d with Naive t | Aware t | Float t => t end.

(** [a < b] returns *)
Definition comparable (a b : timestamp) : bool :=
  match a, b with
  | Naive _, Naive _ | Aware _, Aware _ | Float _, Float _ => true
  | _, _ => false
  end.

(** the validation of a [datetime] field: a number is read as Unix time,
    in UTC *)
Definition validate_datetime (d : timestamp) : timestamp :=
  match d with
  | Float t => Aware t
  | _ => d
  end.

Record FileMetadata := {
  file_id : string;
  filename : string;
  content_type : string;
  size : Z;
  checksum : string;
  metadata : pydict;
  tags : list string;
  created_at : Z;
  updated_at : timestamp;
  version : Z;
  path : string;
  is_deleted : bool;
  deleted_at : option Z;
  created_by : option string;
  updated_by : option string
}.

(** The keyword arguments of a constructor call, and the object of a
    JSON document: [None] is a field that is not supplied. *)
Record Fields := {
  f_file_id : option string;
  f_filename : option string;
  f_content_type : option string;
  f_size : option Z;
  f_checksum : option string;
  f_metadata : option pydict;
  f_tags : option (list string);
  f_created_at : option Z;
  f_updated_at : option timestamp;
  f_version : option Z;
  f_path : option string;
  f_is_deleted : option bool;
  f_deleted_at : option Z;
  f_created_by : option string;
  f_updated_by : option string
}.

(** the fields declared with [Field(...)] that fail validation *)
Definition invalid_fields (f : Fields) : list string :=
  (if f_file_id f is None then ["file_id"] else [])
  ++ (if f_filename f is None then ["filename"] else [])
  ++ (if f_content_type f is None then ["content_type"] else [])
  ++ (match f_size f with
      | Some n => if 0 <=? n then [] else ["size"]
      | None => ["size"]
      end)
  ++ (match f_checksum f with
      | Some c => if bool_decide (c = "") then ["checksum"] else []
      | None => ["checksum"]
      end)
  ++ (if f_path f is None then ["path"] else []).

(** [validate_content_type] *)
Definition validate_content_type (v : string) : string :=
  if bool_decide (PyStr.strip v = "") then "application/octet-stream"
  else PyStr.lower v.

(** the constructor [FileMetadata] called with the keyword arguments [f];
    [now] is [datetime.utcnow()] *)
Definition new_FileMetadata (now : Z) (f : Fields) : exn + FileMetadata :=
  match invalid_fields f with
  | [] =>
      inr {| file_id := default "" (f_file_id f);
             filename := default "" (f_filename f);
             content_type := validate_content_type (default "" (f_content_type f));
             size := default 0 (f_size f);
             checksum := PyStr.lower (default "" (f_checksum f));
             metadata := default [] (f_metadata f);
             tags := default [] (f_tags f);
             created_at := default now (f_created_at f);
             updated_at := from_option validate_datetime (Naive now) (f_updated_at f);
             version := default 1 (f_version f);
             path := default "" (f_path f);
             is_deleted := default false (f_is_deleted f);
             deleted_at := f_deleted_at f;
             created_by := f_created_by f;
             updated_by := f_updated_by f |}
  | errors => inl (ValidationError errors)
  end.

(** the JSON object of a record, as [model_dump_json] lays it out *)
Definition fields_of (m : FileMetadata) : Fields :=
  {| f_file_id := Some (file_id m);
     f_filename := Some (filename m);
     f_content_type := Some (content_type m);
     f_size := Some (size m);
     f_checksum := Some (checksum m);
     f_metadata := Some (metadata m);
     f_tags := Some (tags m);
     f_created_at := Some (created_at m);
     f_updated_at := Some (updated_at m);
     f_version := Some (version m);
     f_path := Some (path m);
     f_is_deleted := Some (is_deleted m);
     f_deleted_at := deleted_at m;
     f_created_by := created_by m;
     f_updated_by := updated_by m |}.

(** *** Storage *)

(** The content of a file: the text of a JSON object, given by the
    object, or any other bytes. *)
Inductive content :=
| Blob (bytes : list Byte.byte)
| Json (doc : Fields).

(** [FileMetadata.parse_raw(content)] *)
Definition parse_raw (now : Z) (c : content) : exn + FileMetadata :=
  match c with
  | Json doc => new_FileMetadata now doc
  | Blob _ => inl (ValidationError ["__root__"])
  end.

(** The files under [storage_root], by the directories
    [_setup_directories] creates. *)
Inductive location :=
| InRoot (rel : string)                 (* [storage_root / rel] *)
| InTmp (name : string)                 (* [storage_root / "tmp" / name] *)
| InVersions (file_id name : string)    (* [storage_root / "versions" / file_id / name] *)
| InMetadata (stem : string).           (* [storage_root / "metadata" / (stem + ".json")] *)

Record FileManager := mkFM {
  max_file_size : Z;
  allowed_extensions : list string;
  context_manager : bool;                      (* a context manager is attached *)
  root_dir : gmap string content;
  tmp_dir : gmap string content;
  versions_dir : gmap string (gmap string content);
  metadata_dir : gmap string content;
  uuids_drawn : nat;
  published : list Context.Event               (* events given to [publish_event] *)
}.

Abbreviation FM := (M FileManager).

Definition with_root_dir (f : gmap string content -> gmap string content)
    (s : FileManager) : FileManager :=
  mkFM (max_file_size s) (allowed_extensions s) (context_manager s)
       (f (root_dir s)) (tmp_dir s) (versions_dir s) (metadata_dir s)
       (uuids_drawn s) (published s).
Definition with_tmp_dir (f : gmap string content -> gmap string content)
    (s : FileManager) : FileManager :=
  mkFM (max_file_size s) (allowed_extensions s) (context_manager s)
       (root_dir s) (f (tmp_dir s)) (versions_dir s) (metadata_dir s)
       (uuids_drawn s) (published s).
Definition with_versions_dir
    (f : gmap string (gmap string content) -> gmap string (gmap string content))
    (s : FileManager) : FileManager :=
  mkFM (max_file_size s) (allowed_extensions s) (context_manager s)
       (root_dir s) (tmp_dir s) (f (versions_dir s)) (metadata_dir s)
       (uuids_drawn s) (published s).
Definition with_metadata_dir (f : gmap string content -> gmap string content)
    (s : FileManager) : FileManager :=
  mkFM (max_file_size s) (allowed_extensions s) (context_manager s)
       (root_dir s) (tmp_dir s) (versions_dir s) (f (metadata_dir s))
       (uuids_drawn s) (published s).
Definition with_uuids_drawn (f : nat -> nat) (s : FileManager) : FileManager :=
  mkFM (max_file_size s) (allowed_extensions s) (context_manager s)
       (root_dir s) (tmp_dir s) (versions_dir s) (metadata_dir s)
       (f (uuids_drawn s)) (published s).
Definition with_published (f : list Context.Event -> list Context.Event)
    (s : FileManager) : FileManager :=
  mkFM (max_file_size s) (allowed_extensions s) (context_manager s)
       (root_dir s) (tmp_dir s) (versions_dir s) (metadata_dir s)
       (uuids_drawn s) (f (published s)).

Definition read (l : location) (s : FileManager) : option content :=
  match l with
  | InRoot rel => root_dir s !! rel
  | InTmp name => tmp_dir s !! name
  | InVersions id name => versions_dir s !! id ≫= (.!! name)
  | InMetadata stem => metadata_dir s !! stem
  end.

Definition write (l : location) (c : content) (s : FileManager) : FileManager :=
  match l with
  | InRoot rel => with_root_dir <[rel := c]> s
  | InTmp name => with_tmp_dir <[name := c]> s
  | InVersions id name =>
      with_versions_dir (fun d => <[id := <[name := c]> (default ∅ (d !! id))]> d) s
  | InMetadata stem => with_metadata_dir <[stem := c]> s
  end.

Definition unlink (l : location) (s : FileManager) : FileManager :=
  match l with
  | InRoot rel => with_root_dir (delete rel) s
  | InTmp name => with_tmp_dir (delete name) s
  | InVersions id name => with_versions_dir (alter (delete name) id) s
  | InMetadata stem => with_metadata_dir (delete stem) s
  end.

(** the path of a location relative to [storage_root], in POSIX form *)
Definition relative_path (l : location) : string :=
  match l with
  | InRoot rel => rel
  | InTmp name => "tmp/" +:+ name
  | InVersions id name => "versions/" +:+ id +:+ "/" +:+ name
  | InMetadata stem => "metadata/" +:+ stem +:+ ".json"
  end.

(** The primitive file operations, one step each. *)
Inductive fs_op :=
| Mkdir (dir : string)                     (* [mkdir(parents=True, exist_ok=True)] *)
| OpenW (l : location)                     (* [open(l, "w")]: create or truncate *)
| Append (l : location) (bytes : list Byte.byte)   (* [f.write(chunk)] *)
| WriteText (l : location) (c : content)   (* [f.write(text)] on the truncated file *)
| Remove (l : location)                    (* [aios.remove(l)] *)
| Rename (src dst : location).             (* [aios.rename(src, dst)] *)

Definition run_op (op : fs_op) : FM unit :=
  match op with
  | Mkdir _ => ret tt
  | OpenW l => modify (write l (Blob []))
  | Append l bytes =>
      let* c := gets (read l) in
      match c with
      | Some (Blob b) => modify (write l (Blob (b ++ bytes)))
      | _ => modify (write l (Blob bytes))
      end
  | WriteText l c => modify (write l c)
  | Remove l =>
      let* c := gets (read l) in
      match c with
      | Some _ => modify (unlink l)
      | None => raise (FileNotFoundError (relative_path l))
      end
  | Rename src dst =>
      let* c := gets (read src) in
      match c with
      | Some c => modify (fun s => write dst c (unlink src s))
      | None => raise (FileNotFoundError (relative_path src))
      end
  end.

(** *** Paths *)

(** [_get_file_path] *)
Definition _get_file_path (file_id : string) (version : option Z) : location :=
  match version with
  | Some v => InVersions file_id ("v" +:+ pretty v)
  | None => InRoot file_id
  end.

(** [_get_metadata_path]: [if version:] also sends version 0 to the
    record without a version *)
Definition _get_metadata_path (file_id : string) (version : option Z) : location :=
  match version with
  | Some v =>
      if bool_decide (v = 0) then InMetadata file_id
      else InMetadata (file_id +:+ "_v" +:+ pretty v)
  | None => InMetadata file_id
  end.

(** [_validate_extension] *)
Definition _validate_extension (allowed : list string) (filename : string) : bool :=
  match PyStr.after_last "." filename with
  | Some ext => bool_decide (PyStr.lower ext ∈ allowed)
  | None => false
  end.

#[global] Instance location_eq_dec : EqDecision location.
Proof. solve_decision. Defined.

(** [metadata_path.stem] of the metadata file with the given stem: the
    file named [".json"] has no suffix *)
Definition path_stem (stem : string) : string :=
  if bool_decide (stem = "") then ".json" else stem.

(** [max(xs, default=0)] *)
Definition max_default (xs : list Z) : Z :=
  match xs with
  | [] => 0
  | x :: xs' => foldl Z.max x xs'
  end.

(** [a or b] on optional strings *)
Definition str_or (a b : option string) : option string :=
  match a with
  | Some (String _ _) => a
  | _ => b
  end.

(** The part of a FastAPI [UploadFile] that is read: the name, the
    declared type and the results of the successive [file.read(8192)]. *)
Record UploadFile := {
  uf_filename : option string;
  uf_content_type : option string;
  uf_reads : list (list Byte.byte)
}.

(** [new_metadata.model_dump()] *)
Definition model_dump (m : FileMetadata) : pydict :=
  [("file_id", PStr (file_id m)); ("filename", PStr (filename m));
   ("content_type", PStr (content_type m)); ("size", PInt (size m));
   ("checksum", PStr (checksum m)); ("metadata", PDict (metadata m));
   ("tags", PList (PStr <$> tags m)); ("created_at", PInt (created_at m));
   ("updated_at", PInt (instant (updated_at m))); ("version", PInt (version m));
   ("path", PStr (path m)); ("is_deleted", PBool (is_deleted m));
   ("deleted_at", from_option PInt PNone (deleted_at m));
   ("created_by", from_option PStr PNone (created_by m));
   ("updated_by", from_option PStr PNone (updated_by m))].

(** Where [upload_file] stands when it leaves the steps that precede
    the construction of a record: it returns the record found by
    checksum, or it constructs a record from keyword arguments and then
    saves it and publishes the named event. *)
Inductive stage :=
| Deduplicated (existing_file : FileMetadata)
| Construct (args : Fields) (event : string) (payload : pydict).

Section Operations.
(** [hashlib.sha256(...).hexdigest()] of the bytes of a file *)
Variable sha256_hexdigest : content -> string.
(** the n-th result of [str(uuid.uuid4())] *)
Variable uuid4 : nat -> string.
(** [Path(p).as_posix()] *)
Variable as_posix : string -> string.
(** [magic.from_file(path, mime=True)] *)
Variable magic_from_file : string -> exn + string.
(** [file_path.stat()] *)
Variable st_size : content -> Z.
Variables st_ctime st_mtime : string -> Z.

Definition draw_uuid : FM string :=
  let* n := gets uuids_drawn in
  modify (with_uuids_drawn S) ;;
  ret (uuid4 n).

(** [_calculate_checksum] *)
Definition _calculate_checksum (file_path : location) : FM string :=
  let* c := gets (read file_path) in
  match c with
  | Some c => ret (sha256_hexdigest c)
  | None => raise (FileNotFoundError (relative_path file_path))
  end.

(** [_publish_event] *)
Definition _publish_event (now : Z) (event_type : string) (data : pydict) : FM unit :=
  let* attached := gets context_manager in
  if negb attached then ret tt
  else modify (with_published (fun l =>
         l ++ [{| Context.event_type := Context.FILE_CHANGE;
                  Context.source := "file_manager";
                  Context.data := ("event", PStr event_type)
                                  :: ("timestamp", PInt now) :: data |}])).

(** [_iter_metadata_files]: the stems of the [.json] files of the
    metadata directory, walked twice; the first walk keeps the paths
    whose [suffix] is [".json"], the second the names that end with
    [".json"]. *)
Definition _iter_metadata_files : FM (list string) :=
  let* dir := gets metadata_dir in
  let stems := (map_to_list dir).*1 in
  ret (List.filter (fun stem => negb (bool_decide (stem = ""))) stems ++ stems).

(** [get_file_metadata] *)
Definition get_file_metadata (now : Z) (file_id : string) (version : option Z)
    : FM FileMetadata :=
  let metadata_path := _get_metadata_path file_id version in
  let* c := gets (read metadata_path) in
  match c with
  | None => raise (FileNotFoundError ("Metadata for file " +:+ file_id +:+ " not found"))
  | Some c =>
      match parse_raw now c with
      | inl e => raise e
      | inr m => ret m
      end
  end.

(** [metadata.json] called with the given keyword arguments.  The models import
    [field_serializer], so they load under pydantic 2 only, whose
    deprecated [BaseModel.json] refuses keyword arguments meant for
    [json.dumps]. *)
Definition FileMetadata_json (dumps_kwargs : list string) (m : FileMetadata)
    : exn + content :=
  match dumps_kwargs with
  | [] => inr (Json (fields_of m))
  | _ :: _ => inl (TypeError "`dumps_kwargs` keyword arguments are no longer supported.")
  end.

(** [_save_metadata]: the file is opened for writing, which creates or
    empties it, before the argument of [f.write] is evaluated; the
    exception is logged and raised again. *)
Definition _save_metadata (m : FileMetadata) : FM unit :=
  try_except
    (run_op (Mkdir "metadata") ;;
     let metadata_path := _get_metadata_path (file_id m) (Some (version m)) in
     run_op (OpenW metadata_path) ;;
     match FileMetadata_json ["indent"] m with
     | inl e => raise e
     | inr text => run_op (WriteText metadata_path text)
     end)
    (fun e => raise e).

(** the filters of [list_files] *)
Definition matches (prefix extension : option string) (wanted : option (list string))
    (m : FileMetadata) : bool :=
  match prefix with
  | Some (String _ _ as p) =>
      PyStr.startswith (PyStr.lower (PyStr.backslash_to_slash (filename m)))
                       (PyStr.lower (PyStr.backslash_to_slash p))
  | _ => true
  end
  && match extension with
     | Some (String _ _ as e) =>
         PyStr.endswith (PyStr.lower (filename m)) ("." +:+ PyStr.lower e)
     | _ => true
     end
  && match wanted with
     | Some l => forallb (fun tag => bool_decide (tag ∈ tags m)) l
     | None => true
     end.

(** every two records of the list can be ordered by [updated_at] *)
Definition sortable (files : list FileMetadata) : bool :=
  forallb (fun a => forallb (fun b => comparable (updated_at a) (updated_at b)) files)
          files.

(** [filtered_files.sort(key=lambda x: x.updated_at, reverse=True)]: a
    sort compares across any two parts of its list, so it raises as soon
    as two of the keys cannot be compared; it is stable. *)
Definition sort_newest_first (files : list FileMetadata) : exn + list FileMetadata :=
  if sortable files
  then inr (sorted_by (fun m => - instant (updated_at m)) files)
  else inl (TypeError "can't compare offset-naive and offset-aware datetimes").

(** [list_files]: an exception of the sort is raised again as an
    [IOError] *)
Definition list_files (now : Z) (prefix extension : option string)
    (wanted : option (list string)) (skip limit : nat) : FM (list FileMetadata) :=
  try_except
    (let* paths := _iter_metadata_files in
     let* dir := gets metadata_dir in
     let all_metadata_files :=
       omap (fun stem =>
               match dir !! stem with
               | Some c =>
                   match parse_raw now c with
                   | inr m => if is_deleted m then None else Some m
                   | inl _ => None
                   end
               | None => None
               end) paths in
     let filtered_files :=
       List.filter (matches prefix extension wanted) all_metadata_files in
     match sort_newest_first filtered_files with
     | inl e => raise e
     | inr filtered_files => ret (take limit (drop skip filtered_files))
     end)
    (fun e => raise (IOError ("Failed to list files: " +:+ str_exn e))).

(** [get_file_metadata_by_path] *)
Definition get_file_metadata_by_path (now : Z) (relative_path : string)
    : FM (option FileMetadata) :=
  let* all_files := list_files now None None None 0 100 in
  ret (List.find (fun m => String.eqb (as_posix (filename m)) (as_posix relative_path))
                 all_files).

(** [_find_file_by_checksum] *)
Fixpoint find_by_checksum_loop (now : Z) (wanted : string) (paths : list string)
    : FM (option FileMetadata) :=
  match paths with
  | [] => ret None
  | metadata_path :: rest =>
      let* r := attempt (get_file_metadata now (path_stem metadata_path) None) in
      match r with
      | inr m =>
          if String.eqb (checksum m) wanted then ret (Some m)
          else find_by_checksum_loop now wanted rest
      | inl _ => find_by_checksum_loop now wanted rest
      end
  end.

Definition _find_file_by_checksum (now : Z) (wanted : string)
    : FM (option FileMetadata) :=
  let* paths := _iter_metadata_files in
  find_by_checksum_loop now wanted paths.

(** [get_file_versions]: only [ValueError] (which includes pydantic's
    [ValidationError]) is caught in the loop *)
Fixpoint versions_loop (now : Z) (file_id : string) (names : list string)
    : FM (list FileMetadata) :=
  match names with
  | [] => ret []
  | name :: rest =>
      if PyStr.endswith name ".json"
      then
        let* r :=
          attempt
            (match PyStr.int (String.substring 1 (String.length name - 6) name) with
             | None => raise (ValueError "invalid literal for int()")
             | Some v => get_file_metadata now file_id (Some v)
             end) in
        match r with
        | inr m => let* ms := versions_loop now file_id rest in ret (m :: ms)
        | inl e => if is_ValueError e then versions_loop now file_id rest else raise e
        end
      else versions_loop now file_id rest
  end.

Definition get_file_versions (now : Z) (file_id : string) : FM (list FileMetadata) :=
  let* dirs := gets versions_dir in
  match dirs !! file_id with
  | None => ret []
  | Some entries =>
      let* versions := versions_loop now file_id (map_to_list entries).*1 in
      ret (sorted_by version versions)
  end.

(** the loop of [upload_file] that copies the upload to the temporary
    file; it ends at the first empty read *)
Fixpoint save_chunks (temp_path : location) (limit : Z) (file_size : Z)
    (reads : list (list Byte.byte)) : FM Z :=
  match reads with
  | [] | [] :: _ => ret file_size
  | chunk :: rest =>
      let file_size := file_size + Z.of_nat (length chunk) in
      if limit <? file_size
      then raise (ValueError "File size exceeds maximum allowed size")
      else run_op (Append temp_path chunk) ;;
           save_chunks temp_path limit file_size rest
  end.

(** the keyword arguments of the two constructor calls of
    [upload_file] *)
Definition upload_args (now : Z) (file : UploadFile) (metadata : option pydict)
    (tags : option (list string)) (effective_filename : string) (file_size : Z)
    (checksum : string) (id : string) (version : Z) : Fields :=
  {| f_file_id := Some id;
     f_filename := Some effective_filename;
     f_content_type :=
       Some (default "application/octet-stream" (str_or (uf_content_type file) None));
     f_size := Some file_size;
     f_checksum := Some checksum;
     f_metadata := Some (Context.or_empty metadata);
     f_tags := Some (match tags with Some (_ :: _ as l) => l | _ => [] end);
     f_created_at := Some now;
     f_updated_at := Some (Float now);
     f_version := Some version;
     f_path := None;
     f_is_deleted := None;
     f_deleted_at := None;
     f_created_by := None;
     f_updated_by := None |}.

(** [upload_file] from the lookup by name to the construction of a
    record: a new version of the file of that name, or a new file *)
Definition upload_place (now : Z) (file : UploadFile) (metadata : option pydict)
    (tags : option (list string)) (overwrite : bool) (effective_filename : string)
    (file_id : string) (temp_path : location) (file_size : Z) (checksum : string)
    : FM stage :=
  let* existing_file_by_name := get_file_metadata_by_path now effective_filename in
  let args := upload_args now file metadata tags effective_filename file_size checksum in
  match existing_file_by_name, overwrite with
  | Some existing_file_by_name, false =>
      let id := Files.file_id existing_file_by_name in
      let* versions := get_file_versions now id in
      let next_version := max_default (version <$> versions) + 1 in
      let version_path := _get_file_path id (Some next_version) in
      run_op (Mkdir ("versions/" +:+ id)) ;;
      run_op (Rename temp_path version_path) ;;
      ret (Construct (args id next_version) "file_version_created"
             [("file_id", PStr id); ("filename", PStr effective_filename);
              ("version", PInt next_version); ("size", PInt file_size)])
  | _, _ =>
      let final_path := _get_file_path file_id None in
      run_op (Mkdir "") ;;
      run_op (Rename temp_path final_path) ;;
      ret (Construct (args file_id 1) "file_created"
             [("file_id", PStr file_id); ("filename", PStr effective_filename);
              ("size", PInt file_size)])
  end.

(** [upload_file], inside the [try], up to the construction of a
    record *)
Definition upload_steps (now : Z) (file : UploadFile) (metadata : option pydict)
    (tags : option (list string)) (overwrite : bool) (effective_filename : string)
    (file_id : string) (temp_path : location) : FM stage :=
  run_op (OpenW temp_path) ;;
  let* limit := gets max_file_size in
  let* file_size := save_chunks temp_path limit 0 (uf_reads file) in
  let* checksum := _calculate_checksum temp_path in
  let* existing_file := _find_file_by_checksum now checksum in
  match existing_file, overwrite with
  | Some existing_file, false =>
      run_op (Remove temp_path) ;;
      ret (Deduplicated existing_file)
  | _, _ =>
      upload_place now file metadata tags overwrite effective_filename file_id
                   temp_path file_size checksum
  end.

(** ... and from there on *)
Definition upload_finish (now : Z) (st : stage) : FM FileMetadata :=
  match st with
  | Deduplicated existing_file => ret existing_file
  | Construct args event payload =>
      match new_FileMetadata now args with
      | inl e => raise e
      | inr file_metadata =>
          _save_metadata file_metadata ;;
          _publish_event now event payload ;;
          ret file_metadata
      end
  end.

(** [upload_file] *)
Definition upload_file (now : Z) (file : UploadFile) (metadata : option pydict)
    (tags : option (list string)) (overwrite : bool) (target_filename : option string)
    : FM FileMetadata :=
  match str_or target_filename (uf_filename file) with
  | None => raise (TypeError "expected str, bytes or os.PathLike object, not NoneType")
  | Some name =>
      let effective_filename := as_posix name in
      if bool_decide (effective_filename = "")
      then raise (ValueError "No filename provided or derived")
      else
        let* allowed := gets allowed_extensions in
        if negb (_validate_extension allowed effective_filename)
        then raise (ValueError "File type not allowed")
        else
          let* file_id := draw_uuid in
          let temp_path := InTmp ("upload_" +:+ file_id) in
          try_except
            (let* st := upload_steps now file metadata tags overwrite
                                     effective_filename file_id temp_path in
             upload_finish now st)
            (fun e =>
               let* left := gets (read temp_path) in
               (if left is Some _ then run_op (Remove temp_path) else ret tt) ;;
               raise e)
  end.

(** [scan_and_register_existing_files] *)

Definition known_file_ids (now : Z) : FM (list string) :=
  let* paths := _iter_metadata_files in
  let* dir := gets metadata_dir in
  ret (remove_dups
         (omap (fun stem =>
                  match dir !! stem with
                  | Some c =>
                      match parse_raw now c with
                      | inr m => Some (file_id m)
                      | inl _ => None
                      end
                  | None => None
                  end) paths)).

(** [os.walk(storage_root)]: every file under the storage root *)
Definition walk (s : FileManager) : list location :=
  (InRoot <$> (map_to_list (root_dir s)).*1)
  ++ (InMetadata <$> (map_to_list (metadata_dir s)).*1)
  ++ (InTmp <$> (map_to_list (tmp_dir s)).*1)
  ++ mjoin ((fun '(id, entries) => InVersions id <$> (map_to_list entries).*1)
              <$> map_to_list (versions_dir s)).

Fixpoint is_known (now : Z) (relative_file_path : string) (ids : list string)
    : FM bool :=
  match ids with
  | [] => ret false
  | known_meta_id :: rest =>
      let* r := attempt (get_file_metadata now known_meta_id None) in
      match r with
      | inr known_meta =>
          if String.eqb (PyStr.lower (PyStr.backslash_to_slash (filename known_meta)))
                        (PyStr.lower relative_file_path)
          then ret true
          else is_known now relative_file_path rest
      | inl _ => is_known now relative_file_path rest
      end
  end.

(** the [try] entered for a file that is not known *)
Definition register_scanned (now : Z) (file_path : location)
    (relative_file_path : string) : FM unit :=
  let content_type :=
    match magic_from_file relative_file_path with
    | inr t => t
    | inl _ => "application/octet-stream"
    end in
  let* new_file_id := draw_uuid in
  let* checksum := _calculate_checksum file_path in
  let* c := gets (read file_path) in
  match new_FileMetadata now
          {| f_file_id := Some new_file_id;
             f_filename := Some relative_file_path;
             f_content_type := Some content_type;
             f_size := st_size <$> c;
             f_checksum := Some checksum;
             f_metadata := Some [("source", PStr "scanned_import")];
             f_tags := Some ["imported"];
             f_created_at := Some (st_ctime relative_file_path);
             f_updated_at := Some (Float (st_mtime relative_file_path));
             f_version := Some 1;
             f_path := None;
             f_is_deleted := Some false;
             f_deleted_at := None;
             f_created_by := None;
             f_updated_by := None |} with
  | inl e => raise e
  | inr new_metadata =>
      _save_metadata new_metadata ;;
      let target_file_path := _get_file_path new_file_id None in
      (if bool_decide (file_path = target_file_path) then ret tt
       else match c with
            | Some c => modify (write target_file_path c)
            | None => raise (FileNotFoundError relative_file_path)
            end) ;;
      _publish_event now "file_registered" (model_dump new_metadata)
  end.

Fixpoint scan_loop (now : Z) (known : list string) (files : list location)
    (registered_count : Z) : FM Z :=
  match files with
  | [] => ret registered_count
  | file_path :: rest =>
      let relative_file_path := relative_path file_path in
      if String.eqb (PyStr.path_suffix relative_file_path) ".meta"
      then scan_loop now known rest registered_count
      else
        let* known_file := is_known now relative_file_path known in
        if known_file then scan_loop now known rest registered_count
        else
          let* r := attempt (register_scanned now file_path relative_file_path) in
          match r with
          | inr _ => scan_loop now known rest (registered_count + 1)
          | inl _ => scan_loop now known rest registered_count
          end
  end.

Definition scan_and_register_existing_files (now : Z) : FM Z :=
  let* known := known_file_ids now in
  let* files := gets walk in
  scan_loop now known files 0.

End Operations.

(** *** Vocabulary of the properties *)

(** [frame R m]: the state [m] leaves is related by [R] to the state it
    found. *)
Definition frame {A} (R : relation FileManager) (m : FM A) : Prop :=
  forall s, R s (m s).2.

(** the same files, whatever identifiers were drawn *)
Definition same_files (s s' : FileManager) : Prop :=
  root_dir s' = root_dir s /\ tmp_dir s' = tmp_dir s
  /\ versions_dir s' = versions_dir s /\ metadata_dir s' = metadata_dir s
  /\ published s' = published s.

(** the same metadata records and the same published events *)
Definition same_records (s s' : FileManager) : Prop :=
  metadata_dir s' = metadata_dir s /\ published s' = published s.

(** a location outside the metadata directory *)
Definition off_metadata (l : location) : Prop :=
  match l with InMetadata _ => False | _ => True end.

(** the bytes [upload_file] copies: the reads before the first empty
    one *)
Fixpoint uploaded_bytes (reads : list (list Byte.byte)) : list Byte.byte :=
  match reads with
  | [] | [] :: _ => []
  | chunk :: rest => chunk ++ uploaded_bytes rest
  end.

(** a record of the metadata directory, as [get_file_metadata] reads
    it *)
Definition stored_record (now : Z) (s : FileManager) (m : FileMetadata) : Prop :=
  exists stem c,
    stem <> "" /\ metadata_dir s !! stem = Some c /\ parse_raw now c = inr m.

(** *** Stores and uploads of the examples *)

(** stand-ins for the library functions: the digest tells a two-byte
    content (["aaaa"]) from any other (["bbbb"]), identifiers are
    numbered, paths are already in POSIX form *)
Definition toy_digest (c : content) : string :=
  match c with
  | Blob [_; _] => "aaaa"
  | _ => "bbbb"
  end.
Definition numbered (n : nat) : string := "id" +:+ pretty n.

(** version 1 of [docs/report.pdf], whose content has digest ["aaaa"] *)
Definition report_v1 : FileMetadata :=
  {| file_id := "f1"; filename := "docs/report.pdf"; content_type := "application/pdf";
     size := 2; checksum := "aaaa"; metadata := []; tags := [];
     created_at := 1; updated_at := Naive 1; version := 1; path := "docs/report.pdf";
     is_deleted := false; deleted_at := None; created_by := None; updated_by := None |}.

Definition empty_store : FileManager :=
  mkFM 1000 ["pdf"; "txt"] true ∅ ∅ ∅ ∅ 0 [].

(** a store whose current record of ["f1"] is [report_v1] *)
Definition report_store : FileManager :=
  with_metadata_dir <["f1" := Json (fields_of report_v1)]> empty_store.

(** the same store with a size limit of one byte *)
Definition cramped_store : FileManager :=
  mkFM 1 ["pdf"; "txt"] true ∅ ∅ ∅ (<["f1" := Json (fields_of report_v1)]> ∅) 0 [].

(** a store with one file that has no metadata record *)
Definition unregistered_store : FileManager :=
  with_root_dir <["notes.txt" := Blob [Byte.x68; Byte.x69]]> empty_store.

Definition upload_of (bytes : list Byte.byte) : UploadFile :=
  {| uf_filename := Some "report.pdf"; uf_content_type := Some "application/pdf";
     uf_reads := [bytes] |}.

Definition toy_upload (now : Z) (file : UploadFile) (overwrite : bool)
    (target_filename : string) : FM FileMetadata :=
  upload_file toy_digest numbered id now file None None overwrite (Some target_filename).

Definition toy_scan (now : Z) : FM Z :=
  scan_and_register_existing_files toy_digest numbered
    (fun _ => inl (AttributeError "from_file")) (fun _ => 2) (fun _ => 0) (fun _ => 0) now.

(** *** Counting, deletion and housekeeping *)

(** the filters of [count_files]: the prefix is compared as given *)
Definition counted (prefix extension : option string) (wanted : option (list string))
    (m : FileMetadata) : bool :=
  match prefix with
  | Some (String _ _ as p) => PyStr.startswith (filename m) p
  | _ => true
  end
  && match extension with
     | Some (String _ _ as e) =>
         PyStr.endswith (PyStr.lower (filename m)) ("." +:+ PyStr.lower e)
     | _ => true
     end
  && match wanted with
     | Some l => forallb (fun tag => bool_decide (tag ∈ tags m)) l
     | None => true
     end.

(** [metadata.is_deleted = True; metadata.updated_at = time.time()] *)
Definition mark_deleted (now : Z) (m : FileMetadata) : FileMetadata :=
  {| file_id := file_id m; filename := filename m; content_type := content_type m;
     size := size m; checksum := checksum m; metadata := metadata m; tags := tags m;
     created_at := created_at m; updated_at := Float now; version := version m;
     path := path m; is_deleted := true; deleted_at := deleted_at m;
     created_by := created_by m; updated_by := updated_by m |}.

(** [metadata.updated_at = time.time()] *)
Definition touch (now : Z) (m : FileMetadata) : FileMetadata :=
  {| file_id := file_id m; filename := filename m; content_type := content_type m;
     size := size m; checksum := checksum m; metadata := metadata m; tags := tags m;
     created_at := created_at m; updated_at := Float now; version := version m;
     path := path m; is_deleted := is_deleted m; deleted_at := deleted_at m;
     created_by := created_by m; updated_by := updated_by m |}.

(** The dictionary [get_stats] returns, without [storage_path], the
    configured root. *)
Record Stats := {
  total_files : Z;
  total_size : Z;
  file_types : list (string * Z);
  total_versions : Z
}.

(** The body of the [try] of [get_stats] for one metadata file.  The
    counters are updated one after the other, so that an exception of
    [get_file_versions] leaves the first three updated. *)
Definition stats_step (now : Z) (stem : string) (acc : Stats) : FM Stats :=
  let* r := attempt (get_file_metadata now (path_stem stem) None) in
  match r with
  | inl _ => ret acc
  | inr metadata =>
      if is_deleted metadata then ret acc
      else
        let ext :=
          match PyStr.after_last "." (filename metadata) with
          | Some e => PyStr.lower e
          | None => "unknown"
          end in
        let type_counts := file_types acc in
        let counted_file :=
          {| total_files := total_files acc + 1;
             total_size := total_size acc + size metadata;
             file_types :=
               OrderedDict.set ext (default 0 (OrderedDict.get ext type_counts) + 1)
                               type_counts;
             total_versions := total_versions acc |} in
        let* versions := attempt (get_file_versions now (file_id metadata)) in
        match versions with
        | inr versions =>
            ret {| total_files := total_files counted_file;
                   total_size := total_size counted_file;
                   file_types := file_types counted_file;
                   total_versions :=
                     total_versions counted_file + Z.of_nat (length versions) |}
        | inl _ => ret counted_file
        end
  end.

Fixpoint stats_loop (now : Z) (paths : list string) (acc : Stats) : FM Stats :=
  match paths with
  | [] => ret acc
  | file_path :: rest =>
      let* acc := stats_step now file_path acc in
      stats_loop now rest acc
  end.

(** [get_stats] *)
Definition get_stats (now : Z) : FM Stats :=
  let* paths := _iter_metadata_files in
  stats_loop now paths
    {| total_files := 0; total_size := 0; file_types := []; total_versions := 0 |}.

Section Maintenance.
Variable sha256_hexdigest : content -> string.
Variable uuid4 : nat -> string.
Variable as_posix : string -> string.
(** [entry.stat().st_mtime] *)
Variable st_mtime : string -> Z.
(** [aios.rmtree(versions_dir)] *)
Variable aios_rmtree : string -> FM unit.
(** the exception, if any, that
    [(storage_root / file_path.parent).mkdir(parents=True, exist_ok=True)]
    raises for the base path and the name of a file of [upload_directory] *)
Variable mkdir_parent : option string -> string -> FileManager -> option exn.

(** [count_files] *)
Definition count_files (now : Z) (prefix extension : option string)
    (wanted : option (list string)) : FM Z :=
  try_except
    (let* paths := _iter_metadata_files in
     let* dir := gets metadata_dir in
     ret (foldl (fun count stem =>
                   match dir !! stem with
                   | Some c =>
                       match parse_raw now c with
                       | inr m =>
                           if negb (is_deleted m) && counted prefix extension wanted m
                           then count + 1 else count
                       | inl _ => count
                       end
                   | None => count
                   end) 0 paths))
    (fun e => raise (IOError ("Failed to count files: " +:+ str_exn e))).

(** [delete_file] *)
Definition delete_file (now : Z) (file_id : string) (permanent : bool) : FM bool :=
  try_except
    (let* metadata := get_file_metadata now file_id None in
     (if permanent then
        let file_path := _get_file_path file_id None in
        let* present := gets (read file_path) in
        (if present is Some _ then run_op (Remove file_path) else ret tt) ;;
        let* dirs := gets versions_dir in
        (if dirs !! file_id is Some _ then aios_rmtree ("versions/" +:+ file_id)
         else ret tt) ;;
        let metadata_path := _get_metadata_path file_id None in
        let* present := gets (read metadata_path) in
        (if present is Some _ then run_op (Remove metadata_path) else ret tt) ;;
        _publish_event now "file_deleted_permanently"
          [("file_id", PStr file_id); ("filename", PStr (filename metadata))]
      else
        _save_metadata (mark_deleted now metadata) ;;
        _publish_event now "file_marked_deleted"
          [("file_id", PStr file_id); ("filename", PStr (filename metadata))]) ;;
     ret true)
    (fun e => raise e).

(** [update_access_time]; the record [get_file_metadata] returns is
    always truthy *)
Definition update_access_time (now : Z) (file_id : string) : FM unit :=
  let* metadata := get_file_metadata now file_id None in
  _save_metadata (touch now metadata).

(** [download_file]: the location of the content and the record *)
Definition download_file (now : Z) (file_id : string) (version : option Z)
    : FM (location * FileMetadata) :=
  let* metadata := get_file_metadata now file_id version in
  let file_path :=
    _get_file_path file_id (if version is Some _ then Some (Files.version metadata)
                            else None) in
  let* present := gets (read file_path) in
  if present is Some _ then ret (file_path, metadata)
  else raise (FileNotFoundError ("File " +:+ file_id +:+ " not found")).

(** the [for entry in os.scandir(temp_dir)] of [cleanup_temp_files] *)
Fixpoint cleanup_loop (cutoff : Z) (names : list string) (count : Z) : FM Z :=
  match names with
  | [] => ret count
  | name :: rest =>
      if st_mtime (relative_path (InTmp name)) <? cutoff
      then
        let* r := attempt (run_op (Remove (InTmp name))) in
        match r with
        | inr _ => cleanup_loop cutoff rest (count + 1)
        | inl _ => cleanup_loop cutoff rest count
        end
      else cleanup_loop cutoff rest count
  end.

(** [cleanup_temp_files] *)
Definition cleanup_temp_files (now older_than_hours : Z) : FM Z :=
  let cutoff := now - older_than_hours * 3600 in
  let* tmp := gets tmp_dir in
  cleanup_loop cutoff (map_to_list tmp).*1 0.

(** the [for file in files] of [upload_directory]: a file without a
    name is skipped, the directory is made outside the [try], and an
    upload that raises is logged *)
Fixpoint upload_directory_loop (now : Z) (files : list UploadFile)
    (base_path : option string) (metadata : option pydict) (overwrite : bool)
    (uploaded_files : list FileMetadata) : FM (list FileMetadata) :=
  match files with
  | [] => ret uploaded_files
  | file :: rest =>
      match uf_filename file with
      | Some (String _ _ as name) =>
          let* failure := gets (mkdir_parent base_path name) in
          match failure with
          | Some e => raise e
          | None =>
              let* r := attempt (upload_file sha256_hexdigest uuid4 as_posix now file
                                             metadata None overwrite None) in
              match r with
              | inr file_metadata =>
                  upload_directory_loop now rest base_path metadata overwrite
                                        (uploaded_files ++ [file_metadata])
              | inl _ =>
                  upload_directory_loop now rest base_path metadata overwrite
                                        uploaded_files
              end
          end
      | _ => upload_directory_loop now rest base_path metadata overwrite uploaded_files
      end
  end.

(** [upload_directory] *)
Definition upload_directory (now : Z) (files : list UploadFile)
    (base_path : option string) (metadata : option pydict) (overwrite : bool)
    : FM (list FileMetadata) :=
  upload_directory_loop now files base_path metadata overwrite [].

End Maintenance.

(** *** More vocabulary *)

(** the records of the metadata directory that are not marked deleted,
    one for each file that holds one *)
Definition live_records (now : Z) (s : FileManager) : list FileMetadata :=
  omap (fun '(_, c) =>
          match parse_raw now c with
          | inr m => if is_deleted m then None else Some m
          | inl _ => None
          end)
       (map_to_list (metadata_dir s)).

(** a record as the constructor leaves it *)
Definition validated (m : FileMetadata) : Prop :=
  exists now f, new_FileMetadata now f = inr m.

(** along the list, the rank never decreases *)
Definition ordered {A} (rank : A -> Z) (l : list A) : Prop :=
  forall i j a b, (i < j)%nat -> l !! i = Some a -> l !! j = Some b -> rank a <= rank b.

(** newest first *)
Definition newest_first (files : list FileMetadata) : Prop :=
  forall i j a b, (i < j)%nat -> files !! i = Some a -> files !! j = Some b ->
                  instant (updated_at b) <= instant (updated_at a).

(** by increasing version *)
Definition by_version (files : list FileMetadata) : Prop :=
  ordered version files.

(** the sum of the sizes of a list of records *)
Definition sizes_sum (ms : list FileMetadata) : Z :=
  foldr (fun m acc => size m + acc) 0 ms.

(** version 2 of [docs/report.pdf] *)
Definition report_v2 : FileMetadata :=
  {| file_id := "f1"; filename := "docs/report.pdf"; content_type := "application/pdf";
     size := 3; checksum := "bbbb"; metadata := []; tags := [];
     created_at := 1; updated_at := Naive 2; version := 2; path := "docs/report.pdf";
     is_deleted := false; deleted_at := None; created_by := None; updated_by := None |}.

(** version 1, marked deleted *)
Definition report_v1_deleted : FileMetadata :=
  {| file_id := "f1"; filename := "docs/report.pdf"; content_type := "application/pdf";
     size := 2; checksum := "aaaa"; metadata := []; tags := [];
     created_at := 1; updated_at := Naive 1; version := 1; path := "docs/report.pdf";
     is_deleted := true; deleted_at := Some 2; created_by := None; updated_by := None |}.

(** a store that holds the records of versions 1 and 2 of ["f1"] under
    their versioned names *)
Definition versions_store : FileManager :=
  with_metadata_dir (fun d => <["f1_v1" := Json (fields_of report_v1)]>
                                (<["f1_v2" := Json (fields_of report_v2)]> d))
    empty_store.

(** the same store with, under the name without a version, the record of
    version 1 marked deleted *)
Definition superseded_store : FileManager :=
  with_metadata_dir <["f1" := Json (fields_of report_v1_deleted)]> versions_store.

(** a record whose [updated_at] carries an offset *)
Definition notes_v1 : FileMetadata :=
  {| file_id := "f2"; filename := "docs/notes.txt"; content_type := "text/plain";
     size := 5; checksum := "cccc"; metadata := []; tags := [];
     created_at := 3; updated_at := Aware 3; version := 1; path := "docs/notes.txt";
     is_deleted := false; deleted_at := None; created_by := None; updated_by := None |}.

(** a store whose two current records cannot be ordered by
    [updated_at] *)
Definition mixed_store : FileManager :=
  with_metadata_dir <["f2" := Json (fields_of notes_v1)]> report_store.

(** a store with a current record of ["f1"], its record of version 1
    and its content *)
Definition current_store : FileManager :=
  with_root_dir <["f1" := Blob [Byte.x01; Byte.x02]]>
    (with_metadata_dir (fun d => <["f1" := Json (fields_of report_v1)]>
                                   (<["f1_v1" := Json (fields_of report_v1)]> d))
       empty_store).

End Files.

(** * The Python functions on examples *)

Module PyChecks.
Import Py.

Example int_of_version_name :
  PyStr.int (String.substring 1 (String.length "v12.json" - 6) "v12.json") = Some 12.
Proof. reflexivity. Qed.

Example int_of_signed_and_spaced :
  PyStr.int " -1_0 " = Some (-10) /\ PyStr.int "1__0" = None /\ PyStr.int "" = None.
Proof. repeat split; reflexivity. Qed.

Example suffix_of_paths :
  PyStr.path_suffix "a/b.meta" = ".meta" /\ PyStr.path_suffix ".meta" = ""
  /\ PyStr.path_suffix "a.b/c" = "".
Proof. repeat split; reflexivity. Qed.

Example extension_is_checked_in_lower_case :
  Files._validate_extension ["pdf"] "docs/Report.PDF" = true
  /\ Files._validate_extension ["pdf"] "pdf" = false.
Proof. split; reflexivity. Qed.

Example sort_is_stable :
  sorted_by fst [(3, "a"); (1, "b"); (3, "c"); (1, "d")]
  = [(1, "b"); (1, "d"); (3, "a"); (3, "c")].
Proof. reflexivity. Qed.

Example metadata_path_of_version_zero :
  Files._get_metadata_path "f1" (Some 0) = Files.InMetadata "f1"
  /\ Files._get_metadata_path "f1" (Some 12) = Files.InMetadata "f1_v12".
Proof. split; reflexivity. Qed.

Example eviction_takes_the_oldest :
  Context.oldest_keys 10 [("a", (PNone, 5)); ("b", (PNone, 3)); ("c", (PNone, 3))] = ["b"].
Proof. reflexivity. Qed.

End PyChecks.

(** * Properties of the context manager *)

Module ContextProps.
Import Py Context.

Ltac run_monad :=
  unfold with_self_lock, with_self_cache_lock, async_with, try_except, attempt,
    bind, ret, raise, gets, modify; simpl.

Lemma run_update_cache now key v s :
  _cache_lock s = false ->
  exists c, _update_cache now key v s = (Returned tt, with_cache (fun _ => c) s).
Proof.
  destruct s as [ct ms ep store ttls c l cl n st]; simpl; intros ->.
  unfold _update_cache; run_monad.
  destruct (ms <=? Z.of_nat (length c)); simpl; eexists; reflexivity.
Qed.

Lemma new_ContextItem_value key v ttl md item :
  new_ContextItem key v ttl md = inr item ->
  ci_value item = v /\ ci_metadata item = md.
Proof.
  unfold new_ContextItem; intros H.
  destruct ttl as [n|]; [destruct (1 <=? n)|]; simplify_eq; done.
Qed.

(** validation fails exactly on a time to live below one second *)
Lemma new_ContextItem_invalid key v ttl md :
  (exists e, new_ContextItem key v ttl md = inl e) <-> (exists n, ttl = Some n /\ n < 1).
Proof.
  unfold new_ContextItem. split.
  - intros [e H]. destruct ttl as [n|]; [|done].
    destruct (Z.leb_spec 1 n); [done|]. eauto.
  - intros (n & -> & Hn). destruct (Z.leb_spec 1 n); [lia|]. eauto.
Qed.

Lemma run_set_context now key v ttl md notify s item :
  unlocked s ->
  new_ContextItem key v ttl (or_empty md) = inr item ->
  exists c,
    set_context now key v ttl md notify s =
    (Returned true,
     mkCM (cache_ttl s) (max_cache_size s) (enable_persistence s)
          (<[key := stored v md now]> (_context_store s))
          (index_after_set now key ttl (_ttl_store s))
          c false false
          (notified s ++ (if notify then [(key, set_event key v md)] else []))
          (storage s)).
Proof.
  intros [Hl Hc] Hitem.
  destruct (new_ContextItem_value _ _ _ _ _ Hitem) as [Hv Hm].
  destruct s as [ct ms ep store ttls c l cl n st]; simpl in *; subst l cl.
  unfold set_context. rewrite Hitem. rewrite Hv.
  unfold index_after_set.
  destruct ttl as [n0|]; [destruct (0 <? n0)|]; run_monad;
    rewrite Hm; fold (stored v md now);
    (edestruct (run_update_cache now key v) as [c' Hc'];
     [|rewrite Hc'; clear Hc']; [reflexivity|]);
    simpl; unfold _notify_subscribers; run_monad;
    destruct notify; simpl; eexists; rewrite ?app_nil_r; reflexivity.
Qed.

Lemma run_set_context_invalid now key v ttl md notify s e :
  new_ContextItem key v ttl (or_empty md) = inl e ->
  set_context now key v ttl md notify s = (Returned false, s).
Proof. intros H. unfold set_context. rewrite H. reflexivity. Qed.

Lemma run_delete_context key notify s :
  unlocked s ->
  _delete_context key notify s =
  match _context_store s !! key with
  | None => (Returned false, s)
  | Some item =>
      (Returned true,
       mkCM (cache_ttl s) (max_cache_size s) (enable_persistence s)
            (delete key (_context_store s)) (delete key (_ttl_store s))
            (OrderedDict.del key (_cache s)) false false
            (notified s ++ (if notify then [(key, delete_event key (value item))]
                            else []))
            (storage s))
  end.
Proof.
  intros [Hl Hc].
  destruct s as [ct ms ep store ttls c l cl n st]; simpl in *; subst l cl.
  unfold _delete_context; run_monad.
  destruct (store !! key) as [item|]; simpl; [|reflexivity].
  unfold _notify_subscribers, _delete_from_cache; run_monad.
  destruct notify; simpl; [reflexivity|].
  rewrite app_nil_r. reflexivity.
Qed.

(** ** Writes *)



(** ** The TTL index and the value map *)

Lemma step_keeps_consistent s c s' :
  step s c s' ->
  unlocked s ->
  (forall k, is_Some (_ttl_store s !! k) -> is_Some (_context_store s !! k)) ->
  unlocked s'
  /\ (forall k, is_Some (_ttl_store s' !! k) -> is_Some (_context_store s' !! k))
  /\ _ttl_store s' = give (_ttl_store s) c.
Proof.
  intros Hstep.
  destruct Hstep as [now key v ttl md notify t r t' Hrun|key t r t' Hrun];
    intros Hs Hdom.
  - destruct (new_ContextItem key v ttl (or_empty md)) as [e|item] eqn:Hitem.
    + rewrite (run_set_context_invalid _ _ _ _ _ _ _ _ Hitem) in Hrun.
      simplify_eq. split; [done|]. split; [done|].
      destruct (proj1 (new_ContextItem_invalid key v ttl (or_empty md)))
        as (n & -> & Hn); [eauto|].
      simpl. destruct (Z.leb_spec 1 n); [lia|done].
    + destruct (run_set_context now key v ttl md notify t item Hs Hitem) as [c Hc].
      rewrite Hc in Hrun. simplify_eq. simpl.
      split; [done|]. split.
      * intros k. destruct (decide (k = key)) as [->|Hne].
        { rewrite lookup_insert_eq. eauto. }
        rewrite lookup_insert_ne by done. intros Hk. apply Hdom.
        revert Hk. unfold index_after_set.
        destruct ttl as [n|]; [destruct (0 <? n)|];
          rewrite ?lookup_insert_ne, ?lookup_delete_ne by done; done.
      * unfold index_after_set, new_ContextItem in *.
        destruct ttl as [n|]; [|done].
        destruct (Z.leb_spec 1 n); [|done].
        destruct (Z.ltb_spec 0 n); [done|lia].
  - unfold delete_context in Hrun. rewrite run_delete_context in Hrun by done.
    simpl. destruct (_context_store t !! key) as [item|] eqn:Hkey;
      injection Hrun as <- <-; simpl.
    + split; [done|]. split; [|done].
      intros k. destruct (decide (k = key)) as [->|Hne].
      { rewrite lookup_delete_eq. by intros []. }
      rewrite !lookup_delete_ne by done. apply Hdom.
    + split; [done|]. split; [done|].
      symmetry. apply delete_id.
      destruct (_ttl_store t !! key) eqn:Httl; [|done].
      destruct (Hdom key) as [? ?]; [eauto|congruence].
Qed.

Lemma steps_keep_consistent s calls s' :
  steps s calls s' ->
  unlocked s ->
  (forall k, is_Some (_ttl_store s !! k) -> is_Some (_context_store s !! k)) ->
  (forall k, is_Some (_ttl_store s' !! k) -> is_Some (_context_store s' !! k))
  /\ _ttl_store s' = foldl give (_ttl_store s) calls.
Proof.
  induction 1 as [s|s c s' calls s'' Hstep Hsteps IH]; intros Hs Hdom.
  - done.
  - destruct (step_keeps_consistent _ _ _ Hstep Hs Hdom) as (Hs' & Hdom' & Httl).
    destruct (IH Hs' Hdom') as [Hdom'' Httl''].
    split; [done|]. simpl. by rewrite <- Httl.
Qed.



(** ** Bulk operations *)

Lemma run_bulk_dispatch now op s :
  unlocked s ->
  exists r s',
    attempt (bulk_dispatch now op) s = (Returned r, s')
    /\ unlocked s' /\ notified s' = notified s.
Proof.
  intros Hs. unfold bulk_dispatch.
  repeat case_bool_decide.
  - destruct (op_key op) as [key|]; [|by (do 2 eexists)].
    destruct (op_value op) as [v|]; [|by (do 2 eexists)].
    unfold subscript, attempt, bind, ret.
    destruct (new_ContextItem key v (op_ttl op) (or_empty (op_metadata op)))
      as [e|item] eqn:Hitem.
    + rewrite (run_set_context_invalid _ _ _ _ _ _ _ _ Hitem). by (do 2 eexists).
    + destruct (run_set_context now key v (op_ttl op) (op_metadata op) false s item
                  Hs Hitem) as [c ->].
      do 2 eexists. split; [reflexivity|]. simpl. by rewrite app_nil_r.
  - destruct (op_key op) as [key|]; [|by (do 2 eexists)].
    unfold subscript, attempt, bind, ret.
    rewrite run_delete_context by done.
    destruct (_context_store s !! key); do 2 eexists; (split; [reflexivity|]);
      simpl; by rewrite ?app_nil_r.
  - by (do 2 eexists).
Qed.

Lemma attempt_each_length now ops s :
  unlocked s -> length (attempt_each now ops s).1 = length ops.
Proof.
  revert s. induction ops as [|op ops IH]; intros s Hs; simpl; [done|].
  destruct (run_bulk_dispatch now op s Hs) as (r & s' & -> & Hs' & _).
  specialize (IH s' Hs'). destruct (attempt_each now ops s'). simpl in *. by rewrite IH.
Qed.

(** the loop, without [fail_fast], tallies the result of each operation *)
Lemma run_bulk_loop now ops results s :
  unlocked s ->
  exists s',
    attempt_each now ops s = ((attempt_each now ops s).1, s')
    /\ bulk_loop now ops false results s
       = (Returned (foldl (fun acc '(op, r) => tally acc op r) results
                          (zip ops (attempt_each now ops s).1)), s')
    /\ unlocked s' /\ notified s' = notified s.
Proof.
  revert results s. induction ops as [|op ops IH]; intros results s Hs; simpl.
  { by eexists. }
  destruct (run_bulk_dispatch now op s Hs) as (r & s1 & Hrun & Hs1 & Hn1).
  unfold bind at 1. rewrite Hrun.
  destruct (IH (tally results op r) s1 Hs1) as (s' & Heach & Hloop & Hs' & Hn').
  exists s'. rewrite Heach. simpl. split; [done|].
  split; [|split; [done|congruence]].
  rewrite <- Hloop. by destruct r as [e|[]].
Qed.

Lemma tally_counts results pairs :
  let final := foldl (fun acc '(op, r) => tally acc op r) results pairs in
  succeeded final = succeeded results + Z.of_nat (length (List.filter succeeds pairs.*2))
  /\ failed final
     = failed results + Z.of_nat (length (List.filter (fun r => negb (succeeds r)) pairs.*2))
  /\ (forall entry, entry ∈ errors results -> entry ∈ errors final)
  /\ (forall op e, (op, inl e) ∈ pairs ->
        {| err_operation := op; err_error := str_exn e |} ∈ errors final).
Proof.
  revert results. induction pairs as [|[op r] pairs IH]; intros results.
  { simpl. repeat split; [lia|lia|done|]. intros ?? H. by apply elem_of_nil in H. }
  rewrite fmap_cons. cbn [foldl snd].
  destruct (IH (tally results op r)) as (Hs & Hf & Hkeep & Hnew).
  cbv zeta. rewrite Hs, Hf. clear Hs Hf.
  set (l := pairs.*2).
  split; [|split; [|split]].
  - destruct r as [e|[]]; simpl; rewrite ?Zpos_P_of_succ_nat; lia.
  - destruct r as [e|[]]; simpl; rewrite ?Zpos_P_of_succ_nat; lia.
  - intros entry Hin. apply Hkeep.
    destruct r as [e|[]]; simpl; [apply elem_of_app; by left|done|done].
  - intros op' e' Hin. apply elem_of_cons in Hin as [Heq|Hin]; [|by apply Hnew].
    simplify_eq. apply Hkeep. simpl. apply elem_of_app. right. apply list_elem_of_singleton.
    done.
Qed.

(** C7 (as amended).  A bulk call without [fail_fast] attempts every
    operation of the sequence, in order; [succeeded] counts the operations
    that succeed and [failed] those that fail, an operation that raises
    has an error entry that names it, and the stores are left as the
    operations leave them.  No operation notifies on its own; one
    aggregate [bulk_update] event is emitted at the end when at least one
    operation succeeded, and none when no operation succeeded. *)
Theorem bulk_operation_attempts_every_operation now ops s :
  unlocked s ->
  exists results s',
    bulk_operation now ops false s = (Returned results, s')
    /\ let outcomes := (attempt_each now ops s).1 in
       length outcomes = length ops
       /\ succeeded results = Z.of_nat (length (List.filter succeeds outcomes))
       /\ failed results
          = Z.of_nat (length (List.filter (fun r => negb (succeeds r)) outcomes))
       /\ (forall op e, (op, inl e) ∈ zip ops outcomes ->
             {| err_operation := op; err_error := str_exn e |} ∈ errors results)
       /\ _context_store s' = _context_store (attempt_each now ops s).2
       /\ _ttl_store s' = _ttl_store (attempt_each now ops s).2
       /\ notified s'
          = notified s ++ (if 0 <? succeeded results then [("", bulk_event results)]
                           else []).
Proof.
  intros Hs.
  destruct (run_bulk_loop now ops {| succeeded := 0; failed := 0; errors := [] |} s Hs)
    as (s1 & Heach & Hloop & Hs1 & Hn1).
  pose proof (attempt_each_length now ops s Hs) as Hlen.
  set (outcomes := (attempt_each now ops s).1) in *.
  set (results := foldl _ _ _) in Hloop.
  destruct (tally_counts {| succeeded := 0; failed := 0; errors := [] |} (zip ops outcomes))
    as (Hsucc & Hfail & _ & Herr).
  fold results in Hsucc, Hfail, Herr.
  rewrite snd_zip in Hsucc, Hfail by lia. simpl in Hsucc, Hfail.
  rewrite Heach. cbn [snd]. clearbody results outcomes.
  unfold bulk_operation. unfold bind at 1. rewrite Hloop. cbv beta iota.
  destruct (0 <? succeeded results) eqn:Hpos.
  - eexists results, _. split.
    { unfold _notify_subscribers, bind, modify, ret. reflexivity. }
    cbv zeta. rewrite Hpos. repeat split; try done. simpl. by rewrite Hn1.
  - eexists results, _. split.
    { unfold bind, ret. reflexivity. }
    cbv zeta. rewrite Hpos. repeat split; try done. by rewrite app_nil_r.
Qed.

(** the example of the end-to-end test *)
Lemma bulk_operation_attempts_every_operation_witness :
  unlocked fresh
  /\ exists results s',
      bulk_operation 0 [set_op "k1" (PInt 1); set_op "k2" (PInt 2); delete_op "k3"]
                     false fresh = (Returned results, s')
      /\ succeeded results = 2 /\ failed results = 1
      /\ notified s' = [("", bulk_event results)].
Proof.
  assert (Hfresh : unlocked fresh) by (split; reflexivity).
  split; [exact Hfresh|].
  destruct (bulk_operation_attempts_every_operation 0
              [set_op "k1" (PInt 1); set_op "k2" (PInt 2); delete_op "k3"] fresh Hfresh)
    as (results & s' & Hrun & _ & Hsucc & Hfail & _ & _ & _ & Hn).
  exists results, s'. split; [exact Hrun|].
  assert (Hsucc2 : succeeded results = 2) by (rewrite Hsucc; vm_compute; reflexivity).
  assert (Hfail1 : failed results = 1) by (rewrite Hfail; vm_compute; reflexivity).
  split; [exact Hsucc2|]. split; [exact Hfail1|].
  rewrite Hsucc2 in Hn. exact Hn.
Defined.

(** C7, as stated, fails: a bulk call in which no operation succeeds
    emits no event at all. *)
Lemma bulk_operation_without_success_is_silent :
  (bulk_operation 0 [delete_op "k3"] false fresh).1
  = Returned {| succeeded := 0; failed := 1; errors := [] |}
  /\ ~ (exists ev,
          notified (bulk_operation 0 [delete_op "k3"] false fresh).2
          = notified fresh ++ [ev]).
Proof.
  split; [vm_compute; reflexivity|].
  intros [ev Hev]. vm_compute in Hev. discriminate Hev.
Qed.

(** ** Reads of an expired entry *)

(** [list_keys] leaves out every key whose expiry has passed, and changes
    nothing. *)
Lemma list_keys_leaves_expired_out now prefix s key expiry :
  unlocked s ->
  _ttl_store s !! key = Some expiry ->
  expiry < now ->
  exists keys, list_keys now prefix s = (Returned keys, s) /\ key ∉ keys.
Proof.
  intros [Hl Hc] Hkey Hpast.
  destruct s as [ct ms ep store ttls c l cl n st]; simpl in *; subst l cl.
  eexists. split; [reflexivity|].
  rewrite list_elem_of_In, filter_In. intros [_ Hkeep].
  apply andb_true_iff in Hkeep as [_ Hkeep]. simpl in Hkeep. rewrite Hkey in Hkeep.
  apply Z.leb_le in Hkeep. lia.
Qed.

(** C3, evaluated where the code departs from it.  The key ["k"] was set
    at instant 0 to live one second and is read at instant 2, before any
    sweep.  The method [get_context] of the class is its second
    definition, which takes no key: the call with a key raises.  The
    first definition returns the value from the cache when the cache is
    used, and without the cache it waits for the lock it already holds
    when it cleans the expired key up.  [list_keys] leaves the key out. *)
Theorem expired_entry_is_still_read :
  _ttl_store one_second !! "k" = Some 1
  /\ (get_context [PStr "k"] one_second).1
     = Raised (TypeError "get_context() takes 1 positional argument")
  /\ (get_context_keyed 2 "k" true one_second).1 = Returned (PStr "v")
  /\ (get_context_keyed 2 "k" false one_second).1 = Blocked
  /\ (list_keys 2 "" one_second).1 = Returned [].
Proof. repeat split; vm_compute; reflexivity. Qed.

(** ** Persistence *)

Section PersistenceProps.
Variable orjson_dumps : Snapshot -> exn + list Byte.byte.
Variable orjson_loads : list Byte.byte -> exn + SnapshotDoc.


End PersistenceProps.


End ContextProps.

(** * Properties of the file manager *)

Module FilesProps.
Import Py Files.

(** ** Frames *)

Section Frames.
Context (R : relation FileManager) `{!PreOrder R}.

Lemma frame_ret {A} (a : A) : frame R (ret a).
Proof. intros s. reflexivity. Qed.

Lemma frame_raise {A} e : frame R (@raise _ A e).
Proof. intros s. reflexivity. Qed.

Lemma frame_gets {A} (f : FileManager -> A) : frame R (gets f).
Proof. intros s. reflexivity. Qed.

Lemma frame_bind {A B} (m : FM A) (k : A -> FM B) :
  frame R m -> (forall a, frame R (k a)) -> frame R (bind m k).
Proof.
  intros Hm Hk s. unfold bind. specialize (Hm s).
  destruct (m s) as [[a|e|] s']; simpl in *; [|done|done].
  etrans; [exact Hm|apply Hk].
Qed.

Lemma frame_try_except {A} (m : FM A) (h : exn -> FM A) :
  frame R m -> (forall e, frame R (h e)) -> frame R (try_except m h).
Proof.
  intros Hm Hh s. unfold try_except. specialize (Hm s).
  destruct (m s) as [[a|e|] s']; simpl in *; [done| |done].
  etrans; [exact Hm|apply Hh].
Qed.

Lemma frame_attempt {A} (m : FM A) : frame R m -> frame R (attempt m).
Proof.
  intros Hm s. unfold attempt. specialize (Hm s).
  by destruct (m s) as [[a|e|] s'].
Qed.

End Frames.

#[local] Instance same_files_preorder : PreOrder same_files.
Proof.
  split.
  - by intros s.
  - intros s1 s2 s3 (?&?&?&?&?) (?&?&?&?&?). unfold same_files.
    repeat split; congruence.
Qed.

#[local] Instance same_records_preorder : PreOrder same_records.
Proof.
  split.
  - by intros s.
  - intros s1 s2 s3 [??] [??]. unfold same_records. split; congruence.
Qed.

Ltac frame_go :=
  repeat first
    [ apply frame_ret; tc_solve
    | apply frame_raise; tc_solve
    | apply frame_gets; tc_solve
    | apply frame_bind; [tc_solve| |intros ?]
    | apply frame_try_except; [tc_solve| |intros ?]
    | apply frame_attempt
    | progress cbv zeta
    | match goal with
      | |- frame _ (match ?x with _ => _ end) => destruct x
      end ].

Ltac fm_simpl :=
  unfold write, unlink, with_root_dir, with_tmp_dir, with_versions_dir,
    with_metadata_dir, with_uuids_drawn, with_published in *;
  simpl in *.

(** ** The model never validates without [path] *)

Lemma new_FileMetadata_without_path now f :
  f_path f = None ->
  exists fields,
    new_FileMetadata now f = inl (ValidationError fields) /\ "path" ∈ fields.
Proof.
  intros Hpath. unfold new_FileMetadata.
  assert (Hin : "path" ∈ invalid_fields f).
  { unfold invalid_fields. rewrite Hpath. set_solver. }
  destruct (invalid_fields f) as [|x l]; [by apply elem_of_nil in Hin|].
  eauto.
Qed.

Section OperationsProps.
Variable sha256_hexdigest : content -> string.
Variable uuid4 : nat -> string.
Variable as_posix : string -> string.
Variable magic_from_file : string -> exn + string.
Variable st_size : content -> Z.
Variables st_ctime st_mtime : string -> Z.

(** ** Reads *)

Lemma run_get_file_metadata now id v s :
  get_file_metadata now id v s
  = (match read (_get_metadata_path id v) s with
     | None => Raised (FileNotFoundError ("Metadata for file " +:+ id +:+ " not found"))
     | Some c =>
         match parse_raw now c with
         | inl e => Raised e
         | inr m => Returned m
         end
     end, s).
Proof.
  unfold get_file_metadata, bind, gets.
  destruct (read _ s) as [c|]; [|done].
  by destruct (parse_raw now c).
Qed.

Lemma run_is_known now rel ids s :
  exists b, is_known now rel ids s = (Returned b, s).
Proof.
  induction ids as [|id ids [b IH]]; simpl; [by eexists|].
  unfold bind, attempt. rewrite run_get_file_metadata.
  destruct (read _ s) as [c|]; [destruct (parse_raw now c) as [e|m]|]; simpl; eauto.
  destruct (String.eqb _ _); eauto.
Qed.

(** ** Scanning *)

Lemma run_register_scanned now file_path rel s :
  exists e s',
    register_scanned sha256_hexdigest uuid4 magic_from_file st_size st_ctime st_mtime
                     now file_path rel s = (Raised e, s')
    /\ same_files s s'.
Proof.
  unfold register_scanned, draw_uuid, _calculate_checksum, bind, gets, modify, ret, raise.
  simpl.
  destruct (read file_path (with_uuids_drawn S s)) as [c|] eqn:Hread.
  - match goal with
    | |- context [new_FileMetadata now ?f] =>
        destruct (new_FileMetadata_without_path now f eq_refl) as (fields & -> & _)
    end.
    do 2 eexists. split; [reflexivity|]. by destruct s.
  - do 2 eexists. split; [reflexivity|]. by destruct s.
Qed.

Lemma run_scan_loop now known files count s :
  exists s',
    scan_loop sha256_hexdigest uuid4 magic_from_file st_size st_ctime st_mtime
              now known files count s = (Returned count, s')
    /\ same_files s s'.
Proof.
  revert s. induction files as [|file_path files IH]; intros s; simpl.
  { eexists. split; [reflexivity|]. reflexivity. }
  destruct (String.eqb _ ".meta"); [apply IH|].
  unfold bind at 1.
  destruct (run_is_known now (relative_path file_path) known s) as [b ->].
  destruct b; [apply IH|].
  unfold bind, attempt.
  destruct (run_register_scanned now file_path (relative_path file_path) s)
    as (e & s1 & -> & Hs1).
  destruct (IH s1) as (s' & -> & Hs').
  eexists. split; [reflexivity|]. by etrans.
Qed.

Lemma run_scan now s :
  exists s',
    scan_and_register_existing_files sha256_hexdigest uuid4 magic_from_file
      st_size st_ctime st_mtime now s = (Returned 0, s')
    /\ same_files s s'.
Proof.
  unfold scan_and_register_existing_files, known_file_ids, _iter_metadata_files,
    bind, gets, ret.
  apply run_scan_loop.
Qed.

(** ** Lookup by checksum *)

Lemma path_stem_nonempty stem : path_stem stem <> "".
Proof. unfold path_stem. by case_bool_decide. Qed.

Lemma run_find_by_checksum_loop now wanted paths s :
  exists r,
    find_by_checksum_loop now wanted paths s = (Returned r, s)
    /\ match r with
       | Some m => checksum m = wanted /\ stored_record now s m
       | None =>
           forall stem c m,
             stem ∈ paths -> metadata_dir s !! path_stem stem = Some c ->
             parse_raw now c = inr m -> checksum m <> wanted
       end.
Proof.
  induction paths as [|p paths (r & IH & Hr)]; simpl.
  { exists None. split; [done|]. intros ??? H. by apply elem_of_nil in H. }
  unfold bind, attempt. rewrite run_get_file_metadata. simpl.
  assert (Hrest : forall stem c m,
             metadata_dir s !! path_stem p = None
             \/ (exists c', metadata_dir s !! path_stem p = Some c'
                   /\ forall m', parse_raw now c' = inr m' -> checksum m' <> wanted) ->
             r = None ->
             stem ∈ p :: paths -> metadata_dir s !! path_stem stem = Some c ->
             parse_raw now c = inr m -> checksum m <> wanted).
  { intros stem c m Hp -> Hin Hc Hm. apply elem_of_cons in Hin as [->|Hin].
    - destruct Hp as [Hp|(c' & Hp & Hne)]; [congruence|].
      rewrite Hp in Hc. simplify_eq. by apply Hne.
    - by eapply Hr. }
  destruct (metadata_dir s !! path_stem p) as [c|] eqn:Hc; simpl.
  - destruct (parse_raw now c) as [e|m] eqn:Hm; simpl.
    + exists r. split; [done|]. destruct r; [done|].
      intros stem c0 m0. apply Hrest; [|done]. right. exists c. split; [done|].
      intros m' ?. congruence.
    + destruct (String.eqb_spec (checksum m) wanted) as [Heq|Hne].
      * exists (Some m). split; [done|]. split; [done|].
        exists (path_stem p), c. split; [apply path_stem_nonempty|done].
      * exists r. split; [done|]. destruct r; [done|].
        intros stem c0 m0. apply Hrest; [|done]. right. exists c. split; [done|].
        intros m' ?. congruence.
  - exists r. split; [done|]. destruct r; [done|].
    intros stem c0 m0. apply Hrest; [|done]. by left.
Qed.

(** [_find_file_by_checksum] changes nothing, answers with a stored
    record of the wanted checksum, and finds one whenever one is
    stored. *)
Lemma run_find_file_by_checksum now wanted s :
  exists r,
    _find_file_by_checksum now wanted s = (Returned r, s)
    /\ match r with
       | Some m => checksum m = wanted /\ stored_record now s m
       | None => forall m, stored_record now s m -> checksum m <> wanted
       end.
Proof.
  unfold _find_file_by_checksum, _iter_metadata_files, bind, gets, ret.
  set (paths := _ ++ _).
  destruct (run_find_by_checksum_loop now wanted paths s) as (r & Hrun & Hr).
  exists r. split; [done|]. destruct r as [m|]; [done|].
  intros m (stem & c & Hstem & Hc & Hm).
  eapply (Hr stem c m); [|by unfold path_stem; rewrite bool_decide_eq_false_2|done].
  subst paths. apply elem_of_app. right.
  apply list_elem_of_fmap. exists (stem, c). split; [done|].
  by apply elem_of_map_to_list.
Qed.

(** ** Uploads *)

Lemma run_save_chunks name limit reads : forall size b s,
  tmp_dir s !! name = Some (Blob b) ->
  size + Z.of_nat (length (uploaded_bytes reads)) <= limit ->
  save_chunks (InTmp name) limit size reads s
  = (Returned (size + Z.of_nat (length (uploaded_bytes reads))),
     with_tmp_dir <[name := Blob (b ++ uploaded_bytes reads)]> s).
Proof.
  assert (Hstop : forall size b s,
             tmp_dir s !! name = Some (Blob b) ->
             (Returned size, s)
             = (Returned (size + Z.of_nat (length (@nil Byte.byte))),
                with_tmp_dir <[name := Blob (b ++ [])]> s)).
  { intros size b s Hb. simpl. rewrite Z.add_0_r, app_nil_r. f_equal.
    destruct s; fm_simpl. by rewrite insert_id. }
  induction reads as [|chunk rest IH]; intros size b s Hb Hfit.
  { by apply Hstop. }
  destruct chunk as [|x chunk]; [by apply Hstop|].
  cbn [save_chunks uploaded_bytes] in *.
  rewrite length_app, Nat2Z.inj_add in Hfit.
  destruct (Z.ltb_spec limit (size + Z.of_nat (length (x :: chunk)))); [lia|].
  unfold bind at 1. unfold run_op, bind, gets, modify. cbn [read]. rewrite Hb.
  rewrite (IH _ (b ++ x :: chunk)).
  - f_equal; [f_equal; rewrite length_app; lia|].
    destruct s; fm_simpl. by rewrite insert_insert_eq, <- app_assoc.
  - destruct s; fm_simpl. apply lookup_insert_eq.
  - lia.
Qed.

(** C2 (as amended).  An upload with [overwrite=False] that passes the
    checks of its name and size, and whose content has the checksum of a
    stored record, returns a stored record of that checksum and raises
    nothing; it leaves the store as it was but for the identifier it
    drew: the temporary file is gone, and no file, version, metadata
    record or event was added. *)
Theorem upload_of_known_content_returns_existing
    now file md tags target s name existing :
  str_or target (uf_filename file) = Some name ->
  as_posix name <> "" ->
  _validate_extension (allowed_extensions s) (as_posix name) = true ->
  Z.of_nat (length (uploaded_bytes (uf_reads file))) <= max_file_size s ->
  stored_record now s existing ->
  checksum existing = sha256_hexdigest (Blob (uploaded_bytes (uf_reads file))) ->
  exists m,
    upload_file sha256_hexdigest uuid4 as_posix now file md tags false target s
    = (Returned m,
       with_tmp_dir (delete ("upload_" +:+ uuid4 (uuids_drawn s))) (with_uuids_drawn S s))
    /\ checksum m = sha256_hexdigest (Blob (uploaded_bytes (uf_reads file)))
    /\ stored_record now s m.
Proof.
  intros Hname Hposix Hext Hfit Hstored Hsum.
  unfold upload_file. rewrite Hname. rewrite bool_decide_eq_false_2 by done.
  unfold bind at 1. unfold gets at 1. rewrite Hext. cbn [negb].
  unfold bind at 1. unfold draw_uuid, bind, gets, modify, ret. cbn [fst snd].
  set (s0 := with_uuids_drawn S s).
  set (t := "upload_" +:+ uuid4 (uuids_drawn s)).
  unfold try_except, upload_steps.
  unfold bind at 1. cbn [run_op]. unfold modify at 1.
  unfold bind at 1. unfold gets at 1.
  unfold bind at 1.
  rewrite (run_save_chunks t _ _ 0 []); cycle 1.
  { destruct s; fm_simpl. apply lookup_insert_eq. }
  { destruct s; fm_simpl. lia. }
  set (s2 := with_tmp_dir _ _).
  unfold bind at 1. unfold _calculate_checksum, bind, gets.
  assert (Hread : read (InTmp t) s2 = Some (Blob (uploaded_bytes (uf_reads file)))).
  { subst s2 s0. destruct s; fm_simpl. by rewrite lookup_insert_eq. }
  rewrite Hread. unfold ret at 1.
  destruct (run_find_file_by_checksum now
              (sha256_hexdigest (Blob (uploaded_bytes (uf_reads file)))) s2)
    as (r & -> & Hr).
  assert (Hsame : forall m, stored_record now s2 m <-> stored_record now s m).
  { intros m. unfold stored_record. subst s2 s0. destruct s; by fm_simpl. }
  destruct r as [m|]; cycle 1.
  { exfalso. eapply Hr; [by apply Hsame|done]. }
  destruct Hr as [Hm Hin].
  exists m. split; [|split; [done|by apply Hsame]].
  unfold run_op, bind, gets, modify, ret. rewrite Hread. cbn.
  f_equal. subst s2 s0. destruct s; fm_simpl.
  by rewrite !delete_insert_eq.
Qed.

(** *** What an upload leaves of the metadata *)

Lemma write_same_records l c s : off_metadata l -> same_records s (write l c s).
Proof. by destruct l, s. Qed.

Lemma unlink_same_records l s : off_metadata l -> same_records s (unlink l s).
Proof. by destruct l, s. Qed.

Lemma frame_OpenW l : off_metadata l -> frame same_records (run_op (OpenW l)).
Proof. intros Hl s. by apply write_same_records. Qed.

Lemma frame_Append l bytes :
  off_metadata l -> frame same_records (run_op (Append l bytes)).
Proof.
  intros Hl s. unfold run_op, bind, gets, modify.
  destruct (read l s) as [[b|doc]|]; by apply write_same_records.
Qed.

Lemma frame_Remove l : off_metadata l -> frame same_records (run_op (Remove l)).
Proof.
  intros Hl s. unfold run_op, bind, gets, modify, raise.
  destruct (read l s); [by apply unlink_same_records|done].
Qed.

Lemma frame_Rename src dst :
  off_metadata src -> off_metadata dst -> frame same_records (run_op (Rename src dst)).
Proof.
  intros Hsrc Hdst s. unfold run_op, bind, gets, modify, raise.
  destruct (read src s); [|done]. simpl.
  etrans; [by apply (unlink_same_records src)|by apply write_same_records].
Qed.

Lemma frame_save_chunks l limit reads size :
  off_metadata l -> frame same_records (save_chunks l limit size reads).
Proof.
  intros Hl. revert size. induction reads as [|chunk rest IH]; intros size.
  { apply frame_ret; tc_solve. }
  destruct chunk as [|x chunk]; [apply frame_ret; tc_solve|].
  cbn [save_chunks]. destruct (_ <? _); [apply frame_raise; tc_solve|].
  apply frame_bind; [tc_solve|by apply frame_Append|intros _; apply IH].
Qed.

Lemma frame_get_file_metadata R `{!PreOrder R} now id v :
  frame R (get_file_metadata now id v).
Proof. unfold get_file_metadata. frame_go. Qed.

Lemma frame_find_file_by_checksum R `{!PreOrder R} now wanted :
  frame R (_find_file_by_checksum now wanted).
Proof.
  unfold _find_file_by_checksum, _iter_metadata_files. frame_go.
  induction a as [|p paths IH]; simpl; frame_go; done.
Qed.

Lemma frame_get_file_metadata_by_path R `{!PreOrder R} now relative :
  frame R (get_file_metadata_by_path as_posix now relative).
Proof.
  unfold get_file_metadata_by_path, list_files, _iter_metadata_files. frame_go.
Qed.

Lemma frame_get_file_versions R `{!PreOrder R} now id :
  frame R (get_file_versions now id).
Proof.
  unfold get_file_versions. frame_go.
  induction (map_to_list g).*1 as [|name names IH]; simpl; frame_go; done.
Qed.

Lemma frame_upload_steps now file md tags overwrite effective id name :
  frame same_records
    (upload_steps sha256_hexdigest as_posix now file md tags overwrite effective id
                  (InTmp name)).
Proof.
  unfold upload_steps, _calculate_checksum.
  apply frame_bind; [tc_solve|by apply frame_OpenW|intros _].
  apply frame_bind; [tc_solve|apply frame_gets; tc_solve|intros limit].
  apply frame_bind; [tc_solve|by apply frame_save_chunks|intros size].
  apply frame_bind; [tc_solve|frame_go|intros sum].
  apply frame_bind; [tc_solve|apply (frame_find_file_by_checksum same_records)|intros existing].
  assert (Hnew : frame same_records
            (upload_place as_posix now file md tags overwrite effective id (InTmp name)
                          size sum)).
  { unfold upload_place.
    apply frame_bind; [tc_solve|apply (frame_get_file_metadata_by_path same_records)|intros by_name].
    destruct by_name as [by_name|], overwrite.
    - apply frame_bind; [tc_solve|done|intros _].
      apply frame_bind; [tc_solve|by apply frame_Rename|intros _]. apply frame_ret; tc_solve.
    - apply frame_bind; [tc_solve|apply (frame_get_file_versions same_records)|intros versions].
      apply frame_bind; [tc_solve|done|intros _].
      apply frame_bind; [tc_solve|by apply frame_Rename|intros _]. apply frame_ret; tc_solve.
    - apply frame_bind; [tc_solve|done|intros _].
      apply frame_bind; [tc_solve|by apply frame_Rename|intros _]. apply frame_ret; tc_solve.
    - apply frame_bind; [tc_solve|done|intros _].
      apply frame_bind; [tc_solve|by apply frame_Rename|intros _]. apply frame_ret; tc_solve. }
  destruct existing as [existing|], overwrite; try exact Hnew.
  apply frame_bind; [tc_solve|by apply frame_Remove|intros _]. apply frame_ret; tc_solve.
Qed.

Lemma upload_steps_construct now file md tags overwrite effective id temp s args ev pl s' :
  upload_steps sha256_hexdigest as_posix now file md tags overwrite effective id temp s
  = (Returned (Construct args ev pl), s') ->
  f_path args = None.
Proof.
  unfold upload_steps, upload_place, bind, ret. intros H.
  repeat case_match; simplify_eq; reflexivity.
Qed.

(** C6 (as amended).  Neither [upload_file] nor
    [scan_and_register_existing_files] gives [path] to the constructor of
    [FileMetadata], which requires it.  An upload that reaches the
    construction of a record raises the validation error, which names
    [path], and has written no metadata record and published no event.
    A scan catches the error for each file it tries to register: it
    raises nothing, returns the count 0 and leaves every file as it
    was. *)
Theorem record_construction_fails_for_want_of_path
    now file md tags overwrite target s name args ev pl s1 :
  str_or target (uf_filename file) = Some name ->
  as_posix name <> "" ->
  _validate_extension (allowed_extensions s) (as_posix name) = true ->
  upload_steps sha256_hexdigest as_posix now file md tags overwrite (as_posix name)
               (uuid4 (uuids_drawn s)) (InTmp ("upload_" +:+ uuid4 (uuids_drawn s)))
               (with_uuids_drawn S s)
  = (Returned (Construct args ev pl), s1) ->
  (exists fields s',
      upload_file sha256_hexdigest uuid4 as_posix now file md tags overwrite target s
      = (Raised (ValidationError fields), s')
      /\ "path" ∈ fields /\ same_records s s')
  /\ (forall t, exists t',
        scan_and_register_existing_files sha256_hexdigest uuid4 magic_from_file
          st_size st_ctime st_mtime now t = (Returned 0, t')
        /\ same_files t t').
Proof.
  intros Hname Hposix Hext Hsteps. split; [|intros t; apply run_scan].
  destruct (new_FileMetadata_without_path now args
              (upload_steps_construct _ _ _ _ _ _ _ _ _ _ _ _ _ Hsteps))
    as (fields & Hnew & Hin).
  assert (Hs1 : same_records s s1).
  { pose proof (frame_upload_steps now file md tags overwrite (as_posix name)
                  (uuid4 (uuids_drawn s)) ("upload_" +:+ uuid4 (uuids_drawn s))
                  (with_uuids_drawn S s)) as Hframe.
    rewrite Hsteps in Hframe. simpl in Hframe.
    etrans; [|exact Hframe]. by destruct s. }
  unfold upload_file. rewrite Hname. rewrite bool_decide_eq_false_2 by done.
  unfold bind at 1. unfold gets at 1. rewrite Hext. cbn [negb].
  unfold bind at 1. unfold draw_uuid, bind, gets, modify, ret. cbn [fst snd].
  unfold try_except. rewrite Hsteps. cbn [upload_finish]. rewrite Hnew. unfold raise.
  destruct (read (InTmp ("upload_" +:+ uuid4 (uuids_drawn s))) s1) eqn:Hleft.
  - unfold run_op, bind, gets, modify, raise. rewrite Hleft.
    do 2 eexists. split; [reflexivity|]. split; [done|].
    etrans; [exact Hs1|]. by apply unlink_same_records.
  - do 2 eexists. split; [reflexivity|]. done.
Qed.

(** ** Writes of a metadata record *)

(** C5, evaluated where the code departs from it, which is at every
    record and every store.  [_save_metadata] uses no temporary location
    and no rename: it opens the final location of the record for
    writing, which creates or empties it, and then raises the
    [TypeError] of [metadata.json(indent=2)] before anything is written.
    The location is left holding an empty document, whatever it held
    before, and the next read of the record ends with a validation
    error. *)
Theorem save_metadata_empties_the_record now m s :
  let final := _get_metadata_path (file_id m) (Some (version m)) in
  let saved := _save_metadata m s in
  saved.1 = Raised (TypeError "`dumps_kwargs` keyword arguments are no longer supported.")
  /\ read final saved.2 = Some (Blob [])
  /\ tmp_dir saved.2 = tmp_dir s
  /\ get_file_metadata now (file_id m) (Some (version m)) saved.2
     = (Raised (ValidationError ["__root__"]), saved.2).
Proof.
  intros final saved.
  assert (Hfinal : exists stem, final = InMetadata stem).
  { subst final. unfold _get_metadata_path. case_bool_decide; eauto. }
  destruct Hfinal as [stem Hfinal].
  assert (Hsaved : saved
                   = (Raised (TypeError
                                "`dumps_kwargs` keyword arguments are no longer supported."),
                      write final (Blob []) s)).
  { subst saved. unfold _save_metadata. fold final.
    unfold try_except, bind, run_op, modify, ret, raise. reflexivity. }
  rewrite Hsaved. cbn [fst snd].
  assert (Hread : read final (write final (Blob []) s) = Some (Blob [])).
  { rewrite Hfinal. destruct s; fm_simpl. by rewrite lookup_insert_eq. }
  split; [done|]. split; [done|]. split.
  { rewrite Hfinal. by destruct s. }
  rewrite run_get_file_metadata. fold final. by rewrite Hread.
Qed.

End OperationsProps.

(** ** The claims on given stores *)

Lemma upload_of_known_content_returns_existing_witness :
  exists m,
    toy_upload 5 (upload_of [Byte.x01; Byte.x02]) false "other/copy.pdf" report_store
    = (Returned m, with_tmp_dir (delete "upload_id0") (with_uuids_drawn S report_store))
    /\ checksum m = "aaaa"
    /\ stored_record 5 report_store m.
Proof.
  apply (upload_of_known_content_returns_existing toy_digest numbered id 5
           (upload_of [Byte.x01; Byte.x02]) None None (Some "other/copy.pdf")
           report_store "other/copy.pdf" report_v1).
  - reflexivity.
  - discriminate.
  - vm_compute. reflexivity.
  - vm_compute. discriminate.
  - exists "f1", (Json (fields_of report_v1)).
    split; [discriminate|]. split; vm_compute; reflexivity.
  - reflexivity.
Defined.

(** C2, as stated, fails.  With [overwrite=True] the content of a stored
    record is not answered with that record: the upload goes on to a new
    file, keeps the temporary file as the content of the new identity
    ["id0"], and ends with an error.  With [overwrite=False] the same
    content is refused before its checksum is looked up when the name
    has an extension that is not allowed or the content exceeds the size
    limit. *)
Lemma overwrite_bypasses_deduplication :
  toy_digest (Blob [Byte.x01; Byte.x02]) = checksum report_v1
  /\ stored_record 5 report_store report_v1
  /\ (toy_upload 5 (upload_of [Byte.x01; Byte.x02]) true "other/copy.pdf" report_store).1
     = Raised (ValidationError ["path"])
  /\ root_dir (toy_upload 5 (upload_of [Byte.x01; Byte.x02]) true "other/copy.pdf"
                          report_store).2 !! "id0"
     = Some (Blob [Byte.x01; Byte.x02])
  /\ (toy_upload 5 (upload_of [Byte.x01; Byte.x02]) false "other/copy.exe" report_store).1
     = Raised (ValueError "File type not allowed")
  /\ (toy_upload 5 (upload_of [Byte.x01; Byte.x02]) false "other/copy.pdf" cramped_store).1
     = Raised (ValueError "File size exceeds maximum allowed size").
Proof.
  split; [reflexivity|]. split.
  { exists "f1", (Json (fields_of report_v1)).
    split; [discriminate|]. split; vm_compute; reflexivity. }
  repeat split; vm_compute; reflexivity.
Qed.

(** C1, evaluated where the code departs from it.  [docs/report.pdf] is
    stored as version 1 of ["f1"], and content of another checksum is
    uploaded to the same path.  With [overwrite=False] the upload does
    not signal a conflict: it moves the content into the version slot
    [v1] of ["f1"], the number the stored record already has, and then
    fails on the construction of the record.  With [overwrite=True] it
    makes no version of ["f1"]: it moves the content to the new identity
    ["id0"] and fails in the same way.  No metadata record is written and
    no event is published in either case. *)
Theorem upload_to_existing_path_never_conflicts :
  let refused := toy_upload 5 (upload_of [Byte.x01]) false "docs/report.pdf" report_store in
  let replaced := toy_upload 5 (upload_of [Byte.x01]) true "docs/report.pdf" report_store in
  toy_digest (Blob [Byte.x01]) <> checksum report_v1
  /\ (get_file_metadata_by_path id 5 "docs/report.pdf" report_store).1
     = Returned (Some report_v1)
  /\ refused.1 = Raised (ValidationError ["path"])
  /\ versions_dir refused.2 !! "f1" ≫= (.!! "v1") = Some (Blob [Byte.x01])
  /\ metadata_dir refused.2 = metadata_dir report_store
  /\ published refused.2 = []
  /\ replaced.1 = Raised (ValidationError ["path"])
  /\ root_dir replaced.2 !! "id0" = Some (Blob [Byte.x01])
  /\ versions_dir replaced.2 = ∅
  /\ metadata_dir replaced.2 = metadata_dir report_store
  /\ published replaced.2 = [].
Proof.
  intros refused replaced. split; [discriminate|].
  repeat split; vm_compute; reflexivity.
Qed.

(** C4, evaluated where the code departs from it.  The identity
    ["f1"] has two stored records, of versions 1 and 2, under the names
    [_get_metadata_path] gives to the records of a version; each is read
    back by its version.  The read without a version looks for the name
    without a version, which is another file: it ends with the not-found
    error, and returns neither record.  Where that file exists it is
    returned as it is, here a record of version 1 that is marked
    deleted, while version 2 is stored and not deleted. *)
Theorem latest_version_is_not_found :
  (get_file_metadata 5 "f1" (Some 1) versions_store).1 = Returned report_v1
  /\ (get_file_metadata 5 "f1" (Some 2) versions_store).1 = Returned report_v2
  /\ (get_file_metadata 5 "f1" None versions_store).1
     = Raised (FileNotFoundError "Metadata for file f1 not found")
  /\ (get_file_metadata 5 "f1" (Some 2) superseded_store).1 = Returned report_v2
  /\ (get_file_metadata 5 "f1" None superseded_store).1 = Returned report_v1_deleted
  /\ is_deleted report_v1_deleted = true
  /\ is_deleted report_v2 = false
  /\ version report_v1_deleted < version report_v2.
Proof. repeat split; vm_compute; reflexivity. Qed.

Lemma record_construction_fails_for_want_of_path_witness :
  (exists fields s',
      toy_upload 5 (upload_of [Byte.x01]) true "docs/report.pdf" report_store
      = (Raised (ValidationError fields), s')
      /\ "path" ∈ fields /\ same_records report_store s')
  /\ (forall t, exists t', toy_scan 5 t = (Returned 0, t') /\ same_files t t').
Proof.
  eapply (record_construction_fails_for_want_of_path toy_digest numbered id
            (fun _ => inl (AttributeError "from_file")) (fun _ => 2) (fun _ => 0)
            (fun _ => 0) 5 (upload_of [Byte.x01]) None None true
            (Some "docs/report.pdf") report_store "docs/report.pdf").
  - reflexivity.
  - discriminate.
  - vm_compute. reflexivity.
  - vm_compute. reflexivity.
Defined.

(** C6, as stated, fails for the scan: the file [notes.txt] has no
    record, the attempt to register it draws an identifier and raises the
    validation error, and the scan returns 0 without raising. *)
Lemma scan_swallows_validation_error :
  (register_scanned toy_digest numbered (fun _ => inl (AttributeError "from_file"))
                    (fun _ => 2) (fun _ => 0) (fun _ => 0)
                    5 (InRoot "notes.txt") "notes.txt" unregistered_store).1
  = Raised (ValidationError ["path"])
  /\ (toy_scan 5 unregistered_store).1 = Returned 0
  /\ uuids_drawn (toy_scan 5 unregistered_store).2 = 1%nat.
Proof. repeat split; vm_compute; reflexivity. Qed.

End FilesProps.

(** * Further properties of the context manager *)

Module ContextExtra.
Import Py Context ContextProps.
#[local] Set Warnings "-clear-no-such-hyp".

(** ** Dictionaries *)

Section DictFacts.
Context {V : Type}.
Implicit Types d : list (string * V).

Lemma get_set_eq k v d : OrderedDict.get k (OrderedDict.set k v d) = Some v.
Proof.
  induction d as [|[k' v'] d IH]; simpl.
  - by rewrite String.eqb_refl.
  - destruct (String.eqb_spec k k') as [->|Hne]; simpl.
    + by rewrite String.eqb_refl.
    + by destruct (String.eqb_spec k k').
Qed.

Lemma get_None_keys k d : OrderedDict.get k d = None <-> k ∉ OrderedDict.keys d.
Proof.
  unfold OrderedDict.keys. induction d as [|[k' v'] d IH]; simpl.
  - split; [intros _ H; by apply elem_of_nil in H|done].
  - rewrite not_elem_of_cons. destruct (String.eqb_spec k k') as [->|Hne].
    + split; [done|]. by intros [? _].
    + rewrite IH. naive_solver.
Qed.

Lemma keys_del_subseteq k d : OrderedDict.keys (OrderedDict.del k d) ⊆ OrderedDict.keys d.
Proof.
  unfold OrderedDict.keys. induction d as [|[k' v'] d IH]; simpl; [done|].
  destruct (String.eqb k k'); simpl; set_solver.
Qed.

Lemma keys_del_NoDup k d :
  NoDup (OrderedDict.keys d) -> NoDup (OrderedDict.keys (OrderedDict.del k d)).
Proof.
  unfold OrderedDict.keys. induction d as [|[k' v'] d IH]; simpl; [done|].
  rewrite NoDup_cons. intros [Hk' Hd].
  destruct (String.eqb k k'); simpl; [done|].
  apply NoDup_cons. split; [|by apply IH].
  intros Hin. apply Hk'. by apply (keys_del_subseteq k d).
Qed.

Lemma keys_del_other k k' d :
  k <> k' -> k ∈ OrderedDict.keys d -> k ∈ OrderedDict.keys (OrderedDict.del k' d).
Proof.
  unfold OrderedDict.keys. intros Hne. induction d as [|[k0 v0] d IH]; simpl; [done|].
  rewrite elem_of_cons. destruct (String.eqb_spec k' k0) as [->|Hne0]; simpl.
  - intros [?|?]; [done|done].
  - rewrite elem_of_cons. intros [?|?]; [by left|right; by apply IH].
Qed.

Lemma get_del_eq k d :
  NoDup (OrderedDict.keys d) -> OrderedDict.get k (OrderedDict.del k d) = None.
Proof.
  unfold OrderedDict.keys. induction d as [|[k' v'] d IH]; simpl; [done|].
  rewrite NoDup_cons. intros [Hk' Hd].
  destruct (String.eqb_spec k k') as [->|Hne]; simpl.
  - by apply get_None_keys.
  - destruct (String.eqb_spec k k'); [done|]. by apply IH.
Qed.

Lemma length_del k d :
  k ∈ OrderedDict.keys d -> S (length (OrderedDict.del k d)) = length d.
Proof.
  unfold OrderedDict.keys. induction d as [|[k' v'] d IH]; simpl.
  - intros H. by apply elem_of_nil in H.
  - rewrite elem_of_cons. destruct (String.eqb_spec k k') as [->|Hne]; [done|].
    intros [?|Hin]; [done|]. simpl. by rewrite IH.
Qed.

Lemma keys_set_NoDup k v d :
  NoDup (OrderedDict.keys d) -> NoDup (OrderedDict.keys (OrderedDict.set k v d)).
Proof.
  unfold OrderedDict.keys. induction d as [|[k' v'] d IH]; simpl.
  - intros _. apply NoDup_singleton.
  - rewrite NoDup_cons. intros [Hk' Hd].
    destruct (String.eqb_spec k k') as [->|Hne]; simpl.
    + by apply NoDup_cons.
    + apply NoDup_cons. split; [|by apply IH].
      clear IH Hd. induction d as [|[k0 v0] d IH]; simpl.
      * rewrite list_elem_of_singleton. congruence.
      * simpl in Hk'. rewrite not_elem_of_cons in Hk'. destruct Hk' as [Hk0 Hk'].
        destruct (String.eqb k k0); simpl; rewrite not_elem_of_cons; split; auto.
Qed.

Lemma length_set k v d : (length (OrderedDict.set k v d) <= S (length d))%nat.
Proof.
  induction d as [|[k' v'] d IH]; simpl; [lia|].
  destruct (String.eqb k k'); simpl; lia.
Qed.

(** deleting distinct keys of the dictionary removes as many items *)
Lemma length_del_all ks d :
  NoDup ks -> ks ⊆ OrderedDict.keys d ->
  (length (foldl (fun d k => OrderedDict.del k d) d ks) + length ks)%nat = length d
  /\ (NoDup (OrderedDict.keys d) ->
      NoDup (OrderedDict.keys (foldl (fun d k => OrderedDict.del k d) d ks))).
Proof.
  revert d. induction ks as [|k ks IH]; intros d Hks Hsub; simpl.
  { split; [lia|done]. }
  apply NoDup_cons in Hks as [Hk Hks].
  destruct (IH (OrderedDict.del k d) Hks) as [Hlen Hnd].
  { intros k' Hk'. apply keys_del_other; [|set_solver]. intros ->. done. }
  split.
  - rewrite <- (length_del k d) by set_solver. lia.
  - intros Hd. apply Hnd. by apply keys_del_NoDup.
Qed.

End DictFacts.

Lemma insert_by_perm {A} (rank : A -> Z) x l : insert_by rank x l ≡ₚ x :: l.
Proof.
  induction l as [|y l IH]; simpl; [done|].
  destruct (rank x <=? rank y); [done|]. rewrite IH. apply Permutation_swap.
Qed.

Lemma sorted_by_perm {A} (rank : A -> Z) l : sorted_by rank l ≡ₚ l.
Proof.
  induction l as [|x l IH]; simpl; [done|].
  unfold sorted_by in *. simpl. rewrite insert_by_perm. by rewrite IH.
Qed.

(** ** The local cache *)

Lemma run_update_cache_exact now key v s :
  _cache_lock s = false ->
  _update_cache now key v s
  = (Returned tt,
     with_cache (cache_after_update (cache_ttl s) (max_cache_size s) now key v) s).
Proof.
  destruct s as [ct ms ep store ttls c l cl n st]; simpl; intros ->.
  unfold _update_cache, cache_after_update, with_cache; run_monad.
  destruct (ms <=? Z.of_nat (length c)); reflexivity.
Qed.

Lemma oldest_keys_facts max_size (c : list (string * (pyval * Z))) :
  NoDup (OrderedDict.keys c) ->
  NoDup (oldest_keys max_size c)
  /\ oldest_keys max_size c ⊆ OrderedDict.keys c
  /\ length (oldest_keys max_size c)
     = Nat.min (Z.to_nat (Z.max 1 (max_size / 10))) (length c).
Proof.
  intros Hc. unfold oldest_keys.
  set (sorted := sorted_by _ _).
  assert (Hperm : sorted ≡ₚ OrderedDict.keys c) by apply sorted_by_perm.
  split; [|split].
  - apply (sublist_NoDup _ sorted); [|apply sublist_take]. by rewrite Hperm.
  - etrans; [apply subseteq_take|]. by rewrite Hperm.
  - rewrite length_take, Hperm. unfold OrderedDict.keys. by rewrite length_fmap.
Qed.

(** X1.  [_update_cache] keeps the local cache a dictionary of at most
    [max_cache_size] items, for a bound of at least one: when the cache is
    full, the eviction makes room before the new item is stored. *)
Theorem update_cache_keeps_bound now key v s :
  _cache_lock s = false ->
  1 <= max_cache_size s ->
  cache_ok s ->
  cache_ok (_update_cache now key v s).2.
Proof.
  intros Hlock Hmax [Hnd Hlen]. rewrite run_update_cache_exact by done.
  destruct s as [ct ms ep store ttls c l cl n st]; simpl in *.
  unfold cache_ok, cache_after_update; simpl.
  destruct (Z.leb_spec ms (Z.of_nat (length c))) as [Hfull|Hroom].
  - destruct (oldest_keys_facts ms c Hnd) as (Hks & Hsub & Hn).
    destruct (length_del_all (oldest_keys ms c) c Hks Hsub) as [Hdel Hnd'].
    split; [by apply keys_set_NoDup, Hnd'|].
    pose proof (length_set key (v, now + ct)
                  (foldl (fun d k => OrderedDict.del k d) c (oldest_keys ms c))).
    lia.
  - split; [by apply keys_set_NoDup|].
    pose proof (length_set key (v, now + ct) c). lia.
Qed.

Lemma update_cache_keeps_bound_witness :
  cache_ok (_update_cache 7 "c" (PInt 3) (set_context 1 "b" (PInt 2) None None false
             (set_context 0 "a" (PInt 1) None None false
                (new_ContextManager 300 2 true ∅)).2).2).2.
Proof.
  apply update_cache_keeps_bound; [reflexivity|vm_compute; discriminate|].
  split; [|vm_compute; discriminate].
  vm_compute. repeat constructor; set_solver.
Defined.

(** ** The cache after a write *)

Lemma run_set_context_exact now key v ttl md notify s item :
  unlocked s ->
  new_ContextItem key v ttl (or_empty md) = inr item ->
  set_context now key v ttl md notify s
  = (Returned true,
     mkCM (cache_ttl s) (max_cache_size s) (enable_persistence s)
          (<[key := stored v md now]> (_context_store s))
          (index_after_set now key ttl (_ttl_store s))
          (cache_after_update (cache_ttl s) (max_cache_size s) now key v (_cache s))
          false false
          (notified s ++ (if notify then [(key, set_event key v md)] else []))
          (storage s)).
Proof.
  intros [Hl Hc] Hitem.
  destruct (new_ContextItem_value _ _ _ _ _ Hitem) as [Hv Hm].
  destruct s as [ct ms ep store ttls c l cl n st]; simpl in *; subst l cl.
  unfold set_context. rewrite Hitem. rewrite Hv.
  unfold index_after_set.
  destruct ttl as [n0|]; [destruct (0 <? n0)|]; run_monad;
    rewrite Hm; fold (stored v md now);
    rewrite run_update_cache_exact by reflexivity;
    simpl; unfold _notify_subscribers; run_monad;
    destruct notify; simpl; rewrite ?app_nil_r; reflexivity.
Qed.



(** ** Listing *)

Lemma NoDup_List_filter {A} (f : A -> bool) l : NoDup l -> NoDup (List.filter f l).
Proof.
  induction 1 as [|x l Hx Hl IH]; simpl; [constructor|].
  destruct (f x); [|done]. constructor; [|done].
  rewrite list_elem_of_In, filter_In, <- list_elem_of_In. tauto.
Qed.

Lemma run_list_keys now prefix s :
  unlocked s ->
  list_keys now prefix s
  = (Returned (List.filter
                 (fun key =>
                    String.prefix prefix key
                    && match _ttl_store s !! key with Some e => now <=? e | None => true end)
                 (map_to_list (_context_store s)).*1), s).
Proof.
  intros [Hl Hc].
  destruct s as [ct ms ep store ttls c l cl n st]; simpl in *; subst l cl.
  reflexivity.
Qed.

(** X5.  [list_keys] changes nothing and returns, without repetition,
    exactly the keys of the value map that start with the prefix and
    have no expiry or an expiry that is not before the instant of the
    call. *)
Theorem list_keys_lists_live_keys now prefix s :
  unlocked s ->
  exists keys,
    list_keys now prefix s = (Returned keys, s)
    /\ NoDup keys
    /\ forall k, k ∈ keys <->
         is_Some (_context_store s !! k)
         /\ String.prefix prefix k = true
         /\ (forall e, _ttl_store s !! k = Some e -> now <= e).
Proof.
  intros Hs. rewrite run_list_keys by done.
  destruct s as [ct ms ep store ttls c l cl n st]; simpl in *.
  eexists. split; [reflexivity|]. split.
  { apply NoDup_List_filter, NoDup_fst_map_to_list. }
  intros k. rewrite list_elem_of_In, filter_In, <- list_elem_of_In.
  rewrite andb_true_iff, list_elem_of_fmap. split.
  - intros [([k' item] & -> & Hin) [Hp Hlive]]. simpl in *.
    apply elem_of_map_to_list in Hin. repeat split; [by eexists|done|].
    intros e He. rewrite He in Hlive. by apply Z.leb_le.
  - intros ([item Hitem] & Hp & Hlive). split.
    + exists (k, item). split; [done|]. by apply elem_of_map_to_list.
    + split; [done|]. destruct (ttls !! k) as [e|]; [|done].
      apply Z.leb_le. by apply Hlive.
Qed.

Lemma list_keys_lists_live_keys_witness :
  exists keys,
    list_keys 1 "" one_second = (Returned keys, one_second)
    /\ NoDup keys
    /\ forall k, k ∈ keys <->
         is_Some (_context_store one_second !! k)
         /\ String.prefix "" k = true
         /\ (forall e, _ttl_store one_second !! k = Some e -> 1 <= e).
Proof. apply (list_keys_lists_live_keys 1 "" one_second). split; reflexivity. Defined.

(** ** The sweep *)

Lemma run_delete_expired keys : forall s,
  unlocked s ->
  exists s',
    delete_expired keys s = (Returned tt, s')
    /\ unlocked s'
    /\ (forall k, _context_store s' !! k
                  = if bool_decide (k ∈ keys) then None else _context_store s !! k)
    /\ (forall k, _ttl_store s' !! k
                  = if bool_decide (k ∈ keys) && bool_decide (is_Some (_context_store s !! k))
                    then None else _ttl_store s !! k)
    /\ (forall k item, k ∈ keys -> _context_store s !! k = Some item ->
          (k, delete_event k (value item)) ∈ notified s')
    /\ (forall ev, ev ∈ notified s -> ev ∈ notified s').
Proof.
  induction keys as [|key keys IH]; intros s Hs.
  { exists s. repeat split; try done; try apply Hs.
    intros k item Hin. by apply elem_of_nil in Hin. }
  simpl. unfold bind at 1. rewrite run_delete_context by done.
  destruct (_context_store s !! key) as [item|] eqn:Hitem.
  - set (s1 := mkCM _ _ _ _ _ _ _ _ _ _).
    destruct (IH s1) as (s' & Hrun & Hs' & Hstore & Httl & Hnew & Hold);
      [split; reflexivity|].
    exists s'. split; [done|]. split; [done|].
    assert (Hmine : (key, delete_event key (value item)) ∈ notified s').
    { apply Hold. subst s1. simpl. apply elem_of_app. right. by apply list_elem_of_singleton. }
    repeat split.
    + intros k. rewrite Hstore. subst s1. simpl.
      destruct (decide (k = key)) as [->|Hne].
      * rewrite lookup_delete_eq. rewrite (bool_decide_eq_true_2 (key ∈ key :: keys)) by left.
        by case_bool_decide.
      * rewrite lookup_delete_ne by done.
        repeat case_bool_decide; set_solver.
    + intros k. rewrite Httl. subst s1. simpl.
      destruct (decide (k = key)) as [->|Hne].
      * rewrite !lookup_delete_eq, Hitem.
        rewrite (bool_decide_eq_true_2 (key ∈ key :: keys)) by left.
        rewrite (bool_decide_eq_true_2 (is_Some (Some item))) by done.
        simpl. by destruct (_ && _).
      * rewrite !lookup_delete_ne by done.
        assert (Heq : bool_decide (k ∈ key :: keys) = bool_decide (k ∈ keys)).
        { apply bool_decide_ext. set_solver. }
        by rewrite Heq.
    + intros k item' Hin Hk. apply elem_of_cons in Hin as [->|Hin].
      { by simplify_eq. }
      destruct (decide (k = key)) as [->|Hne]; [by simplify_eq|].
      apply (Hnew k item' Hin). subst s1. simpl. by rewrite lookup_delete_ne.
    + intros ev Hev. apply Hold. subst s1. simpl. apply elem_of_app. by left.
  - destruct (IH s Hs) as (s' & Hrun & Hs' & Hstore & Httl & Hnew & Hold).
    exists s'. split; [done|]. split; [done|].
    repeat split; [| | |done].
    + intros k. rewrite Hstore.
      destruct (decide (k = key)) as [->|Hne].
      * rewrite (bool_decide_eq_true_2 (key ∈ key :: keys)) by left.
        rewrite Hitem. by case_bool_decide.
      * repeat case_bool_decide; set_solver.
    + intros k. rewrite Httl.
      destruct (decide (k = key)) as [->|Hne].
      * rewrite Hitem. rewrite (bool_decide_eq_false_2 (is_Some None)) by by intros [].
        by rewrite !andb_false_r.
      * assert (Heq : bool_decide (k ∈ key :: keys) = bool_decide (k ∈ keys)).
        { apply bool_decide_ext. set_solver. }
        by rewrite Heq.
    + intros k item' Hin Hk. apply elem_of_cons in Hin as [->|Hin]; [congruence|].
      by apply (Hnew k item').
Qed.

(** X7.  One turn of the background sweep returns, leaves no lock held
    and removes from the value map every key whose expiry is not after
    the instant of the sweep, the instant of expiry included (a read at
    that instant still returns the entry); other keys keep their entry.
    A key leaves the TTL index when it is removed from the value map: an
    expired key of the index that has no entry in the value map stays in
    the index.  Each removed entry is notified by a [delete] event with
    its value, and no earlier notification is lost. *)
Theorem sweep_removes_expired_entries now s :
  unlocked s ->
  let r := _cleanup_expired_turn now s in
  let expired k :=
    match _ttl_store s !! k with Some e => bool_decide (e <= now) | None => false end in
  r.1 = Returned tt
  /\ unlocked r.2
  /\ (forall k, _context_store r.2 !! k
                = if expired k then None else _context_store s !! k)
  /\ (forall k, _ttl_store r.2 !! k
                = if expired k && bool_decide (is_Some (_context_store s !! k))
                  then None else _ttl_store s !! k)
  /\ (forall k item, expired k = true -> _context_store s !! k = Some item ->
        (k, delete_event k (value item)) ∈ notified r.2)
  /\ (forall ev, ev ∈ notified s -> ev ∈ notified r.2).
Proof.
  intros Hs. cbv zeta. unfold _cleanup_expired_turn, try_except, bind, gets.
  set (keys := (List.filter _ _).*1).
  assert (Hkeys : forall k, k ∈ keys <->
            match _ttl_store s !! k with Some e => bool_decide (e <= now) | None => false end
            = true).
  { intros k. subst keys. rewrite list_elem_of_fmap. split.
    - intros ([k' e] & -> & Hin). simpl.
      apply list_elem_of_In, filter_In in Hin as [Hin Hle].
      apply list_elem_of_In, elem_of_map_to_list in Hin. rewrite Hin.
      apply bool_decide_eq_true. by apply Z.leb_le.
    - destruct (_ttl_store s !! k) as [e|] eqn:He; [|done]. intros Hle.
      apply bool_decide_eq_true in Hle.
      exists (k, e). split; [done|]. apply list_elem_of_In, filter_In. split.
      + by apply list_elem_of_In, elem_of_map_to_list.
      + by apply Z.leb_le. }
  destruct (run_delete_expired keys s Hs) as (s' & -> & Hs' & Hstore & Httl & Hnew & Hold).
  cbn [fst snd].
  assert (Hdec : forall k, bool_decide (k ∈ keys)
            = match _ttl_store s !! k with Some e => bool_decide (e <= now) | None => false end).
  { intros k. specialize (Hkeys k). case_bool_decide as Hin.
    - symmetry. by apply Hkeys.
    - destruct (match _ttl_store s !! k with Some e => _ | None => _ end); [|done].
      exfalso. by apply Hin, Hkeys. }
  repeat split; try done; try apply Hs'.
  - intros k. by rewrite Hstore, Hdec.
  - intros k. by rewrite Httl, Hdec.
  - intros k item Hexp. apply Hnew. by apply Hkeys.
Qed.

Lemma sweep_removes_expired_entries_witness :
  (_cleanup_expired_turn 1 one_second).1 = Returned tt
  /\ _context_store (_cleanup_expired_turn 1 one_second).2 !! "k" = None
  /\ (get_context_keyed 1 "k" false one_second).1 = Returned (PStr "v").
Proof.
  destruct (sweep_removes_expired_entries 1 one_second) as (Hr & _ & Hstore & _);
    [split; reflexivity|].
  split; [exact Hr|]. split; [|vm_compute; reflexivity].
  rewrite (Hstore "k"). reflexivity.
Defined.

(** ** Bulk operations that stop at the first failure *)

Lemma run_bulk_loop_fail_fast now op after r before : forall results s,
  unlocked s ->
  (attempt_each now (before ++ [op]) s).1 = ((fun _ => inr true) <$> before) ++ [r] ->
  succeeds r = false ->
  bulk_loop now (before ++ op :: after) true results s
  = (Returned {| succeeded := succeeded results + Z.of_nat (length before);
                 failed := failed results + (if r is inr _ then 2 else 1);
                 errors := errors results
                           ++ [{| err_operation := op; err_error := failure_message r |}] |},
     (attempt_each now (before ++ [op]) s).2)
  /\ unlocked (attempt_each now (before ++ [op]) s).2
  /\ notified (attempt_each now (before ++ [op]) s).2 = notified s.
Proof.
  induction before as [|b before IH]; intros results s Hs Hrun Hr.
  - simpl in *.
    destruct (run_bulk_dispatch now op s Hs) as (r0 & s1 & Hop & Hs1 & Hn1).
    unfold bind at 1. rewrite Hop in *. simpl in Hrun. injection Hrun as ->.
    cbn [snd]. split; [|done].
    destruct r as [e|[]]; [|done|]; simpl; unfold ret, record_error, count_failed;
      simpl; do 3 f_equal; lia.
  - simpl in *.
    destruct (run_bulk_dispatch now b s Hs) as (r0 & s1 & Hop & Hs1 & Hn1).
    unfold bind at 1. rewrite Hop in *.
    destruct (attempt_each now (before ++ [op]) s1) as [rs s2] eqn:Heach.
    simpl in Hrun. injection Hrun as -> Hrs.
    destruct (IH (count_succeeded results) s1 Hs1) as (Hloop & Hs2 & Hn2);
      [by rewrite Heach | done |].
    rewrite Heach in Hloop, Hs2, Hn2. cbn [snd] in *.
    rewrite Hloop. simpl. split; [|split; [done|congruence]].
    do 3 f_equal. lia.
Qed.

(** X8.  A bulk call with [fail_fast] whose first operations succeed and
    whose next operation does not stops there: the operations after it
    are not attempted, and the stores are left as the attempted
    operations leave them.  [succeeded] counts the operations before the
    failure; the one failure has one error entry, and [failed] is 1 when
    the operation raised but 2 when it returned [False], since [failed]
    is then incremented before and after the exception that stops the
    loop.  The aggregate event is emitted only when an operation
    succeeded. *)
Theorem bulk_fail_fast_stops_at_first_failure now before op after r s :
  unlocked s ->
  (attempt_each now (before ++ [op]) s).1 = ((fun _ => inr true) <$> before) ++ [r] ->
  succeeds r = false ->
  exists results s',
    bulk_operation now (before ++ op :: after) true s = (Returned results, s')
    /\ succeeded results = Z.of_nat (length before)
    /\ failed results = (if r is inr _ then 2 else 1)
    /\ errors results = [{| err_operation := op; err_error := failure_message r |}]
    /\ _context_store s' = _context_store (attempt_each now (before ++ [op]) s).2
    /\ _ttl_store s' = _ttl_store (attempt_each now (before ++ [op]) s).2
    /\ notified s'
       = notified s ++ (if before is [] then [] else [("", bulk_event results)]).
Proof.
  intros Hs Hrun Hr.
  destruct (run_bulk_loop_fail_fast now op after r before
              {| succeeded := 0; failed := 0; errors := [] |} s Hs Hrun Hr)
    as (Hloop & Hs' & Hn).
  unfold bulk_operation. unfold bind at 1. rewrite Hloop. cbv beta iota.
  set (s1 := (attempt_each now (before ++ [op]) s).2) in *. clearbody s1.
  cbn [succeeded failed errors]. rewrite !Z.add_0_l.
  destruct before as [|b before].
  - eexists _, _. split; [unfold bind, ret; reflexivity|].
    simpl. rewrite app_nil_r. repeat split; done.
  - assert (Hpos : (0 <? Z.of_nat (length (b :: before))) = true)
      by (apply Z.ltb_lt; simpl; lia).
    rewrite Hpos. eexists _, _. split.
    { unfold _notify_subscribers, bind, modify, ret. reflexivity. }
    simpl. rewrite Hn. repeat split; done.
Qed.

Lemma bulk_fail_fast_stops_at_first_failure_witness :
  exists results s',
    bulk_operation 0 [set_op "k1" (PInt 1); delete_op "k3"; set_op "k2" (PInt 2)]
                   true fresh = (Returned results, s')
    /\ succeeded results = 1 /\ failed results = 2
    /\ length (errors results) = 1%nat
    /\ _context_store s' !! "k2" = None.
Proof.
  destruct (bulk_fail_fast_stops_at_first_failure 0 [set_op "k1" (PInt 1)]
              (delete_op "k3") [set_op "k2" (PInt 2)] (inr false) fresh)
    as (results & s' & Hrun & Hsucc & Hfail & Herr & Hstore & _);
    [split; reflexivity | vm_compute; reflexivity | reflexivity |].
  exists results, s'. split; [exact Hrun|].
  split; [exact Hsucc|]. split; [exact Hfail|]. split; [by rewrite Herr|].
  rewrite Hstore. vm_compute. reflexivity.
Defined.

Lemma bulk_loop_keeps_notifications now fail_fast ops : forall results s,
  unlocked s ->
  exists results' s',
    bulk_loop now ops fail_fast results s = (Returned results', s')
    /\ unlocked s' /\ notified s' = notified s.
Proof.
  induction ops as [|op ops IH]; intros results s Hs; simpl.
  { by eexists _, _. }
  destruct (run_bulk_dispatch now op s Hs) as (r & s1 & Hop & Hs1 & Hn1).
  unfold bind at 1. rewrite Hop.
  destruct r as [e|[]]; destruct fail_fast;
    try (by eexists _, _);
    match goal with
    | |- context [bulk_loop now ops _ ?res s1] =>
        destruct (IH res s1 Hs1) as (results' & s' & -> & Hs' & Hn');
        eexists _, _; split; [reflexivity|]; split; [done|congruence]
    end.
Qed.

(** ** Subscribers *)

Lemma nothing_reaches_nonempty_prefix prefix : prefix <> "" -> reaches "" prefix = false.
Proof. destruct prefix; [done|]. intros _. reflexivity. Qed.

(** X9.  A subscriber registered under a prefix that is not empty
    receives nothing from a bulk call, whatever keys the call sets or
    deletes and with or without [fail_fast]: the operations of a bulk
    call do not notify, and its aggregate event is notified under the
    empty key. *)
Theorem bulk_changes_are_invisible_to_prefix_subscribers
    now ops fail_fast s key_prefix event_types :
  unlocked s ->
  key_prefix <> "" ->
  let s' := (bulk_operation now ops fail_fast s).2 in
  exists calls,
    notified s' = notified s ++ calls
    /\ subscribe_to_changes key_prefix event_types calls = [].
Proof.
  intros Hs Hp. cbv zeta.
  destruct (bulk_loop_keeps_notifications now fail_fast ops
              {| succeeded := 0; failed := 0; errors := [] |} s Hs)
    as (results & s1 & Hloop & Hs1 & Hn).
  unfold bulk_operation. unfold bind at 1. rewrite Hloop. cbv beta iota.
  destruct (0 <? succeeded results).
  - exists [("", bulk_event results)]. split.
    { unfold _notify_subscribers, bind, modify, ret. simpl. by rewrite Hn. }
    unfold subscribe_to_changes. simpl.
    by rewrite (nothing_reaches_nonempty_prefix _ Hp).
  - exists []. split; [|done]. unfold bind, ret. simpl. by rewrite app_nil_r.
Qed.

Lemma bulk_changes_are_invisible_to_prefix_subscribers_witness :
  let s' := (bulk_operation 0 [set_op "user:1" (PInt 1)] false fresh).2 in
  (exists calls,
     notified s' = notified fresh ++ calls
     /\ subscribe_to_changes "user:" None calls = [])
  /\ subscribe_to_changes "user:" None
       (notified (set_context 0 "user:1" (PInt 1) None None true fresh).2)
     = [set_event "user:1" (PInt 1) None].
Proof.
  split; [|vm_compute; reflexivity].
  apply (bulk_changes_are_invisible_to_prefix_subscribers 0 [set_op "user:1" (PInt 1)]
           false fresh "user:" None); [split; reflexivity | discriminate].
Defined.

(** ** Item details *)

Lemma run_get_context_item_details now key s :
  unlocked s ->
  get_context_item_details now key s
  = (match _context_store s !! key with
     | None => Returned None
     | Some item =>
         let ttl := match _ttl_store s !! key with
                    | Some expiry =>
                        if bool_decide (expiry = 0) then None else Some (expiry - now)
                    | None => None
                    end in
         match new_ContextItem key (value item) ttl (metadata item) with
         | inl e => Raised e
         | inr it => Returned (Some it)
         end
     end, s).
Proof.
  intros [Hl Hc].
  destruct s as [ct ms ep store ttls c l cl n st]; simpl in *; subst l cl.
  unfold get_context_item_details, _get_item_data_from_store. run_monad.
  destruct (store !! key) as [item|]; [|reflexivity]. simpl.
  destruct (new_ContextItem _ _ _ _); reflexivity.
Qed.

(** X3.  [get_context_item_details] of a key of the value map that has
    no expiry, or whose expiry is at least one second ahead, returns the
    item: the key, the stored value and metadata, and the time to live
    that remains ([None] without an expiry, and for the expiry 0); of a
    key that is not in the value map it returns [None].  Nothing
    changes. *)
Theorem item_details_of_a_live_key now key s :
  unlocked s ->
  (forall e, _ttl_store s !! key = Some e -> e = 0 \/ now + 1 <= e) ->
  get_context_item_details now key s
  = (Returned
       match _context_store s !! key with
       | Some entry =>
           Some {| ci_key := key; ci_value := value entry;
                   ci_ttl := match _ttl_store s !! key with
                             | Some e => if bool_decide (e = 0) then None else Some (e - now)
                             | None => None
                             end;
                   ci_metadata := metadata entry |}
       | None => None
       end, s).
Proof.
  intros Hs Hlive. rewrite run_get_context_item_details by done.
  destruct (_context_store s !! key) as [entry|]; [|done]. cbv zeta.
  destruct (_ttl_store s !! key) as [e|]; [|done].
  case_bool_decide as He; [done|].
  destruct (Hlive e eq_refl) as [?|Hahead]; [done|].
  unfold new_ContextItem. destruct (Z.leb_spec 1 (e - now)); [done|lia].
Qed.

Lemma item_details_of_a_live_key_witness :
  get_context_item_details 0 "k" one_second
  = (Returned (Some {| ci_key := "k"; ci_value := PStr "v"; ci_ttl := Some 1;
                       ci_metadata := [] |}), one_second).
Proof.
  apply (item_details_of_a_live_key 0 "k" one_second); [split; reflexivity|].
  intros e He. vm_compute in He. injection He as <-. right. lia.
Defined.

(** X4.  [delete_context] of a key of the value map returns [True],
    takes the key out of the value map, the TTL index and the cache, and
    notifies one [delete] event that carries the old value; after it,
    [get_context_item_details] of the key returns [None], [list_keys]
    leaves the key out, and a second [delete_context] returns [False]. *)
Theorem delete_then_read_finds_nothing key s item later prefix :
  unlocked s ->
  NoDup (OrderedDict.keys (_cache s)) ->
  _context_store s !! key = Some item ->
  let s' := (delete_context key s).2 in
  (delete_context key s).1 = Returned true
  /\ _context_store s' !! key = None
  /\ _ttl_store s' !! key = None
  /\ OrderedDict.get key (_cache s') = None
  /\ notified s' = notified s ++ [(key, delete_event key (value item))]
  /\ get_context_item_details later key s' = (Returned None, s')
  /\ (exists keys, list_keys later prefix s' = (Returned keys, s') /\ key ∉ keys)
  /\ (delete_context key s').1 = Returned false.
Proof.
  intros Hs Hnd Hitem. unfold delete_context.
  rewrite run_delete_context by done. rewrite Hitem. cbn [fst snd].
  set (s' := mkCM _ _ _ _ _ _ _ _ _ _).
  assert (Hs' : unlocked s') by (split; reflexivity).
  assert (Hgone : _context_store s' !! key = None) by apply lookup_delete_eq.
  assert (Hcache : OrderedDict.get key (_cache s') = None)
    by (subst s'; simpl; by apply get_del_eq).
  repeat split; try done.
  - apply lookup_delete_eq.
  - rewrite run_get_context_item_details by done. by rewrite Hgone.
  - rewrite run_list_keys by done. eexists. split; [reflexivity|].
    rewrite list_elem_of_In, filter_In, <- list_elem_of_In.
    intros [Hin _]. apply list_elem_of_fmap in Hin as ([k e] & -> & Hin).
    apply elem_of_map_to_list in Hin. simpl in *. congruence.
  - rewrite run_delete_context by done. by rewrite Hgone.
Qed.

Lemma delete_then_read_finds_nothing_witness :
  let s' := (delete_context "k" one_second).2 in
  (delete_context "k" one_second).1 = Returned true
  /\ _context_store s' !! "k" = None
  /\ _ttl_store s' !! "k" = None
  /\ OrderedDict.get "k" (_cache s') = None
  /\ notified s' = notified one_second ++ [("k", delete_event "k" (PStr "v"))]
  /\ get_context_item_details 0 "k" s' = (Returned None, s')
  /\ (exists keys, list_keys 0 "" s' = (Returned keys, s') /\ "k" ∉ keys)
  /\ (delete_context "k" s').1 = Returned false.
Proof.
  apply (delete_then_read_finds_nothing "k" one_second (stored (PStr "v") None 0) 0 "").
  - split; reflexivity.
  - vm_compute. repeat constructor. set_solver.
  - vm_compute. reflexivity.
Defined.

(** X10.  [get_context_item_details] of an entry whose expiry is less
    than one second ahead, or has passed without a sweep, raises a
    validation error on [ttl] instead of returning the item or [None]:
    the remaining time to live it computes is below the minimum of 1
    that [ContextItem] accepts.  Nothing changes. *)
Theorem item_details_fail_near_expiry now key s item e :
  unlocked s ->
  _context_store s !! key = Some item ->
  _ttl_store s !! key = Some e ->
  e <> 0 ->
  e - now < 1 ->
  get_context_item_details now key s = (Raised (ValidationError ["ttl"]), s).
Proof.
  intros Hs Hitem He Hnz Hnear.
  rewrite run_get_context_item_details by done. rewrite Hitem, He. cbv zeta.
  rewrite bool_decide_eq_false_2 by done. unfold new_ContextItem.
  destruct (Z.leb_spec 1 (e - now)); [lia|done].
Qed.

Lemma item_details_fail_near_expiry_witness :
  get_context_item_details 1 "k" one_second
  = (Raised (ValidationError ["ttl"]), one_second)
  /\ (get_context_keyed 1 "k" false one_second).1 = Returned (PStr "v").
Proof.
  split; [|vm_compute; reflexivity].
  apply (item_details_fail_near_expiry 1 "k" one_second (stored (PStr "v") None 0) 1);
    [split; reflexivity | reflexivity | reflexivity | lia | lia].
Defined.

Lemma get_context_item_details_cases now key s :
  unlocked s ->
  (exists o, get_context_item_details now key s = (Returned o, s))
  \/ get_context_item_details now key s = (Raised (ValidationError ["ttl"]), s).
Proof.
  intros Hs. rewrite run_get_context_item_details by done.
  destruct (_context_store s !! key) as [item|]; [|left; by eexists].
  cbv zeta. unfold new_ContextItem.
  destruct (match _ttl_store s !! key with Some _ => _ | None => _ end) as [n|];
    [destruct (1 <=? n)|]; (left; by eexists) || by right.
Qed.

Lemma run_full_items now keys s :
  unlocked s ->
  exists r,
    full_items now keys s = (r, s)
    /\ (r = Raised (ValidationError ["ttl"]) \/ exists items, r = Returned items)
    /\ (forall key, key ∈ keys ->
          (get_context_item_details now key s).1 = Raised (ValidationError ["ttl"]) ->
          r = Raised (ValidationError ["ttl"])).
Proof.
  intros Hs. induction keys as [|key keys IH]; simpl.
  { eexists. split; [reflexivity|]. split; [right; by eexists|].
    intros k Hin. by apply elem_of_nil in Hin. }
  destruct IH as (r & Hrun & Hr & Hraise).
  unfold bind at 1.
  destruct (get_context_item_details_cases now key s Hs) as [[o Ho]|Ho]; rewrite Ho.
  - unfold bind at 1. rewrite Hrun.
    destruct Hr as [->|[items ->]].
    + eexists. split; [reflexivity|]. split; [by left|done].
    + eexists. split; [reflexivity|]. split; [right; by eexists|].
      intros k Hin Hk. apply elem_of_cons in Hin as [->|Hin].
      * by rewrite Ho in Hk.
      * by specialize (Hraise k Hin Hk).
  - eexists. split; [reflexivity|]. split; [by left|done].
Qed.

(** X11.  [list_all_context_items_full] raises a validation error, and
    returns no item at all, as soon as the page it was asked for holds a
    key that expires at the instant of the call: [list_keys] still lists
    that key, and its details cannot be built. *)
Theorem item_listing_fails_on_a_key_about_to_expire now prefix skip limit key keys s :
  unlocked s ->
  now <> 0 ->
  _ttl_store s !! key = Some now ->
  (list_keys now prefix s).1 = Returned keys ->
  key ∈ take limit (drop skip keys) ->
  list_all_context_items_full now prefix skip limit s
  = (Raised (ValidationError ["ttl"]), s).
Proof.
  intros Hs Hnz Hkey Hkeys Hin.
  unfold list_all_context_items_full. unfold bind at 1.
  rewrite run_list_keys in * by done. injection Hkeys as Hkeys.
  rewrite Hkeys.
  destruct (run_full_items now (take limit (drop skip keys)) s Hs)
    as (r & Hrun & _ & Hraise).
  assert (Hk : key ∈ keys) by (by apply (subseteq_take limit), (subseteq_drop skip) in Hin).
  rewrite <- Hkeys in Hk.
  apply list_elem_of_In, filter_In in Hk as [Hk _].
  apply list_elem_of_In, list_elem_of_fmap in Hk as ([k item] & -> & Hk).
  apply elem_of_map_to_list in Hk. simpl in *.
  specialize (Hraise k Hin).
  rewrite run_get_context_item_details, Hk, Hkey in Hraise by done.
  cbv zeta in Hraise. rewrite bool_decide_eq_false_2 in Hraise by done.
  unfold new_ContextItem in Hraise.
  destruct (Z.leb_spec 1 (now - now)); [lia|].
  rewrite Hrun. by rewrite Hraise.
Qed.

Lemma item_listing_fails_on_a_key_about_to_expire_witness :
  list_all_context_items_full 1 "" 0 100 one_second
  = (Raised (ValidationError ["ttl"]), one_second).
Proof.
  apply (item_listing_fails_on_a_key_about_to_expire 1 "" 0 100 "k" ["k"] one_second);
    [split; reflexivity | lia | reflexivity | vm_compute; reflexivity
    | vm_compute; apply list_elem_of_singleton; reflexivity].
Defined.

(** ** Persistence that fails *)

Section PersistenceExtra.
Variable orjson_dumps : Snapshot -> exn + list Byte.byte.
Variable orjson_loads : list Byte.byte -> exn + SnapshotDoc.

(** X12.  [_persist_data] never raises and never touches the value map,
    the TTL index, the cache or the subscribers.  When persistence is
    disabled, or when the snapshot cannot be serialized, the files are
    left as they were, so that an earlier [context.json] survives; when
    the snapshot is serialized, [context.json] holds it and no
    [context.tmp] is left, other files being untouched. *)
Theorem persist_data_swallows_failures now s :
  unlocked s ->
  let r := _persist_data orjson_dumps now s in
  r.1 = Returned tt
  /\ unlocked r.2
  /\ _context_store r.2 = _context_store s
  /\ _ttl_store r.2 = _ttl_store s
  /\ _cache r.2 = _cache s
  /\ notified r.2 = notified s
  /\ storage r.2
     = match orjson_dumps (snapshot_of now s) with
       | inr json_data =>
           if enable_persistence s
           then delete "context.tmp" (<["context.json" := json_data]> (storage s))
           else storage s
       | inl _ => storage s
       end.
Proof.
  intros [Hl Hc].
  destruct s as [ct ms ep store ttls c l cl n st]; simpl in *; subst l cl.
  unfold snapshot_of, _persist_data; run_monad.
  destruct ep; simpl.
  - destruct (orjson_dumps _) as [e|json_data]; simpl; [done|].
    unfold os_replace; run_monad. rewrite lookup_insert_eq. simpl.
    repeat split; try done.
    apply map_eq; intros k.
    destruct (decide (k = "context.tmp")) as [->|?]; [by rewrite !lookup_delete_eq|].
    rewrite !lookup_delete_ne by done.
    destruct (decide (k = "context.json")) as [->|?]; [by rewrite !lookup_insert_eq|].
    by rewrite !lookup_insert_ne by done.
  - by destruct (orjson_dumps _).
Qed.

(** X13.  [_load_persisted_data] never raises.  When persistence is
    disabled, when there is no [context.json], or when its content
    cannot be decoded, the manager is left exactly as it was, so that a
    restart over a corrupt snapshot starts from empty stores without an
    error. *)
Theorem load_persisted_data_swallows_failures s :
  unlocked s ->
  enable_persistence s = false
  \/ storage s !! "context.json" = None
  \/ (exists raw_data e, storage s !! "context.json" = Some raw_data
                         /\ orjson_loads raw_data = inl e) ->
  _load_persisted_data orjson_loads s = (Returned tt, s)
  /\ _context_store (restart orjson_loads s) = ∅
  /\ _ttl_store (restart orjson_loads s) = ∅.
Proof.
  intros [Hl Hc] Hcase.
  destruct s as [ct ms ep store ttls c l cl n st]; simpl in *; subst l cl.
  unfold restart, _load_persisted_data; run_monad.
  destruct Hcase as [->|[Hnone|(raw & e & Hraw & Hloads)]].
  - done.
  - destruct ep; simpl; by rewrite ?Hnone.
  - destruct ep; simpl; by rewrite ?Hraw, ?Hloads.
Qed.

End PersistenceExtra.

Lemma persist_data_swallows_failures_witness :
  let dumps := fun _ : Snapshot => inl (TypeError "Type is not JSON serializable") in
  let r := _persist_data dumps 3 one_second in
  r.1 = Returned tt /\ storage r.2 = storage one_second.
Proof.
  intros dumps.
  destruct (persist_data_swallows_failures dumps 3 one_second) as (Hr & _ & _ & _ & _ & _ & Hst);
    [split; reflexivity|].
  split; [exact Hr | exact Hst].
Defined.

Lemma load_persisted_data_swallows_failures_witness :
  let loads := fun _ : list Byte.byte => inl (ValueError "unexpected character") in
  let s := with_storage <["context.json" := [Byte.x7b]]> one_second in
  _load_persisted_data loads s = (Returned tt, s)
  /\ _context_store (restart loads s) = ∅
  /\ _ttl_store (restart loads s) = ∅.
Proof.
  intros loads s.
  apply (load_persisted_data_swallows_failures loads s); [split; reflexivity|].
  right. right. exists [Byte.x7b], (ValueError "unexpected character").
  split; reflexivity.
Defined.

End ContextExtra.

(** * More of the file manager *)

Module FilesExtra.
Import Py Files FilesProps.
#[local] Set Warnings "-clear-no-such-hyp".
#[local] Existing Instance same_records_preorder.

(** ** Sorted lists *)

Section Ordered.
Context {A : Type} (rank : A -> Z).

Lemma ordered_cons x l :
  (forall b, b ∈ l -> rank x <= rank b) -> ordered rank l -> ordered rank (x :: l).
Proof.
  intros Hx Hl [|i] [|j] a b Hij Ha Hb; simpl in *; try lia.
  - simplify_eq. apply Hx. by eapply list_elem_of_lookup_2.
  - apply (Hl i j); [lia|done..].
Qed.

Lemma ordered_inv x l :
  ordered rank (x :: l) -> (forall b, b ∈ l -> rank x <= rank b) /\ ordered rank l.
Proof.
  intros H. split.
  - intros b Hb. apply list_elem_of_lookup in Hb as [j Hj].
    apply (H 0%nat (S j)); [lia|done..].
  - intros i j a b Hij Ha Hb. apply (H (S i) (S j)); [lia|done..].
Qed.

Lemma insert_by_ordered x l : ordered rank l -> ordered rank (insert_by rank x l).
Proof.
  induction l as [|y l IH]; intros Hl; simpl.
  { apply ordered_cons; [|done]. intros b Hb. by apply elem_of_nil in Hb. }
  apply ordered_inv in Hl as [Hy Hl].
  destruct (Z.leb_spec (rank x) (rank y)).
  - apply ordered_cons.
    + intros b Hb. apply elem_of_cons in Hb as [->|Hb]; [done|].
      specialize (Hy b Hb). lia.
    + by apply ordered_cons.
  - apply ordered_cons; [|by apply IH].
    intros b Hb. rewrite ContextExtra.insert_by_perm in Hb.
    apply elem_of_cons in Hb as [->|Hb]; [lia|by apply Hy].
Qed.

Lemma sorted_by_ordered l : ordered rank (sorted_by rank l).
Proof.
  induction l as [|x l IH]; simpl.
  - intros i j a b _ Ha. by rewrite lookup_nil in Ha.
  - by apply insert_by_ordered.
Qed.

Lemma ordered_page skip limit l : ordered rank l -> ordered rank (take limit (drop skip l)).
Proof.
  intros Hl i j a b Hij Ha Hb.
  apply lookup_take_Some in Ha as [Ha _]. apply lookup_take_Some in Hb as [Hb _].
  rewrite lookup_drop in Ha, Hb. apply (Hl (skip + i)%nat (skip + j)%nat); [lia|done..].
Qed.

End Ordered.

(** ** Listing and counting *)

Lemma omap_length_le {A B} (f : A -> option B) (l : list A) :
  (length (omap f l) <= length l)%nat.
Proof.
  induction l as [|x l IH]; [done|].
  change (omap f (x :: l)) with (match f x with Some y => y :: omap f l | None => omap f l end).
  destruct (f x); simpl; lia.
Qed.

Lemma List_filter_length_le {A} (f : A -> bool) (l : list A) :
  (length (List.filter f l) <= length l)%nat.
Proof. induction l as [|x l IH]; simpl; [done|]. destruct (f x); simpl; lia. Qed.

(** the records [list_files] reads: the metadata directory is walked
    twice *)
Lemma parsed_paths_live now s m :
  m ∈ omap (fun stem =>
              match metadata_dir s !! stem with
              | Some c =>
                  match parse_raw now c with
                  | inr m => if is_deleted m then None else Some m
                  | inl _ => None
                  end
              | None => None
              end)
        (List.filter (fun stem => negb (bool_decide (stem = "")))
                     (map_to_list (metadata_dir s)).*1
         ++ (map_to_list (metadata_dir s)).*1)
  <-> m ∈ live_records now s.
Proof.
  unfold live_records.
  rewrite !list_elem_of_omap. split.
  - intros (stem & _ & Hm). destruct (metadata_dir s !! stem) as [c|] eqn:Hc; [|done].
    exists (stem, c). split; [by apply elem_of_map_to_list|done].
  - intros ([stem c] & Hin & Hm). apply elem_of_map_to_list in Hin.
    exists stem. split.
    + apply elem_of_app. right. apply list_elem_of_fmap. exists (stem, c).
      split; [done|]. by apply elem_of_map_to_list.
    + by rewrite Hin.
Qed.

Lemma sortable_spec files :
  sortable files = true
  <-> forall a b, a ∈ files -> b ∈ files ->
        comparable (updated_at a) (updated_at b) = true.
Proof.
  unfold sortable. rewrite forallb_forall. split.
  - intros H a b Ha Hb. apply list_elem_of_In in Ha, Hb.
    specialize (H a Ha). rewrite forallb_forall in H. by apply H.
  - intros H a Ha. apply forallb_forall. intros b Hb.
    apply H; by apply list_elem_of_In.
Qed.

Lemma sortable_members l l' :
  (forall m : FileMetadata, m ∈ l <-> m ∈ l') -> sortable l = sortable l'.
Proof.
  intros Hsame. apply Bool.eq_iff_eq_true. rewrite !sortable_spec.
  split; intros H a b Ha Hb; apply H; by apply Hsame.
Qed.

(** the listing, from the records that are not marked deleted and pass
    the filters *)
Lemma run_list_files now prefix extension wanted skip limit s :
  exists all,
    (forall m, m ∈ all <->
       m ∈ List.filter (matches prefix extension wanted) (live_records now s))
    /\ (length all <= 2 * base.size (metadata_dir s))%nat
    /\ list_files now prefix extension wanted skip limit s
       = (if sortable (List.filter (matches prefix extension wanted) (live_records now s))
          then Returned (take limit
                           (drop skip (sorted_by (fun m => - instant (updated_at m)) all)))
          else Raised (IOError "Failed to list files: can't compare offset-naive and offset-aware datetimes"),
          s).
Proof.
  unfold list_files, try_except, _iter_metadata_files, bind, gets, ret.
  pose proof (parsed_paths_live now s) as Hlive.
  set (paths := _ ++ _) in *.
  assert (Hlen : (length paths <= 2 * base.size (metadata_dir s))%nat).
  { subst paths. rewrite length_app, length_fmap, length_map_to_list.
    pose proof (List_filter_length_le (λ stem : string, negb (bool_decide (stem = "")))
                  (map_to_list (metadata_dir s)).*1) as Hf.
    rewrite length_fmap, length_map_to_list in Hf. lia. }
  set (parsed := omap _ paths) in *.
  exists (List.filter (matches prefix extension wanted) parsed).
  assert (Hsame : forall m,
            m ∈ List.filter (matches prefix extension wanted) parsed <->
            m ∈ List.filter (matches prefix extension wanted) (live_records now s)).
  { intros m. rewrite !list_elem_of_In, !filter_In, <- !list_elem_of_In.
    by rewrite Hlive. }
  split; [done|]. split.
  { etrans; [apply List_filter_length_le|]. etrans; [apply omap_length_le|]. done. }
  unfold sort_newest_first. rewrite (sortable_members _ _ Hsame).
  by destruct (sortable _).
Qed.

(** X14.  [list_files] changes nothing.  When the records that are not
    marked deleted and pass the filters can all be ordered by
    [updated_at], it returns a page of at most [limit] of them, ordered
    by [updated_at] from the newest to the oldest, and every such record
    is on the first page when the page is long enough for two entries
    per metadata file.  When two of them cannot be ordered, one holding
    an offset-naive and the other an offset-aware instant, the sort
    fails and [list_files] raises an [IOError]. *)
Theorem list_files_pages_live_records now prefix extension wanted skip limit s :
  if sortable (List.filter (matches prefix extension wanted) (live_records now s))
  then
    exists files,
      list_files now prefix extension wanted skip limit s = (Returned files, s)
      /\ (length files <= limit)%nat
      /\ newest_first files
      /\ (forall m, m ∈ files ->
            m ∈ live_records now s /\ matches prefix extension wanted m = true)
      /\ (forall m, m ∈ live_records now s -> matches prefix extension wanted m = true ->
            exists page,
              (list_files now prefix extension wanted 0 (2 * base.size (metadata_dir s)) s).1
              = Returned page /\ m ∈ page)
  else
    exists message,
      list_files now prefix extension wanted skip limit s = (Raised (IOError message), s).
Proof.
  destruct (run_list_files now prefix extension wanted skip limit s)
    as (all & Hall & Hlen & Hrun).
  destruct (run_list_files now prefix extension wanted 0 (2 * base.size (metadata_dir s)) s)
    as (all' & Hall' & Hlen' & Hrun').
  destruct (sortable _); [|by eexists].
  eexists. split; [exact Hrun|]. split; [|split; [|split]].
  - rewrite length_take. lia.
  - intros i j a b Hij Ha Hb.
    pose proof (ordered_page (fun m => - instant (updated_at m)) skip limit _
                  (sorted_by_ordered (fun m => - instant (updated_at m)) all)
                  i j a b Hij Ha Hb).
    simpl in *. lia.
  - intros m Hm. apply subseteq_take, subseteq_drop in Hm.
    rewrite ContextExtra.sorted_by_perm in Hm.
    apply Hall, list_elem_of_In, filter_In in Hm as [Hm Hmatch].
    by apply list_elem_of_In in Hm.
  - intros m Hm Hmatch. eexists. rewrite Hrun'. split; [reflexivity|].
    rewrite drop_0, take_ge by (by rewrite ContextExtra.sorted_by_perm).
    rewrite ContextExtra.sorted_by_perm. apply Hall'.
    apply list_elem_of_In, filter_In. split; [|done]. by apply list_elem_of_In.
Qed.

Lemma list_files_pages_live_records_witness :
  (exists files,
     list_files 5 None None None 0 100 report_store = (Returned files, report_store)
     /\ report_v1 ∈ files)
  /\ exists message,
       list_files 5 None None None 0 100 mixed_store
       = (Raised (IOError message), mixed_store).
Proof.
  split.
  - pose proof (list_files_pages_live_records 5 None None None 0 100 report_store) as H.
    vm_compute sortable in H. destruct H as (files & Hrun & _ & _ & _ & Hall).
    exists files. split; [exact Hrun|].
    destruct (Hall report_v1) as (page & Hpage & Hin);
      [vm_compute; apply list_elem_of_singleton; reflexivity | reflexivity |].
    change (2 * base.size (metadata_dir report_store))%nat with 2%nat in Hpage.
    assert (Hsame : list_files 5 None None None 0 2 report_store
                    = list_files 5 None None None 0 100 report_store)
      by (vm_compute; reflexivity).
    rewrite Hsame, Hrun in Hpage. injection Hpage as <-. exact Hin.
  - pose proof (list_files_pages_live_records 5 None None None 0 100 mixed_store) as H.
    vm_compute sortable in H. exact H.
Defined.

Lemma count_loop_counts now (dir : gmap string content) (keep : FileMetadata -> bool)
    (pairs : list (string * content)) : forall count,
  (forall stem c, (stem, c) ∈ pairs -> dir !! stem = Some c) ->
  foldl (fun count stem =>
           match dir !! stem with
           | Some c =>
               match parse_raw now c with
               | inr m => if negb (is_deleted m) && keep m then count + 1 else count
               | inl _ => count
               end
           | None => count
           end) count pairs.*1
  = count
    + Z.of_nat (length (List.filter keep
                          (omap (fun '(_, c) =>
                                   match parse_raw now c with
                                   | inr m => if is_deleted m then None else Some m
                                   | inl _ => None
                                   end) pairs))).
Proof.
  induction pairs as [|[stem c] pairs IH]; intros count Hdir; [simpl; lia|].
  rewrite fmap_cons. cbn [foldl fst].
  rewrite (Hdir stem c) by left.
  rewrite IH by (intros ???; apply Hdir; by right).
  set (parse := fun '(_, c) => match parse_raw now c with
                               | inr m => if is_deleted m then None else Some m
                               | inl _ => None
                               end).
  change (omap parse ((stem, c) :: pairs))
    with (match parse (stem, c) with
          | Some y => y :: omap parse pairs | None => omap parse pairs end).
  subst parse. cbv beta iota.
  destruct (parse_raw now c) as [e|m]; [done|].
  destruct (is_deleted m); simpl; [done|].
  destruct (keep m); simpl; lia.
Qed.

(** X15.  [count_files] counts every record twice: in a metadata
    directory without a file named [.json], it returns twice the number
    of records that are not marked deleted and pass its filters, since
    the metadata directory is walked two times.  It never raises and
    changes nothing. *)
Theorem count_files_counts_every_record_twice now prefix extension wanted s :
  metadata_dir s !! "" = None ->
  count_files now prefix extension wanted s
  = (Returned (2 * Z.of_nat (length (List.filter (counted prefix extension wanted)
                                                 (live_records now s)))), s).
Proof.
  intros Hnone.
  unfold count_files, try_except, _iter_metadata_files, bind, gets, ret. cbn [fst snd].
  assert (Hall : List.filter (fun stem => negb (bool_decide (stem = "")))
                   (map_to_list (metadata_dir s)).*1
                 = (map_to_list (metadata_dir s)).*1).
  { apply forallb_filter_id, forallb_forall. intros stem Hin.
    apply list_elem_of_In, list_elem_of_fmap in Hin as ([k c] & -> & Hin).
    apply elem_of_map_to_list in Hin. simpl.
    rewrite bool_decide_eq_false_2; [done|]. intros ->. congruence. }
  rewrite Hall, foldl_app.
  rewrite !(count_loop_counts now (metadata_dir s) (counted prefix extension wanted))
    by (intros ???; by apply elem_of_map_to_list).
  fold (live_records now s). do 2 f_equal. lia.
Qed.

Lemma count_files_counts_every_record_twice_witness :
  count_files 5 None None None report_store = (Returned 2, report_store)
  /\ length (live_records 5 report_store) = 1%nat.
Proof.
  split; [|vm_compute; reflexivity].
  apply (count_files_counts_every_record_twice 5 None None None report_store).
  reflexivity.
Defined.

(** ** Versions *)

Lemma run_versions_loop now id s names :
  exists r,
    versions_loop now id names s = (r, s)
    /\ match r with
       | Returned versions =>
           forall m, m ∈ versions ->
             exists v, get_file_metadata now id (Some v) s = (Returned m, s)
       | Raised e => is_ValueError e = false
       | Blocked => False
       end.
Proof.
  induction names as [|name names IH]; simpl.
  { eexists. split; [reflexivity|]. intros m Hm. by apply elem_of_nil in Hm. }
  destruct IH as (r & Hrun & Hr).
  destruct (PyStr.endswith name ".json"); [|by exists r].
  unfold bind at 1, attempt.
  destruct (PyStr.int _) as [v|].
  - rewrite run_get_file_metadata.
    pose proof (run_get_file_metadata now id (Some v) s) as Hget.
    destruct (read (_get_metadata_path id (Some v)) s) as [c|].
    + destruct (parse_raw now c) as [e|m] eqn:Hparse.
      * assert (He : is_ValueError e = true).
        { destruct c as [b|doc]; simpl in Hparse; [by simplify_eq|].
          unfold new_FileMetadata in Hparse. destruct (invalid_fields doc); by simplify_eq. }
        rewrite He. by exists r.
      * unfold bind. rewrite Hrun.
        destruct r as [versions|e|]; [|by exists (Raised e)|done].
        eexists. split; [reflexivity|].
        intros m' Hm'. apply elem_of_cons in Hm' as [->|Hm']; [by exists v|by apply Hr].
    + simpl. eexists. split; [reflexivity|]. done.
  - simpl. by exists r.
Qed.

(** X16.  [get_file_versions] changes nothing.  When it returns, the
    records are ordered by increasing [version] and each is the record
    [get_file_metadata] reads for some version of the file; it returns
    the empty list for a file without a directory of versions.  When it
    raises, the exception is none of those its loop catches. *)
Theorem file_versions_are_listed_by_version now id s :
  exists r,
    get_file_versions now id s = (r, s)
    /\ match r with
       | Returned versions =>
           by_version versions
           /\ (versions_dir s !! id = None -> versions = [])
           /\ forall m, m ∈ versions ->
                exists v, get_file_metadata now id (Some v) s = (Returned m, s)
       | Raised e => is_ValueError e = false
       | Blocked => False
       end.
Proof.
  unfold get_file_versions, bind, gets, ret.
  destruct (versions_dir s !! id) as [entries|] eqn:Hdir.
  - destruct (run_versions_loop now id s (map_to_list entries).*1) as (r & -> & Hr).
    destruct r as [versions|e|]; eexists; (split; [reflexivity|]); [|done..].
    split; [apply sorted_by_ordered|]. split; [done|].
    intros m Hm. rewrite ContextExtra.sorted_by_perm in Hm. by apply Hr.
  - eexists. split; [reflexivity|]. split; [|split; [done|]].
    + intros i j a b _ Ha. by rewrite lookup_nil in Ha.
    + intros m Hm. by apply elem_of_nil in Hm.
Qed.

(** ** A record that is stored is read back *)

Lemma lower_char_idemp c : PyStr.lower_char (PyStr.lower_char c) = PyStr.lower_char c.
Proof. destruct c as [[] [] [] [] [] [] [] []]; reflexivity. Qed.

Lemma lower_char_space c : Ascii.is_space (PyStr.lower_char c) = Ascii.is_space c.
Proof. destruct c as [[] [] [] [] [] [] [] []]; reflexivity. Qed.

Lemma lower_idemp v : PyStr.lower (PyStr.lower v) = PyStr.lower v.
Proof. induction v as [|c v IH]; simpl; [done|]. by rewrite lower_char_idemp, IH. Qed.

Lemma lower_empty v : PyStr.lower v = "" <-> v = "".
Proof. by destruct v. Qed.

Lemma lower_rev_app u v :
  PyStr.lower (String.rev_app u v) = String.rev_app (PyStr.lower u) (PyStr.lower v).
Proof. revert v. induction u as [|c u IH]; intros v; simpl; [done|]. by rewrite IH. Qed.

Lemma lower_rev v : PyStr.lower (String.rev v) = String.rev (PyStr.lower v).
Proof. apply lower_rev_app. Qed.

Lemma lower_lstrip v : PyStr.lstrip (PyStr.lower v) = PyStr.lower (PyStr.lstrip v).
Proof.
  induction v as [|c v IH]; simpl; [done|].
  rewrite lower_char_space. by destruct (Ascii.is_space c).
Qed.

Lemma lower_strip v : PyStr.strip (PyStr.lower v) = PyStr.lower (PyStr.strip v).
Proof. unfold PyStr.strip. by rewrite lower_lstrip, <- lower_rev, lower_lstrip, lower_rev. Qed.

Lemma validate_content_type_idemp v :
  validate_content_type (validate_content_type v) = validate_content_type v.
Proof.
  unfold validate_content_type at 2 3. case_bool_decide as Hv; [reflexivity|].
  unfold validate_content_type. rewrite lower_strip, lower_idemp.
  rewrite bool_decide_eq_false_2; [done|]. by rewrite lower_empty.
Qed.

Lemma parse_of_validated now m :
  validated m -> parse_raw now (Json (fields_of m)) = inr m.
Proof.
  intros (t & f & Hm). unfold new_FileMetadata in Hm.
  destruct (invalid_fields f) eqn:Hvalid; [|done]. injection Hm as <-.
  unfold invalid_fields in Hvalid.
  repeat match type of Hvalid with
         | _ ++ _ = [] => apply app_eq_nil in Hvalid as [? Hvalid]
         end.
  destruct (f_size f) as [n|] eqn:Hsize; [|done].
  destruct (Z.leb_spec 0 n); [|done].
  destruct (f_checksum f) as [c|] eqn:Hc; [|done].
  case_bool_decide as Hne; [done|].
  simpl. unfold new_FileMetadata, invalid_fields. simpl.
  destruct (Z.leb_spec 0 n); [|lia].
  rewrite bool_decide_eq_false_2 by (by rewrite lower_empty). simpl.
  rewrite validate_content_type_idemp, lower_idemp.
  by destruct (f_updated_at f) as [[| |]|].
Qed.

(** X17.  A record as the constructor of [FileMetadata] leaves it,
    stored as its JSON document at the location [_get_metadata_path]
    gives for an identifier and a version, is read back unchanged by
    [get_file_metadata] for that identifier and version, at any instant:
    the validators of the model change nothing in a record that they
    produced. *)
Theorem stored_record_is_read_back now id v m s :
  validated m ->
  read (_get_metadata_path id v) s = Some (Json (fields_of m)) ->
  get_file_metadata now id v s = (Returned m, s).
Proof.
  intros Hm Hread. rewrite run_get_file_metadata, Hread.
  by rewrite parse_of_validated.
Qed.

Lemma stored_record_is_read_back_witness :
  get_file_metadata 9 "f1" (Some 2) versions_store = (Returned report_v2, versions_store).
Proof.
  apply (stored_record_is_read_back 9 "f1" (Some 2) report_v2 versions_store).
  - exists 1, (fields_of report_v2). reflexivity.
  - reflexivity.
Defined.

(** ** Deletion and access time *)

Lemma append_not_self (u v : string) : v <> "" -> u +:+ v <> u.
Proof.
  intros Hv. induction u as [|c u IH]; simpl; [done|].
  intros Heq. injection Heq as Heq. by apply IH.
Qed.

(** the record of a version other than 0 is not the current record *)
Lemma versioned_stem_differs id v :
  v <> 0 -> _get_metadata_path id (Some v) = InMetadata (id +:+ "_v" +:+ pretty v)
            /\ id +:+ "_v" +:+ pretty v <> id.
Proof.
  intros Hv. unfold _get_metadata_path. rewrite bool_decide_eq_false_2 by done.
  split; [done|]. by apply append_not_self.
Qed.

Lemma run_save_metadata m s :
  _save_metadata m s
  = (Raised (TypeError "`dumps_kwargs` keyword arguments are no longer supported."),
     write (_get_metadata_path (file_id m) (Some (version m))) (Blob []) s).
Proof. reflexivity. Qed.

Lemma run_publish_event now event data s :
  _publish_event now event data s
  = (Returned tt,
     if context_manager s
     then with_published (fun l =>
            l ++ [{| Context.event_type := Context.FILE_CHANGE;
                     Context.source := "file_manager";
                     Context.data := ("event", PStr event)
                                     :: ("timestamp", PInt now) :: data |}]) s
     else s).
Proof. unfold _publish_event, bind, gets. by destruct (context_manager s). Qed.

Section MaintenanceProps.
Variable sha256_hexdigest : content -> string.
Variable uuid4 : nat -> string.
Variable as_posix : string -> string.
Variable st_mtime : string -> Z.
Variable aios_rmtree : string -> FM unit.
Variable mkdir_parent : option string -> string -> FileManager -> option exn.

(** X18.  A soft delete never takes effect.  [delete_file(file_id)] of
    a file whose current record has a version other than 0 raises the
    [TypeError] of [_save_metadata] and publishes no event.  The current
    record is untouched, so that [get_file_metadata(file_id)] returns it
    as before, not marked deleted if it was not, and it is still among
    the records [list_files] reads; the location of the record of that
    version is left holding an empty document. *)
Theorem soft_delete_leaves_the_current_record now id m s :
  get_file_metadata now id None s = (Returned m, s) ->
  file_id m = id ->
  version m <> 0 ->
  let r := delete_file aios_rmtree now id false s in
  r.1 = Raised (TypeError "`dumps_kwargs` keyword arguments are no longer supported.")
  /\ get_file_metadata now id None r.2 = (Returned m, r.2)
  /\ read (_get_metadata_path id (Some (version m))) r.2 = Some (Blob [])
  /\ (is_deleted m = false -> m ∈ live_records now r.2)
  /\ published r.2 = published s.
Proof.
  intros Hget Hid Hv.
  destruct (versioned_stem_differs id (version m) Hv) as [Hpath Hne].
  assert (Hrun : delete_file aios_rmtree now id false s
                 = (Raised (TypeError
                              "`dumps_kwargs` keyword arguments are no longer supported."),
                    write (InMetadata (id +:+ "_v" +:+ pretty (version m))) (Blob []) s)).
  { unfold delete_file, try_except, bind. rewrite Hget.
    rewrite run_save_metadata. unfold raise.
    cbn [mark_deleted file_id version]. by rewrite Hid, Hpath. }
  cbv zeta. rewrite Hrun. cbn [fst snd].
  rewrite run_get_file_metadata in Hget.
  destruct (read (_get_metadata_path id None) s) as [c|] eqn:Hc; [|done].
  destruct (parse_raw now c) as [e|m'] eqn:Hparse; [done|]. injection Hget as ->.
  simpl in Hc.
  split; [done|]. split; [|split; [|split]].
  - rewrite run_get_file_metadata. destruct s; fm_simpl.
    rewrite lookup_insert_ne by done. by rewrite Hc, Hparse.
  - rewrite Hpath. destruct s; fm_simpl. by rewrite lookup_insert_eq.
  - intros Hlive. unfold live_records. apply list_elem_of_omap.
    exists (id, c). split.
    + apply elem_of_map_to_list. destruct s; fm_simpl. by rewrite lookup_insert_ne.
    + by rewrite Hparse, Hlive.
  - by destruct s.
Qed.

(** X19.  [update_access_time] never takes effect either: for a file
    whose current record has a version other than 0 it raises the
    [TypeError] of [_save_metadata]; [get_file_metadata(file_id)]
    returns the current record with the [updated_at] it had, and the
    location of the record of that version is left holding an empty
    document. *)
Theorem access_time_is_not_read_back now id m s :
  get_file_metadata now id None s = (Returned m, s) ->
  file_id m = id ->
  version m <> 0 ->
  let r := update_access_time now id s in
  r.1 = Raised (TypeError "`dumps_kwargs` keyword arguments are no longer supported.")
  /\ get_file_metadata now id None r.2 = (Returned m, r.2)
  /\ read (_get_metadata_path id (Some (version m))) r.2 = Some (Blob []).
Proof.
  intros Hget Hid Hv.
  destruct (versioned_stem_differs id (version m) Hv) as [Hpath Hne].
  assert (Hrun : update_access_time now id s
                 = (Raised (TypeError
                              "`dumps_kwargs` keyword arguments are no longer supported."),
                    write (InMetadata (id +:+ "_v" +:+ pretty (version m))) (Blob []) s)).
  { unfold update_access_time, bind. rewrite Hget, run_save_metadata.
    cbn [touch file_id version]. by rewrite Hid, Hpath. }
  cbv zeta. rewrite Hrun. cbn [fst snd].
  rewrite run_get_file_metadata in Hget. rewrite run_get_file_metadata, Hpath.
  destruct (read (_get_metadata_path id None) s) as [c|] eqn:Hc; [|done].
  destruct (parse_raw now c) as [e|m'] eqn:Hparse; [done|]. injection Hget as ->.
  destruct s; fm_simpl. rewrite lookup_insert_ne by done. rewrite Hc, Hparse.
  by rewrite lookup_insert_eq.
Qed.

(** X20.  For an identifier without a current record, [delete_file]
    (soft or permanent), [update_access_time] and [download_file] raise
    the not-found error of [get_file_metadata] and change nothing. *)
Theorem unknown_file_is_reported_not_found now id permanent s :
  metadata_dir s !! id = None ->
  let not_found := FileNotFoundError ("Metadata for file " +:+ id +:+ " not found") in
  delete_file aios_rmtree now id permanent s = (Raised not_found, s)
  /\ update_access_time now id s = (Raised not_found, s)
  /\ download_file now id None s = (Raised not_found, s).
Proof.
  intros Hnone not_found.
  assert (Hget : get_file_metadata now id None s = (Raised not_found, s)).
  { rewrite run_get_file_metadata. simpl. by rewrite Hnone. }
  unfold delete_file, update_access_time, download_file, try_except, bind.
  by rewrite Hget.
Qed.

(** X21.  A permanent delete of a file that has a current record and no
    directory of versions returns [True]; the content and the current
    record are gone, so that [get_file_metadata(file_id)] ends with the
    not-found error, and one event is published.  Every other metadata
    record is left as it was: the records saved under the versioned
    names of the file are not removed. *)
Theorem permanent_delete_leaves_version_records now id m s :
  get_file_metadata now id None s = (Returned m, s) ->
  versions_dir s !! id = None ->
  let r := delete_file aios_rmtree now id true s in
  r.1 = Returned true
  /\ root_dir r.2 = delete id (root_dir s)
  /\ metadata_dir r.2 = delete id (metadata_dir s)
  /\ (forall v, v <> 0 ->
        read (_get_metadata_path id (Some v)) r.2 = read (_get_metadata_path id (Some v)) s)
  /\ (get_file_metadata now id None r.2).1
     = Raised (FileNotFoundError ("Metadata for file " +:+ id +:+ " not found"))
  /\ (context_manager s = true -> length (published r.2) = S (length (published s))).
Proof.
  intros Hget Hdir.
  assert (Hrun : exists s',
            delete_file aios_rmtree now id true s = (Returned true, s')
            /\ root_dir s' = delete id (root_dir s)
            /\ metadata_dir s' = delete id (metadata_dir s)
            /\ (context_manager s = true -> length (published s') = S (length (published s)))).
  { pose proof Hget as Hc. rewrite run_get_file_metadata in Hc.
    destruct (read (_get_metadata_path id None) s) as [c|] eqn:Hread; [|done].
    simpl in Hread.
    unfold delete_file, try_except, bind. rewrite Hget.
    destruct s as [mx al cm rd td vd md ud pb].
    unfold gets, ret, run_op, _publish_event, bind, gets, modify, ret. fm_simpl.
    destruct (rd !! id) as [b|] eqn:Hroot; simpl; rewrite ?Hroot; simpl;
      rewrite Hdir; simpl; rewrite Hread; simpl; rewrite ?Hread; simpl;
      destruct cm; simpl; eexists; (split; [reflexivity|]); simpl;
      (split; [by rewrite ?delete_id by done|]); (split; [done|]);
      intros; rewrite ?length_app; simpl; (lia || done). }
  destruct Hrun as (s' & Hrun & Hroot & Hmeta & Hpub). cbv zeta. rewrite Hrun. cbn [fst snd].
  split; [done|]. split; [done|]. split; [done|]. split; [|split; [|done]].
  - intros v Hv. destruct (versioned_stem_differs id v Hv) as [-> Hne]. simpl.
    by rewrite Hmeta, lookup_delete_ne.
  - rewrite run_get_file_metadata. simpl. by rewrite Hmeta, lookup_delete_eq.
Qed.

(** ** Temporary files *)

Lemma run_cleanup_loop cutoff names : forall count s,
  NoDup names ->
  (forall name, name ∈ names -> is_Some (tmp_dir s !! name)) ->
  let old name := st_mtime ("tmp/" +:+ name) <? cutoff in
  exists s',
    cleanup_loop st_mtime cutoff names count s
    = (Returned (count + Z.of_nat (length (List.filter old names))), s')
    /\ (forall name, tmp_dir s' !! name
                     = if bool_decide (name ∈ names) && old name then None
                       else tmp_dir s !! name)
    /\ root_dir s' = root_dir s /\ versions_dir s' = versions_dir s
    /\ metadata_dir s' = metadata_dir s /\ published s' = published s.
Proof.
  induction names as [|name names IH]; intros count s Hnd Hin old.
  { exists s. split; [simpl; unfold ret; do 2 f_equal; lia|]. repeat split; try done. }
  apply NoDup_cons in Hnd as [Hfresh Hnd]. simpl.
  fold (old name). destruct (old name) eqn:Hold.
  - destruct (Hin name) as [c Hc]; [by left|].
    unfold bind at 1. unfold attempt, run_op, bind, gets, modify. simpl. rewrite Hc.
    destruct (IH (count + 1) (unlink (InTmp name) s) Hnd) as (s' & Hrun & Htmp & Hrest).
    { intros n Hn. destruct s; fm_simpl. rewrite lookup_delete_ne by set_solver.
      apply Hin. by right. }
    exists s'. split.
    { simpl in Hrun. rewrite Hrun. fold old. do 2 f_equal. lia. }
    split; [|by destruct s].
    intros n. rewrite Htmp. fold (old n).
    destruct (decide (n = name)) as [->|Hne].
    + rewrite (bool_decide_eq_true_2 (name ∈ name :: names)) by left.
      rewrite Hold. simpl. destruct s; fm_simpl. rewrite lookup_delete_eq.
      by destruct (_ && _).
    + assert (Heq : bool_decide (n ∈ name :: names) = bool_decide (n ∈ names)).
      { apply bool_decide_ext. set_solver. }
      rewrite Heq. destruct s; fm_simpl. by rewrite lookup_delete_ne.
  - destruct (IH count s Hnd) as (s' & Hrun & Htmp & Hrest).
    { intros n Hn. apply Hin. by right. }
    exists s'. split; [done|]. split; [|done].
    intros n. rewrite Htmp. fold (old n).
    destruct (decide (n = name)) as [->|Hne].
    + rewrite (bool_decide_eq_true_2 (name ∈ name :: names)) by left.
      rewrite (bool_decide_eq_false_2 (name ∈ names)) by done. by rewrite Hold.
    + assert (Heq : bool_decide (n ∈ name :: names) = bool_decide (n ∈ names)).
      { apply bool_decide_ext. set_solver. }
      by rewrite Heq.
Qed.


(** ** Uploads *)

Lemma bind_Returned {A B} (m : FM A) (k : A -> FM B) s b s' :
  bind m k s = (Returned b, s') ->
  exists a s1, m s = (Returned a, s1) /\ k a s1 = (Returned b, s').
Proof. unfold bind. destruct (m s) as [[a|e|] s1]; intros H; by eauto. Qed.

Lemma stored_record_same_records now s s' m :
  same_records s s' -> stored_record now s' m -> stored_record now s m.
Proof. intros [Hmeta _]. unfold stored_record. by rewrite Hmeta. Qed.

(** the lookup by path, from the records that are not marked deleted *)
Lemma run_get_file_metadata_by_path now relative s :
  exists all,
    (forall m, m ∈ all <-> m ∈ live_records now s)
    /\ (length all <= 2 * base.size (metadata_dir s))%nat
    /\ get_file_metadata_by_path as_posix now relative s
       = (if sortable (live_records now s)
          then Returned
                 (List.find (fun m => String.eqb (as_posix (filename m)) (as_posix relative))
                            (take 100 (sorted_by (fun m => - instant (updated_at m)) all)))
          else Raised (IOError "Failed to list files: can't compare offset-naive and offset-aware datetimes"),
          s).
Proof.
  destruct (run_list_files now None None None 0 100 s) as (all & Hsame & Hlen & Hrun).
  assert (Hall : List.filter (matches None None None) (live_records now s)
                 = live_records now s).
  { apply forallb_filter_id, forallb_forall. by intros m _. }
  rewrite Hall in Hsame, Hrun.
  exists all. split; [done|]. split; [done|].
  unfold get_file_metadata_by_path, bind. rewrite Hrun.
  by destruct (sortable _).
Qed.

(** the steps of an upload end at a record only by returning a stored
    record of the same content, and only without [overwrite] *)
Lemma upload_steps_deduplicated now file md tags overwrite effective id name s m s' :
  upload_steps sha256_hexdigest as_posix now file md tags overwrite effective id
               (InTmp name) s
  = (Returned (Deduplicated m), s') ->
  overwrite = false /\ stored_record now s' m.
Proof.
  unfold upload_steps. intros H.
  apply bind_Returned in H as (_ & s1 & _ & H).
  apply bind_Returned in H as (limit & s2 & _ & H).
  apply bind_Returned in H as (size & s3 & _ & H).
  apply bind_Returned in H as (sum & s4 & _ & H).
  apply bind_Returned in H as (existing & s5 & Hfind & H).
  destruct (run_find_file_by_checksum now sum s4) as (r & Hrun & Hr).
  rewrite Hrun in Hfind. injection Hfind as ? ?; subst existing s5.
  assert (Hplace : forall s6 st,
            upload_place as_posix now file md tags overwrite effective id (InTmp name)
                         size sum s6 = (Returned st, s') ->
            st <> Deduplicated m).
  { unfold upload_place, bind, ret. intros s6 st Hst.
    repeat case_match; by simplify_eq. }
  destruct r as [m0|], overwrite; try (by apply Hplace in H).
  apply bind_Returned in H as ([] & s6 & Hremove & H).
  unfold ret in H. injection H as -> ->. split; [done|].
  destruct Hr as [_ Hstored].
  pose proof (frame_Remove (InTmp name) I s4) as Hframe. rewrite Hremove in Hframe.
  destruct Hstored as (stem & c & Hstem & Hc & Hparse).
  exists stem, c. destruct Hframe as [Hmeta _]. simpl in Hmeta. by rewrite Hmeta.
Qed.

Lemma upload_file_outcome now file md tags overwrite target s r s' :
  upload_file sha256_hexdigest uuid4 as_posix now file md tags overwrite target s = (r, s') ->
  same_records s s'
  /\ forall m, r = Returned m -> overwrite = false /\ stored_record now s m.
Proof.
  unfold upload_file. intros Hrun.
  destruct (str_or target (uf_filename file)) as [name|];
    [|injection Hrun as <- <-; by split].
  case_bool_decide; [injection Hrun as <- <-; by split|].
  unfold bind at 1 in Hrun. unfold gets at 1 in Hrun.
  destruct (_validate_extension (allowed_extensions s) (as_posix name));
    [|injection Hrun as <- <-; by split].
  cbn [negb] in Hrun.
  unfold bind at 1 in Hrun. unfold draw_uuid, bind, gets, modify, ret in Hrun.
  cbn [fst snd] in Hrun.
  set (s0 := with_uuids_drawn S s) in *.
  set (t := "upload_" +:+ uuid4 (uuids_drawn s)) in *.
  assert (Hs0 : same_records s s0) by (by destruct s).
  unfold try_except in Hrun.
  pose proof (frame_upload_steps sha256_hexdigest as_posix now file md tags overwrite
                (as_posix name) (uuid4 (uuids_drawn s)) t s0) as Hframe.
  destruct (upload_steps sha256_hexdigest as_posix now file md tags overwrite
              (as_posix name) (uuid4 (uuids_drawn s)) (InTmp t) s0)
    as [[st|e|] s1] eqn:Hsteps; cbn [snd] in Hframe.
  - destruct st as [existing|args ev pl]; cbn [upload_finish] in Hrun.
    + unfold ret in Hrun. injection Hrun as <- <-. split; [by etrans|].
      intros m [= <-].
      destruct (upload_steps_deduplicated _ _ _ _ _ _ _ _ _ _ _ Hsteps) as [Hov Hst].
      split; [done|]. eapply stored_record_same_records; [|exact Hst]. by etrans.
    + destruct (new_FileMetadata_without_path now args
                  (upload_steps_construct _ _ _ _ _ _ _ _ _ _ _ _ _ _ _ Hsteps))
        as (fields & Hnew & _).
      rewrite Hnew in Hrun. unfold raise in Hrun.
      destruct (read (InTmp t) s1) eqn:Hleft;
        unfold run_op, bind, gets, modify, raise in Hrun; rewrite ?Hleft in Hrun;
        injection Hrun as <- <-.
      * split; [|done]. etrans; [by etrans|]. by apply (unlink_same_records (InTmp t)).
      * split; [by etrans|done].
  - destruct (read (InTmp t) s1) eqn:Hleft;
      unfold run_op, bind, gets, modify, raise in Hrun; rewrite ?Hleft in Hrun;
      injection Hrun as <- <-.
    + split; [|done]. etrans; [by etrans|]. by apply (unlink_same_records (InTmp t)).
    + split; [by etrans|done].
  - injection Hrun as <- <-. split; [by etrans|done].
Qed.

(** X23.  [upload_file] never adds a record.  Whatever the upload and
    the store, it leaves the metadata directory and the published events
    as they were; and when it returns a record, [overwrite] was not set
    and the record is one that was already stored. *)
Theorem upload_never_adds_a_record now file md tags overwrite target s :
  let r := upload_file sha256_hexdigest uuid4 as_posix now file md tags overwrite target s in
  metadata_dir r.2 = metadata_dir s
  /\ published r.2 = published s
  /\ match r.1 with
     | Returned m => overwrite = false /\ stored_record now s m
     | _ => True
     end.
Proof.
  cbv zeta.
  destruct (upload_file sha256_hexdigest uuid4 as_posix now file md tags overwrite target s)
    as [r s'] eqn:Hrun.
  destruct (upload_file_outcome now file md tags overwrite target s r s' Hrun)
    as [[Hm Hp] Hret].
  split; [done|]. split; [done|].
  destruct r as [m| |]; [by apply Hret|done..].
Qed.

(** X24.  An upload with [overwrite] that passes the checks of its name
    and size always fails, leaves the metadata directory as it was and
    removes its temporary file.  When the records that are not marked
    deleted can all be ordered by [updated_at], it ends with the
    validation error on [path], but not before the uploaded bytes were
    moved to their final place: they stay in the storage root under the
    identifier drawn for the upload, without any metadata record.  When
    two of those records cannot be ordered, the lookup of the name fails
    first: the upload ends with the [IOError] of [list_files] and the
    storage root is as it was. *)
Theorem failed_upload_leaves_its_bytes_behind now file md tags target s name :
  str_or target (uf_filename file) = Some name ->
  as_posix name <> "" ->
  _validate_extension (allowed_extensions s) (as_posix name) = true ->
  Z.of_nat (length (uploaded_bytes (uf_reads file))) <= max_file_size s ->
  exists e s',
    upload_file sha256_hexdigest uuid4 as_posix now file md tags true target s
    = (Raised e, s')
    /\ tmp_dir s' = delete ("upload_" +:+ uuid4 (uuids_drawn s)) (tmp_dir s)
    /\ metadata_dir s' = metadata_dir s
    /\ if sortable (live_records now s)
       then (exists fields, e = ValidationError fields /\ "path" ∈ fields)
            /\ root_dir s'
               = <[uuid4 (uuids_drawn s) := Blob (uploaded_bytes (uf_reads file))]>
                   (root_dir s)
       else (exists message, e = IOError message) /\ root_dir s' = root_dir s.
Proof.
  intros Hname Hposix Hext Hfit.
  unfold upload_file. rewrite Hname. rewrite bool_decide_eq_false_2 by done.
  unfold bind at 1. unfold gets at 1. rewrite Hext. cbn [negb].
  unfold bind at 1. unfold draw_uuid, bind, gets, modify, ret. cbn [fst snd].
  set (s0 := with_uuids_drawn S s).
  set (t := "upload_" +:+ uuid4 (uuids_drawn s)).
  set (bytes := uploaded_bytes (uf_reads file)) in *.
  set (s2 := with_tmp_dir <[t := Blob bytes]> s0).
  set (s3 := write (InRoot (uuid4 (uuids_drawn s))) (Blob bytes) (unlink (InTmp t) s2)).
  assert (Hread : read (InTmp t) s2 = Some (Blob bytes)).
  { subst s2 s0. destruct s; fm_simpl. by rewrite lookup_insert_eq. }
  assert (Hsteps : upload_steps sha256_hexdigest as_posix now file md tags true
                     (as_posix name) (uuid4 (uuids_drawn s)) (InTmp t) s0
                   = upload_place as_posix now file md tags true (as_posix name)
                       (uuid4 (uuids_drawn s)) (InTmp t)
                       (0 + Z.of_nat (length (uploaded_bytes (uf_reads file))))
                       (sha256_hexdigest (Blob bytes)) s2).
  { unfold upload_steps.
    unfold bind at 1. cbn [run_op]. unfold modify at 1.
    unfold bind at 1. unfold gets at 1.
    unfold bind at 1.
    rewrite (run_save_chunks t _ _ 0 []); cycle 1.
    { destruct s; fm_simpl. apply lookup_insert_eq. }
    { destruct s; fm_simpl. fold bytes. lia. }
    assert (Hs2 : with_tmp_dir <[t := Blob ([] ++ uploaded_bytes (uf_reads file))]>
                    (write (InTmp t) (Blob []) s0) = s2).
    { subst s2 s0 bytes. destruct s; fm_simpl. by rewrite insert_insert_eq. }
    rewrite Hs2.
    unfold bind at 1. unfold _calculate_checksum, bind, gets. rewrite Hread. unfold ret at 1.
    destruct (run_find_file_by_checksum now (sha256_hexdigest (Blob bytes)) s2)
      as (r & -> & _).
    by destruct r. }
  destruct (run_get_file_metadata_by_path now (as_posix name) s2)
    as (all & _ & _ & Hby).
  assert (Hlive : live_records now s2 = live_records now s) by (by destruct s).
  rewrite Hlive in Hby.
  destruct (sortable (live_records now s)) eqn:Hsort.
  - assert (Hplace : exists args ev pl,
              upload_steps sha256_hexdigest as_posix now file md tags true (as_posix name)
                           (uuid4 (uuids_drawn s)) (InTmp t) s0
              = (Returned (Construct args ev pl), s3)).
    { rewrite Hsteps. unfold upload_place. unfold bind at 1. rewrite Hby.
      assert (Hgo : (run_op (Mkdir "");;
                     run_op (Rename (InTmp t) (_get_file_path (uuid4 (uuids_drawn s)) None));;
                     ret (Construct
                            (upload_args now file md tags (as_posix name)
                               (0 + Z.of_nat (length (uploaded_bytes (uf_reads file))))
                               (sha256_hexdigest (Blob bytes)) (uuid4 (uuids_drawn s)) 1)
                            "file_created"
                            [("file_id", PStr (uuid4 (uuids_drawn s)));
                             ("filename", PStr (as_posix name));
                             ("size", PInt (0 + Z.of_nat (length
                                                  (uploaded_bytes (uf_reads file)))))])) s2
                    = (Returned (Construct
                            (upload_args now file md tags (as_posix name)
                               (0 + Z.of_nat (length (uploaded_bytes (uf_reads file))))
                               (sha256_hexdigest (Blob bytes)) (uuid4 (uuids_drawn s)) 1)
                            "file_created"
                            [("file_id", PStr (uuid4 (uuids_drawn s)));
                             ("filename", PStr (as_posix name));
                             ("size", PInt (0 + Z.of_nat (length
                                                  (uploaded_bytes (uf_reads file)))))]),
                       s3)).
      { unfold run_op, bind, gets, modify, ret. cbn [_get_file_path]. by rewrite Hread. }
      destruct (List.find _ _); do 3 eexists; exact Hgo. }
    destruct Hplace as (args & ev & pl & Hplace).
    destruct (new_FileMetadata_without_path now args
                (upload_steps_construct _ _ _ _ _ _ _ _ _ _ _ _ _ _ _ Hplace))
      as (fields & Hnew & Hin).
    unfold try_except, bind. rewrite Hplace. cbn [upload_finish]. rewrite Hnew. unfold raise.
    assert (Hgone : read (InTmp t) s3 = None).
    { subst s3 s2 s0. destruct s; fm_simpl. apply lookup_delete_eq. }
    unfold gets. rewrite Hgone.
    exists (ValidationError fields), s3.
    split; [done|].
    subst s3 s2 s0. destruct s; fm_simpl.
    split; [by rewrite delete_insert_eq|]. split; [done|]. split; [by exists fields|done].
  - unfold try_except, bind. rewrite Hsteps. unfold upload_place, bind. rewrite Hby.
    unfold gets. rewrite Hread. unfold run_op, bind, gets, modify, raise. rewrite Hread.
    eexists _, _. split; [reflexivity|].
    subst s2 s0. destruct s; fm_simpl.
    split; [by rewrite delete_insert_eq|]. split; [done|]. split; [by eexists|done].
Qed.

(** ** Uploads of a directory *)

Lemma run_upload_directory_loop now base md overwrite files : forall uploaded s r s',
  upload_directory_loop sha256_hexdigest uuid4 as_posix mkdir_parent now files base
                        md overwrite uploaded s = (r, s') ->
  (forall m, m ∈ uploaded -> overwrite = false /\ stored_record now s m) ->
  same_records s s'
  /\ forall ms, r = Returned ms ->
       forall m, m ∈ ms -> overwrite = false /\ stored_record now s m.
Proof.
  induction files as [|file files IH]; intros uploaded s r s' Hrun Hup; simpl in Hrun.
  { injection Hrun as <- <-. split; [done|]. by intros ms [= <-]. }
  destruct (uf_filename file) as [[|c name]|]; [by eapply IH| |by eapply IH].
  unfold bind at 1 in Hrun. unfold gets at 1 in Hrun.
  destruct (mkdir_parent base (String c name) s) as [e|];
    [injection Hrun as <- <-; by split|].
  unfold bind at 1 in Hrun. unfold attempt in Hrun.
  destruct (upload_file sha256_hexdigest uuid4 as_posix now file md None overwrite None s)
    as [r1 s1] eqn:Hup1.
  destruct (upload_file_outcome now file md None overwrite None s r1 s1 Hup1)
    as [Hsame Hret].
  assert (Hkeep : forall m, stored_record now s m -> stored_record now s1 m).
  { intros m (stem & k & ? & ? & ?). exists stem, k. destruct Hsame as [-> _]. done. }
  destruct r1 as [m|e|].
  - destruct (Hret m eq_refl) as [Hov Hm].
    destruct (IH (uploaded ++ [m]) s1 r s' Hrun) as [Hs Hms].
    { intros m' Hm'. apply elem_of_app in Hm' as [Hm'|Hm'].
      - destruct (Hup m' Hm') as [? Hst]. split; [done|by apply Hkeep].
      - apply list_elem_of_singleton in Hm' as ->. split; [done|by apply Hkeep]. }
    split; [by etrans|].
    intros ms Hr m' Hm'. destruct (Hms ms Hr m' Hm') as [? Hst]. split; [done|].
    eapply stored_record_same_records; [exact Hsame|done].
  - destruct (IH uploaded s1 r s' Hrun) as [Hs Hms].
    { intros m' Hm'. destruct (Hup m' Hm') as [? Hst]. split; [done|by apply Hkeep]. }
    split; [by etrans|].
    intros ms Hr m' Hm'. destruct (Hms ms Hr m' Hm') as [? Hst]. split; [done|].
    eapply stored_record_same_records; [exact Hsame|done].
  - injection Hrun as <- <-. by split.
Qed.

(** X25.  [upload_directory] never adds a record either: it leaves the
    metadata directory and the published events as they were, and the
    records it returns were all stored before the call; with [overwrite]
    it returns no record at all. *)
Theorem upload_directory_never_adds_a_record now files base md overwrite s :
  let r := upload_directory sha256_hexdigest uuid4 as_posix mkdir_parent now files base md
                            overwrite s in
  metadata_dir r.2 = metadata_dir s
  /\ published r.2 = published s
  /\ match r.1 with
     | Returned ms =>
         (overwrite = true -> ms = []) /\ forall m, m ∈ ms -> stored_record now s m
     | _ => True
     end.
Proof.
  cbv zeta. unfold upload_directory.
  destruct (upload_directory_loop sha256_hexdigest uuid4 as_posix mkdir_parent now files
              base md overwrite [] s) as [r s'] eqn:Hrun.
  destruct (run_upload_directory_loop now base md overwrite files [] s r s' Hrun)
    as [[Hm Hp] Hms].
  { intros m Hm. by apply elem_of_nil in Hm. }
  split; [done|]. split; [done|].
  destruct r as [ms| |]; [|done..].
  split.
  - intros ->. destruct ms as [|m ms]; [done|].
    destruct (Hms (m :: ms) eq_refl m) as [? _]; [by left|done].
  - intros m Hin. by destruct (Hms ms eq_refl m Hin).
Qed.

(** ** Statistics *)

Lemma run_get_file_versions now id s :
  exists r, get_file_versions now id s = (r, s) /\ r <> Blocked.
Proof.
  unfold get_file_versions, bind, gets, ret.
  destruct (versions_dir s !! id) as [entries|]; [|by eexists].
  destruct (run_versions_loop now id s (map_to_list entries).*1) as (r & -> & Hr).
  destruct r as [versions|e|]; [by eexists..|done].
Qed.

Lemma run_stats_step now stem c acc s :
  stem <> "" ->
  metadata_dir s !! stem = Some c ->
  let live := match parse_raw now c with
              | inr m => if is_deleted m then None else Some m
              | inl _ => None
              end in
  exists acc',
    stats_step now stem acc s = (Returned acc', s)
    /\ total_files acc' = total_files acc + (if live is Some _ then 1 else 0)
    /\ total_size acc' = total_size acc + (if live is Some m then size m else 0).
Proof.
  intros Hstem Hc live. subst live. unfold stats_step, path_stem.
  rewrite bool_decide_eq_false_2 by done.
  unfold bind at 1. unfold attempt at 1. rewrite run_get_file_metadata. simpl. rewrite Hc.
  destruct (parse_raw now c) as [e|m]; [exists acc; repeat split; simpl; lia|].
  destruct (is_deleted m); [exists acc; repeat split; simpl; lia|].
  unfold bind, attempt.
  destruct (run_get_file_versions now (file_id m) s) as (r & -> & Hr).
  destruct r as [versions|e|]; [| |done]; eexists; (split; [reflexivity|]); by simpl.
Qed.

Lemma run_stats_loop now s (pairs : list (string * content)) : forall acc,
  (forall stem c, (stem, c) ∈ pairs -> stem <> "" /\ metadata_dir s !! stem = Some c) ->
  let live := omap (fun '(_, c) =>
                      match parse_raw now c with
                      | inr m => if is_deleted m then None else Some m
                      | inl _ => None
                      end) pairs in
  exists acc',
    stats_loop now pairs.*1 acc s = (Returned acc', s)
    /\ total_files acc' = total_files acc + Z.of_nat (length live)
    /\ total_size acc' = total_size acc + sizes_sum live.
Proof.
  induction pairs as [|[stem c] pairs IH]; intros acc Hdir.
  { exists acc. repeat split; simpl; lia. }
  destruct (Hdir stem c) as [Hstem Hc]; [by left|].
  destruct (run_stats_step now stem c acc s Hstem Hc) as (acc1 & Hstep & Hfiles & Hsize).
  destruct (IH acc1) as (acc' & Hloop & Hfiles' & Hsize').
  { intros ???. apply Hdir. by right. }
  exists acc'. rewrite fmap_cons. cbn [stats_loop fst]. unfold bind at 1.
  rewrite Hstep, Hloop. split; [done|].
  rewrite Hfiles', Hsize', Hfiles, Hsize. cbv zeta.
  set (parse := fun '(_, c) => match parse_raw now c with
                               | inr m => if is_deleted m then None else Some m
                               | inl _ => None
                               end).
  change (omap parse ((stem, c) :: pairs))
    with (match parse (stem, c) with
          | Some y => y :: omap parse pairs | None => omap parse pairs end).
  subst parse. cbv beta iota.
  destruct (parse_raw now c) as [e|m]; [split; lia|].
  destruct (is_deleted m); simpl; split; lia.
Qed.

(** X26.  [get_stats] reports every file twice: in a metadata
    directory without a file named [.json], [total_files] is twice the
    number of records that are not marked deleted and [total_size] twice
    the sum of their sizes, since the metadata directory is walked two
    times.  It never raises and changes nothing. *)
Theorem get_stats_counts_every_record_twice now s :
  metadata_dir s !! "" = None ->
  exists stats,
    get_stats now s = (Returned stats, s)
    /\ total_files stats = 2 * Z.of_nat (length (live_records now s))
    /\ total_size stats = 2 * sizes_sum (live_records now s).
Proof.
  intros Hnone.
  unfold get_stats, _iter_metadata_files, bind, gets, ret. cbn [fst snd].
  assert (Hall : List.filter (fun stem => negb (bool_decide (stem = "")))
                   (map_to_list (metadata_dir s)).*1
                 = (map_to_list (metadata_dir s)).*1).
  { apply forallb_filter_id, forallb_forall. intros stem Hin.
    apply list_elem_of_In, list_elem_of_fmap in Hin as ([k c] & -> & Hin).
    apply elem_of_map_to_list in Hin. simpl.
    rewrite bool_decide_eq_false_2; [done|]. intros ->. congruence. }
  rewrite Hall, <- fmap_app.
  destruct (run_stats_loop now s (map_to_list (metadata_dir s) ++ map_to_list (metadata_dir s))
              {| total_files := 0; total_size := 0; file_types := []; total_versions := 0 |})
    as (stats & Hrun & Hfiles & Hsize).
  { intros stem c Hin. apply elem_of_app in Hin.
    assert (Hc : metadata_dir s !! stem = Some c)
      by (destruct Hin as [Hin|Hin]; by apply elem_of_map_to_list in Hin).
    split; [|done]. intros ->. congruence. }
  exists stats. split; [done|].
  rewrite omap_app, length_app in Hfiles. rewrite omap_app in Hsize.
  fold (live_records now s) in Hfiles, Hsize. simpl in Hfiles, Hsize.
  split; [lia|]. rewrite Hsize. unfold sizes_sum. rewrite foldr_app.
  generalize (live_records now s). intros l.
  assert (Hfold : forall a, foldr (fun m acc => size m + acc) a l
                            = a + foldr (fun m acc => size m + acc) 0 l).
  { induction l as [|m l IH]; intros a; simpl; [lia|]. rewrite IH. lia. }
  rewrite Hfold. lia.
Qed.

(** ** Lookup by path *)

(** X27.  [get_file_metadata_by_path] changes nothing.  When the records
    that are not marked deleted can all be ordered by [updated_at], it
    returns, and the record it returns is a record of the metadata
    directory that is not marked deleted and whose file name has the
    sought path in POSIX form.  It looks at the first 100 entries of the
    listing, which has two entries for each metadata file: when the
    metadata directory holds at most 50 files, the answer [None] means
    that no record that is not marked deleted has that path.  When two of
    those records cannot be ordered, it raises the [IOError] of
    [list_files]. *)
Theorem lookup_by_path_reads_the_first_page now relative s :
  if sortable (live_records now s)
  then
    exists r,
      get_file_metadata_by_path as_posix now relative s = (Returned r, s)
      /\ match r with
         | Some m =>
             m ∈ live_records now s /\ as_posix (filename m) = as_posix relative
         | None =>
             (base.size (metadata_dir s) <= 50)%nat ->
             forall m, m ∈ live_records now s ->
               as_posix (filename m) <> as_posix relative
         end
  else
    exists message,
      get_file_metadata_by_path as_posix now relative s = (Raised (IOError message), s).
Proof.
  destruct (run_get_file_metadata_by_path now relative s) as (all & Hsame & Hlen & Hrun).
  destruct (sortable (live_records now s)); [|by eexists].
  eexists. split; [exact Hrun|].
  destruct (List.find _ _) as [m|] eqn:Hfind.
  - apply find_some in Hfind as [Hin Heq]. apply String.eqb_eq in Heq.
    split; [|done]. apply Hsame.
    apply list_elem_of_In, subseteq_take in Hin.
    by rewrite ContextExtra.sorted_by_perm in Hin.
  - intros Hsmall m Hm Heq.
    assert (Hin : m ∈ take 100 (sorted_by (fun m => - instant (updated_at m)) all)).
    { rewrite take_ge.
      - rewrite ContextExtra.sorted_by_perm. by apply Hsame.
      - rewrite ContextExtra.sorted_by_perm. lia. }
    apply list_elem_of_In in Hin.
    pose proof (find_none _ _ Hfind m Hin) as Hno. simpl in Hno.
    apply String.eqb_neq in Hno. done.
Qed.

End MaintenanceProps.

Lemma get_stats_counts_every_record_twice_witness :
  exists stats,
    get_stats 5 report_store = (Returned stats, report_store)
    /\ total_files stats = 2 /\ total_size stats = 4
    /\ length (live_records 5 report_store) = 1%nat.
Proof.
  destruct (get_stats_counts_every_record_twice 5 report_store)
    as (stats & Hrun & Hfiles & Hsize); [reflexivity|].
  exists stats. split; [exact Hrun|].
  split; [rewrite Hfiles; vm_compute; reflexivity|].
  split; [rewrite Hsize; vm_compute; reflexivity|]. vm_compute. reflexivity.
Defined.

Lemma failed_upload_leaves_its_bytes_behind_witness :
  (exists fields s',
     toy_upload 5 (upload_of [Byte.x01; Byte.x02; Byte.x03]) true "docs/report.pdf"
                report_store
     = (Raised (ValidationError fields), s')
     /\ "path" ∈ fields
     /\ root_dir s' !! "id0" = Some (Blob [Byte.x01; Byte.x02; Byte.x03])
     /\ metadata_dir s' = metadata_dir report_store)
  /\ (exists message s',
        toy_upload 5 (upload_of [Byte.x01; Byte.x02; Byte.x03]) true "docs/report.pdf"
                   mixed_store
        = (Raised (IOError message), s')
        /\ root_dir s' = root_dir mixed_store
        /\ metadata_dir s' = metadata_dir mixed_store).
Proof.
  split.
  - destruct (failed_upload_leaves_its_bytes_behind toy_digest numbered id 5
                (upload_of [Byte.x01; Byte.x02; Byte.x03]) None None
                (Some "docs/report.pdf") report_store "docs/report.pdf")
      as (e & s' & Hrun & _ & Hmeta & Hcase);
      [reflexivity | discriminate | reflexivity | vm_compute; discriminate |].
    vm_compute sortable in Hcase.
    destruct Hcase as [(fields & -> & Hin) Hroot].
    exists fields, s'. split; [exact Hrun|]. split; [exact Hin|].
    split; [|exact Hmeta]. rewrite Hroot. apply lookup_insert_eq.
  - destruct (failed_upload_leaves_its_bytes_behind toy_digest numbered id 5
                (upload_of [Byte.x01; Byte.x02; Byte.x03]) None None
                (Some "docs/report.pdf") mixed_store "docs/report.pdf")
      as (e & s' & Hrun & _ & Hmeta & Hcase);
      [reflexivity | discriminate | reflexivity | vm_compute; discriminate |].
    vm_compute sortable in Hcase.
    destruct Hcase as [(message & ->) Hroot].
    exists message, s'. split; [exact Hrun|]. split; [exact Hroot | exact Hmeta].
Defined.

Lemma lookup_by_path_reads_the_first_page_witness :
  (exists r, get_file_metadata_by_path id 5 "docs/report.pdf" report_store
             = (Returned r, report_store))
  /\ (exists message, get_file_metadata_by_path id 5 "docs/report.pdf" mixed_store
                      = (Raised (IOError message), mixed_store)).
Proof.
  split.
  - pose proof (lookup_by_path_reads_the_first_page id 5 "docs/report.pdf" report_store)
      as Hcase.
    vm_compute sortable in Hcase.
    destruct Hcase as (r & Hrun & _). by exists r.
  - pose proof (lookup_by_path_reads_the_first_page id 5 "docs/report.pdf" mixed_store)
      as Hcase.
    vm_compute sortable in Hcase.
    exact Hcase.
Defined.

Lemma unknown_file_is_reported_not_found_witness :
  let not_found := FileNotFoundError "Metadata for file f9 not found" in
  delete_file (fun _ => ret tt) 7 "f9" true current_store = (Raised not_found, current_store)
  /\ update_access_time 7 "f9" current_store = (Raised not_found, current_store)
  /\ download_file 7 "f9" None current_store = (Raised not_found, current_store).
Proof.
  apply (unknown_file_is_reported_not_found (fun _ => ret tt) 7 "f9" true current_store).
  reflexivity.
Defined.

Lemma permanent_delete_leaves_version_records_witness :
  let r := delete_file (fun _ => ret tt) 7 "f1" true current_store in
  r.1 = Returned true
  /\ root_dir r.2 !! "f1" = None
  /\ (get_file_metadata 7 "f1" (Some 1) r.2).1 = Returned report_v1.
Proof.
  destruct (permanent_delete_leaves_version_records (fun _ => ret tt) 7 "f1" report_v1
              current_store) as (Hr & Hroot & _ & Hkept & _);
    [vm_compute; reflexivity | reflexivity |].
  split; [exact Hr|]. split.
  - rewrite Hroot. apply lookup_delete_eq.
  - rewrite run_get_file_metadata, (Hkept 1) by discriminate. reflexivity.
Defined.

Lemma soft_delete_leaves_the_current_record_witness :
  let r := delete_file (fun _ => ret tt) 7 "f1" false current_store in
  r.1 = Raised (TypeError "`dumps_kwargs` keyword arguments are no longer supported.")
  /\ get_file_metadata 7 "f1" None r.2 = (Returned report_v1, r.2)
  /\ read (InMetadata "f1_v1") current_store = Some (Json (fields_of report_v1))
  /\ read (InMetadata "f1_v1") r.2 = Some (Blob [])
  /\ report_v1 ∈ live_records 7 r.2.
Proof.
  destruct (soft_delete_leaves_the_current_record (fun _ => ret tt) 7 "f1" report_v1
              current_store) as (Hr & Hget & Hempty & Hlive & _);
    [vm_compute; reflexivity | reflexivity | discriminate |].
  split; [exact Hr|]. split; [exact Hget|]. split; [reflexivity|].
  split; [exact Hempty|]. apply Hlive. reflexivity.
Defined.

Lemma access_time_is_not_read_back_witness :
  let r := update_access_time 7 "f1" current_store in
  r.1 = Raised (TypeError "`dumps_kwargs` keyword arguments are no longer supported.")
  /\ get_file_metadata 7 "f1" None r.2 = (Returned report_v1, r.2)
  /\ updated_at report_v1 = Naive 1.
Proof.
  destruct (access_time_is_not_read_back 7 "f1" report_v1 current_store)
    as (Hr & Hget & _); [vm_compute; reflexivity | reflexivity | discriminate |].
  split; [exact Hr|]. split; [exact Hget | reflexivity].
Defined.

End FilesExtra.
